(** * jseval: a shallow embedding of the host/script bridge

    The development follows [legacy/jseval/__init__.py] and
    [legacy/jseval/pyproxies.py].  Host (Python) values, exceptions and
    traceback entries are data; the script engine is a heap of engine-owned
    objects addressed by references; every method that touches the engine or
    the evaluator takes the state it reads and returns the state it leaves.
    Part I holds the embedding of the code the claims of the specification
    are about, Part II the vocabulary those claims are stated in; Part III
    embeds the methods the claims leave out, with the vocabulary of their
    properties; Part IV proves the claims and Part V the properties of the
    rest of the code. *)

From Stdlib Require Import ZArith List String Ascii Bool Lia.
From Stdlib Require Import Floats.SpecFloat.
From stdpp Require Import base option gmap strings list pretty.

Set Warnings "-register-all".

Open Scope string_scope.
Open Scope list_scope.
Open Scope Z_scope.

(* ================================================================== *)
(** * Part I: the code *)
(* ================================================================== *)

(** ** Host exceptions *)

(** A host class, with the chain of its bases (single inheritance up to
    [object]). *)
Inductive pyclass :=
| object_
| PyClass (name : string) (base : pyclass).

#[global] Instance pyclass_eq_dec : EqDecision pyclass.
Proof. solve_decision. Defined.

Definition class_name (c : pyclass) : string :=
  match c with object_ => "object" | PyClass n _ => n end.

(** [issubclass c k]: [k] is [c] or one of its bases. *)
Fixpoint issubclass (c k : pyclass) : bool :=
  bool_decide (c = k) ||
  match c with object_ => false | PyClass _ b => issubclass b k end.

Definition BaseException := PyClass "BaseException" object_.
Definition Exception := PyClass "Exception" BaseException.
Definition StandardError := PyClass "StandardError" Exception.
Definition ArithmeticError := PyClass "ArithmeticError" StandardError.
Definition OverflowError := PyClass "OverflowError" ArithmeticError.
Definition LookupError := PyClass "LookupError" StandardError.
Definition IndexError := PyClass "IndexError" LookupError.
Definition KeyError := PyClass "KeyError" LookupError.
Definition AttributeError := PyClass "AttributeError" StandardError.
Definition TypeError := PyClass "TypeError" StandardError.
Definition ValueError := PyClass "ValueError" StandardError.
(** [pyproxies.JSError], the generic kind for an error that came from a
    script. *)
Definition JSError := PyClass "JSError" Exception.

(** The classes of the host's [exceptions] module that this development
    names, by name: the initial content of [pythonExceptionStore]. *)
Definition builtin_exceptions : list (string * pyclass) :=
  (fun k => (class_name k, k)) <$>
    [BaseException; Exception; StandardError; ArithmeticError; OverflowError;
     LookupError; IndexError; KeyError; AttributeError; TypeError; ValueError].

(** One traceback entry, in the order both runtimes use:
    [path, line, func, code]. *)
Record frame := Frame {
  f_path : string;
  f_line : Z;
  f_func : string;
  f_code : string
}.

#[global] Instance frame_eq_dec : EqDecision frame.
Proof. solve_decision. Defined.

(** The single argument an exception was built with. *)
Inductive excarg :=
| ArgStr (s : string)
| ArgInt (n : Z).

(** An exception instance: its class, [e.message], the [name] attribute when
    the instance has one ([JSError] sets it) and the [oldTraceback] attribute
    when it was set. *)
Record pyexc := PyExc {
  exc_class : pyclass;
  exc_message : excarg;
  exc_name : option string;
  exc_oldTraceback : option (list frame)
}.

Definition isinstance (e : pyexc) (k : pyclass) : bool :=
  issubclass (exc_class e) k.

(** [K(message)] for a class with the constructor of [BaseException]. *)
Definition new_exc (k : pyclass) (message : excarg) : pyexc :=
  PyExc k message None None.

(** [pyproxies.JSError(name, message)]. *)
Definition new_JSError (name message : string) : pyexc :=
  PyExc JSError (ArgStr message) (Some name) None.

(** Outcome of a host computation: a value or a raised exception. *)
Inductive result (A : Type) :=
| Ok (a : A)
| Raise (e : pyexc).
Arguments Ok {A} a.
Arguments Raise {A} e.

#[global] Instance result_ret : MRet result := fun A a => Ok a.
#[global] Instance result_bind : MBind result := fun A B k r =>
  match r with Ok a => k a | Raise e => Raise e end.

(** ** Numbers

    A script number and a host floating value are both a binary64 datum. *)
Definition float := spec_float.

Definition nan : float := S754_nan.
Definition inf : float := S754_infinity false.

(** [float(n)]: the binary64 nearest to the integer [n]. *)
Definition float_of_int (n : Z) : float := binary_normalize 53 1024 n 0 false.

(** [int(num)]: truncation towards zero; [ValueError] on NaN and
    [OverflowError] on an infinity. *)
Definition int_of_float (num : float) : result Z :=
  match num with
  | S754_zero _ => Ok 0
  | S754_finite s m e => Ok (cond_Zopp s (Z.shiftl (Zpos m) e))
  | S754_infinity _ =>
      Raise (new_exc OverflowError (ArgStr "cannot convert float infinity to integer"))
  | S754_nan =>
      Raise (new_exc ValueError (ArgStr "cannot convert float NaN to integer"))
  end.

(** [num == n] between a floating value and an integer: exact, no rounding
    of [n]. *)
Definition float_eq_int (num : float) (n : Z) : bool :=
  match num with
  | S754_zero _ => n =? 0
  | S754_finite s m e =>
      if 0 <=? e then cond_Zopp s (Zpos m) * 2 ^ e =? n
      else cond_Zopp s (Zpos m) =? n * 2 ^ (- e)
  | _ => false
  end.

(** ** Engine values *)

Abbreviation ref := nat.

(** A [QJSValue]: a primitive or a reference to an engine-owned object. *)
Inductive QJSValue :=
| QUndefined
| QNull
| QBool (b : bool)
| QNumber (d : float)
| QString (s : string)
| QObject (r : ref).

(** What an engine-owned object is. *)
Inductive jsclass :=
| CPlain
| CFunction (wrapper : option string)
| CArray (elems : list QJSValue)
| CDate (iso : string)
| CRegExp (pattern : string) (caseInsensitive : bool)
| CError (name message stack : string) (oldTraceback : list frame).

(** An engine-owned object: its class, its own properties in insertion
    order and its prototype. *)
Record jsobj := JsObj {
  o_class : jsclass;
  o_own : list (string * QJSValue);
  o_proto : option ref
}.

Abbreviation heap := (gmap ref jsobj).

Definition class_of (h : heap) (v : QJSValue) : option jsclass :=
  match v with
  | QObject r => o_class <$> h !! r
  | _ => None
  end.

Definition isNull (v : QJSValue) : bool :=
  match v with QNull => true | _ => false end.
Definition isUndefined (v : QJSValue) : bool :=
  match v with QUndefined => true | _ => false end.
Definition isDate (h : heap) (v : QJSValue) : bool :=
  match class_of h v with Some (CDate _) => true | _ => false end.
Definition isRegExp (h : heap) (v : QJSValue) : bool :=
  match class_of h v with Some (CRegExp _ _) => true | _ => false end.
Definition isArray (h : heap) (v : QJSValue) : bool :=
  match class_of h v with Some (CArray _) => true | _ => false end.
Definition isError (h : heap) (v : QJSValue) : bool :=
  match class_of h v with Some (CError _ _ _ _) => true | _ => false end.

(** Association lists keep the insertion order of an object's own
    properties. *)
Fixpoint assoc {A} (k : string) (l : list (string * A)) : option A :=
  match l with
  | [] => None
  | (k', a) :: l' => if bool_decide (k = k') then Some a else assoc k l'
  end.

Fixpoint assoc_set {A} (k : string) (a : A) (l : list (string * A))
  : list (string * A) :=
  match l with
  | [] => [(k, a)]
  | (k', a') :: l' =>
      if bool_decide (k = k') then (k, a) :: l' else (k', a') :: assoc_set k a l'
  end.

Fixpoint assoc_del {A} (k : string) (l : list (string * A))
  : list (string * A) :=
  match l with
  | [] => []
  | (k', a') :: l' =>
      if bool_decide (k = k') then assoc_del k l' else (k', a') :: assoc_del k l'
  end.

Definition hasOwnProperty (h : heap) (v : QJSValue) (key : string) : bool :=
  match v with
  | QObject r =>
      match h !! r with
      | Some o => bool_decide (is_Some (assoc key (o_own o)))
      | None => false
      end
  | _ => false
  end.

(** Property lookup walks the prototype chain; a chain visits each object of
    the heap at most once, so [size h] links are enough. *)
Fixpoint lookup_chain (n : nat) (h : heap) (r : ref) (key : string)
  : option QJSValue :=
  match h !! r with
  | None => None
  | Some o =>
      match assoc key (o_own o) with
      | Some v => Some v
      | None =>
          match n, o_proto o with
          | S n', Some p => lookup_chain n' h p key
          | _, _ => None
          end
      end
  end.

Definition hasProperty (h : heap) (v : QJSValue) (key : string) : bool :=
  match v with
  | QObject r => bool_decide (is_Some (lookup_chain (size h) h r key))
  | _ => false
  end.

(** [val.property(name)]: undefined when the property is absent. *)
Definition property (h : heap) (v : QJSValue) (key : string) : QJSValue :=
  match v with
  | QObject r => default QUndefined (lookup_chain (size h) h r key)
  | _ => QUndefined
  end.

Definition setProperty (h : heap) (v : QJSValue) (key : string) (x : QJSValue)
  : heap :=
  match v with
  | QObject r =>
      match h !! r with
      | Some o => <[r := JsObj (o_class o) (assoc_set key x (o_own o)) (o_proto o)]> h
      | None => h
      end
  | _ => h
  end.

Definition deleteProperty (h : heap) (v : QJSValue) (key : string) : heap :=
  match v with
  | QObject r =>
      match h !! r with
      | Some o => <[r := JsObj (o_class o) (assoc_del key (o_own o)) (o_proto o)]> h
      | None => h
      end
  | _ => h
  end.

(** The elements of a script array (none for any other value). *)
Definition elements (h : heap) (v : QJSValue) : list QJSValue :=
  match class_of h v with Some (CArray l) => l | _ => [] end.

(** [val.property(idx)] for an array index. *)
Definition property_at (h : heap) (v : QJSValue) (idx : Z) : QJSValue :=
  if idx <? 0 then QUndefined
  else default QUndefined (elements h v !! Z.to_nat idx).

Definition set_elements (h : heap) (v : QJSValue) (l : list QJSValue) : heap :=
  match v with
  | QObject r =>
      match h !! r with
      | Some o => <[r := JsObj (CArray l) (o_own o) (o_proto o)]> h
      | None => h
      end
  | _ => h
  end.

(** [Array.prototype.splice(start, deleteCount, items...)] on a dense array,
    for a start inside [0, length]. *)
Definition splice (l : list QJSValue) (start deleteCount : nat)
  (items : list QJSValue) : list QJSValue :=
  take start l ++ items ++ drop (start + deleteCount) l.

(** ** Host values *)

Inductive proxykind := ProxyArray | ProxyObject.

(** A host value.  [PyProxy] is an instance of [pyproxies.JSArray] or
    [pyproxies.JSObject] (its [val], and for an object its [instance]).
    [PyInst] is any other host object, described by what the converter asks
    of it: the rendering of [type(value)], the identity [id(value)] when it is
    callable, its items when it is a [collections.Sequence], its entries when
    it is a [collections.Mapping], its [isoformat()] when it is a
    [datetime.datetime]. *)
Inductive pyval :=
| PyNone
| PyBool (b : bool)
| PyInt (n : Z)
| PyFloat (d : float)
| PyStr (s : string)
| PyPattern (pattern : string) (ignorecase : bool)
| PyException (e : pyexc)
| PyProxy (k : proxykind) (val : QJSValue) (instance : option QJSValue)
| PyInst (ty : string) (call : option Z) (seq : option (list pyval))
    (map : option (list (string * pyval))) (date : option string).

Definition PyList (l : list pyval) : pyval :=
  PyInst "<type 'list'>" None (Some l) None None.
Definition PyTuple (l : list pyval) : pyval :=
  PyInst "<type 'tuple'>" None (Some l) None None.
Definition PyDict (kvs : list (string * pyval)) : pyval :=
  PyInst "<type 'dict'>" None None (Some kvs) None.
Definition JSObjectCopy (kvs : list (string * pyval)) : pyval :=
  PyInst "<class 'pyproxies.JSObjectCopy'>" None None (Some kvs) None.
Definition PyFunction (id : Z) : pyval :=
  PyInst "<type 'function'>" (Some id) None None None.
Definition PyDateTime (iso : string) : pyval :=
  PyInst "<type 'datetime.datetime'>" None None None (Some iso).
Definition PyObject_ : pyval :=
  PyInst "<type 'object'>" None None None None.

(** ** The evaluator *)

(** What the dispatcher leaves on the shared slot:
    [{'type': 'result', 'value': ...}] or
    [{'type': 'exception', 'value': {'message', 'name', 'oldTraceback'}}]. *)
Inductive slot_record :=
| SlotResult (value : QJSValue)
| SlotException (message : excarg) (name : string) (oldTraceback : list frame).

(** The state of a [JSEvaluator]: the engine's objects, the [cache] of the
    bootstrap script, the [args] and [result] properties of the bootstrap
    script's [_callback] object, [self.callback.funcs], the next number
    [self.counter] yields, [self.codeStore], and the module-level
    [pythonExceptionStore] as this evaluator sees it. *)
Record JSEvaluator := Evaluator {
  js_heap : heap;
  js_cache : gmap string ref;
  cb_args : option QJSValue;
  cb_result : option slot_record;
  js_funcs : gmap string pyval;
  js_counter : nat;
  js_codeStore : gmap string string;
  pythonExceptionStore : gmap string pyclass
}.

Definition with_heap (js : JSEvaluator) (h : heap) : JSEvaluator :=
  Evaluator h (js_cache js) (cb_args js) (cb_result js) (js_funcs js)
    (js_counter js) (js_codeStore js) (pythonExceptionStore js).
Definition with_cache (js : JSEvaluator) (c : gmap string ref) : JSEvaluator :=
  Evaluator (js_heap js) c (cb_args js) (cb_result js) (js_funcs js)
    (js_counter js) (js_codeStore js) (pythonExceptionStore js).
Definition with_args (js : JSEvaluator) (a : option QJSValue) : JSEvaluator :=
  Evaluator (js_heap js) (js_cache js) a (cb_result js) (js_funcs js)
    (js_counter js) (js_codeStore js) (pythonExceptionStore js).
Definition with_result (js : JSEvaluator) (r : option slot_record) : JSEvaluator :=
  Evaluator (js_heap js) (js_cache js) (cb_args js) r (js_funcs js)
    (js_counter js) (js_codeStore js) (pythonExceptionStore js).
Definition with_funcs (js : JSEvaluator) (f : gmap string pyval) : JSEvaluator :=
  Evaluator (js_heap js) (js_cache js) (cb_args js) (cb_result js) f
    (js_counter js) (js_codeStore js) (pythonExceptionStore js).
Definition with_counter (js : JSEvaluator) (n : nat) : JSEvaluator :=
  Evaluator (js_heap js) (js_cache js) (cb_args js) (cb_result js) (js_funcs js)
    n (js_codeStore js) (pythonExceptionStore js).
Definition with_codeStore (js : JSEvaluator) (c : gmap string string) : JSEvaluator :=
  Evaluator (js_heap js) (js_cache js) (cb_args js) (cb_result js) (js_funcs js)
    (js_counter js) c (pythonExceptionStore js).
Definition with_exceptionStore (js : JSEvaluator) (s : gmap string pyclass)
  : JSEvaluator :=
  Evaluator (js_heap js) (js_cache js) (cb_args js) (cb_result js) (js_funcs js)
    (js_counter js) (js_codeStore js) s.

(** The engine creates an object under a reference nothing uses yet. *)
Definition alloc (js : JSEvaluator) (o : jsobj) : QJSValue * JSEvaluator :=
  let r := fresh (dom (js_heap js)) in
  (QObject r, with_heap js (<[r := o]> (js_heap js))).

Definition INIT_SCRIPT_NAME : string := "_js_eval_init.js".

(** ** Text helpers *)

(** [s.split(c)]. *)
Fixpoint split (c : ascii) (s : string) : list string :=
  match s with
  | EmptyString => [""]
  | String a s' =>
      if Ascii.eqb a c then "" :: split c s'
      else match split c s' with
           | p :: ps => String a p :: ps
           | [] => [String a ""]
           end
  end.

Definition newline : ascii := Ascii.ascii_of_nat 10.

(** [needle in hay]. *)
Fixpoint contains (needle hay : string) : bool :=
  String.prefix needle hay ||
  match hay with
  | EmptyString => false
  | String _ hay' => contains needle hay'
  end.

(** The text before the first [c], and the text after it. *)
Fixpoint break_at (c : ascii) (s : string) : option (string * string) :=
  match s with
  | EmptyString => None
  | String a s' =>
      if Ascii.eqb a c then Some ("", s')
      else '(l, r) ← break_at c s'; Some (String a l, r)
  end.

Definition is_digit (a : ascii) : bool :=
  let n := Ascii.nat_of_ascii a in ((48 <=? n) && (n <=? 57))%nat.

Fixpoint take_digits (s : string) : string :=
  match s with
  | String a s' => if is_digit a then String a (take_digits s') else ""
  | EmptyString => ""
  end.

Fixpoint digits_value (s : string) (acc : Z) : Z :=
  match s with
  | String a s' => digits_value s' (10 * acc + (Z.of_nat (Ascii.nat_of_ascii a) - 48))
  | EmptyString => acc
  end.

(** [int(s)] for a text of decimal digits; the empty text is a
    [ValueError]. *)
Definition int_of_digits (s : string) : result Z :=
  match s with
  | EmptyString =>
      Raise (new_exc ValueError (ArgStr "invalid literal for int() with base 10: ''"))
  | _ => Ok (digits_value s 0)
  end.

(** [JS_STACK_RE.match(item)]: the pattern reads a group [func] of
    characters other than '@', an '@', a group [path] of characters other
    than ':', a ':' and a group [line] of decimal digits, each group as long
    as possible and possibly empty; the match is anchored at the start of the
    text only.  The result is [(func, path, line)], or no match. *)
Definition JS_STACK_RE_match (item : string) : option (string * string * string) :=
  '(func, rest) ← break_at "@"%char item;
  '(path, rest') ← break_at ":"%char rest;
  Some (func, path, take_digits rest').

(** [l[i]] with the host's negative indices. *)
Definition py_index {A} (l : list A) (i : Z) : result A :=
  let n := Z.of_nat (length l) in
  let j := if i <? 0 then i + n else i in
  if (0 <=? j) && (j <? n) then
    match l !! Z.to_nat j with
    | Some a => Ok a
    | None => Raise (new_exc IndexError (ArgStr "list index out of range"))
    end
  else Raise (new_exc IndexError (ArgStr "list index out of range")).

(** [itertools.takewhile]. *)
Fixpoint takewhile {A} (p : A -> bool) (l : list A) : list A :=
  match l with
  | [] => []
  | a :: l' => if p a then a :: takewhile p l' else []
  end.

(** ** Value converter, script to host *)

Definition isNumber (v : QJSValue) : bool :=
  match v with QNumber _ => true | _ => false end.
Definition isBool (v : QJSValue) : bool :=
  match v with QBool _ => true | _ => false end.
Definition isString (v : QJSValue) : bool :=
  match v with QString _ => true | _ => false end.
Definition toNumber (v : QJSValue) : float :=
  match v with QNumber d => d | _ => nan end.
(** [toVariant()] of a boolean or a string. *)
Definition toVariant (v : QJSValue) : pyval :=
  match v with QBool b => PyBool b | QString s => PyStr s | _ => PyNone end.

(** [buildNumber], given [value.toNumber()]. *)
Definition buildNumber (num : float) : result pyval :=
  match int_of_float num with
  | Raise e =>
      if isinstance e ValueError || isinstance e OverflowError
      then Ok (PyFloat num) else Raise e
  | Ok asInt => Ok (if float_eq_int num asInt then PyInt asInt else PyFloat num)
  end.

(** [buildRegExp]: only the case-insensitive flag survives. *)
Definition buildRegExp (h : heap) (value : QJSValue) : pyval :=
  match class_of h value with
  | Some (CRegExp pattern ci) => PyPattern pattern ci
  | _ => PyPattern "" false
  end.

Definition toDateTime (h : heap) (value : QJSValue) : pyval :=
  match class_of h value with
  | Some (CDate iso) => PyDateTime iso
  | _ => PyDateTime ""
  end.

(** The body of the [for item in stack] loop of [buildPyError]. *)
Definition stack_item (codeStore : gmap string string) (item : string)
  : result frame :=
  match JS_STACK_RE_match item with
  | None =>
      Raise (new_exc AttributeError
               (ArgStr "'NoneType' object has no attribute 'group'"))
  | Some (func, path, line) =>
      let func := if bool_decide (func = "%entry") then "<global scope>" else func in
      line ← int_of_digits line;
      match codeStore !! path with
      | None => Raise (new_exc KeyError (ArgStr path))
      | Some text =>
          code ← py_index (split newline text) (line - 1);
          Ok (Frame path line func code)
      end
  end.

(** The loop itself: every converted item goes to the front of
    [stackInfo]. *)
Fixpoint stack_loop (codeStore : gmap string string) (stack : list string)
  (stackInfo : list frame) : result (list frame) :=
  match stack with
  | [] => Ok stackInfo
  | item :: stack' =>
      fr ← stack_item codeStore item;
      stack_loop codeStore stack' (fr :: stackInfo)
  end.

(** The first half of [buildPyError]: from the text of the [stack] property
    to [stackInfo]. *)
Definition stackInfo_of (codeStore : gmap string string) (stack : string)
  : result (list frame) :=
  let stack := split newline stack in
  let stack :=
    match stack with
    | first :: rest => if contains INIT_SCRIPT_NAME first then rest else stack
    | [] => stack
    end in
  let stack := takewhile (fun x => negb (contains INIT_SCRIPT_NAME x)) stack in
  stack_loop codeStore stack [].

(** [buildPyError], given the [name], [message] and [stack] texts of the
    script error and the frame list it carries as [oldTraceback] (empty when
    it carries none). *)
Definition buildPyError (js : JSEvaluator)
  (name message stack : string) (oldTraceback : list frame) : result pyexc :=
  stackInfo ← stackInfo_of (js_codeStore js) stack;
  let err :=
    match pythonExceptionStore js !! name with
    | Some k => new_exc k (ArgStr message)
    | None => new_JSError name message
    end in
  Ok (PyExc (exc_class err) (exc_message err) (exc_name err)
        (Some (stackInfo ++ oldTraceback))).

(** [toPy]. *)
Definition toPy (js : JSEvaluator) (value : QJSValue)
  (instance : option QJSValue) : result pyval :=
  let h := js_heap js in
  if isNull value || isUndefined value then Ok PyNone
  else if isNumber value then buildNumber (toNumber value)
  else if isBool value || isString value then Ok (toVariant value)
  else if isDate h value then Ok (toDateTime h value)
  else if isRegExp h value then Ok (buildRegExp h value)
  else if isArray h value then Ok (PyProxy ProxyArray value None)
  else
    match class_of h value with
    | Some (CError name message stack old) =>
        e ← buildPyError js name message stack old; Ok (PyException e)
    | _ => Ok (PyProxy ProxyObject value instance)
    end.

(** [throwIfNecessary]. *)
Definition throwIfNecessary (value : pyval) : result pyval :=
  match value with
  | PyException e => Raise e
  | _ => Ok value
  end.

(** ** Proxies, reading side ([pyproxies.py]) *)

Definition RuntimeError := PyClass "RuntimeError" StandardError.

Module JSArray.
Definition NotFound := IndexError.

(** [__len__]: [val.property('length').toInt()]. *)
Definition __len__ (js : JSEvaluator) (self : QJSValue) : Z :=
  Z.of_nat (length (elements (js_heap js) self)).

Definition _get (js : JSEvaluator) (self : QJSValue) (key : Z) : result pyval :=
  toPy js (property_at (js_heap js) self key) (Some self).

Definition _normalize (js : JSEvaluator) (self : QJSValue) (idx : Z) : result Z :=
  let idx := if idx <? 0 then __len__ js self + idx else idx in
  if negb ((0 <=? idx) && (idx <? __len__ js self))
  then Raise (new_exc NotFound (ArgInt idx))
  else Ok idx.

Definition __getitem__ (js : JSEvaluator) (self : QJSValue) (idx : Z)
  : result pyval :=
  idx ← _normalize js self idx; _get js self idx.

(** [_splice([start, deleteCount, items...])]. *)
Definition _splice (js : JSEvaluator) (self : QJSValue)
  (start deleteCount : Z) (items : list QJSValue) : JSEvaluator :=
  let h := js_heap js in
  with_heap js
    (set_elements h self
       (splice (elements h self) (Z.to_nat start) (Z.to_nat deleteCount) items)).

Definition __delitem__ (js : JSEvaluator) (self : QJSValue) (idx : Z)
  : result unit * JSEvaluator :=
  match _normalize js self idx with
  | Ok idx => (Ok tt, _splice js self idx 1 [])
  | Raise e => (Raise e, js)
  end.

(** [range(len(self))]. *)
Definition indices (js : JSEvaluator) (self : QJSValue) : list Z :=
  Z.of_nat <$> seq 0 (Z.to_nat (__len__ js self)).

(** [list(self)]: [__iter__] yields [self[i]] for each index. *)
Definition __iter__ (js : JSEvaluator) (self : QJSValue) : result (list pyval) :=
  mapM (__getitem__ js self) (indices js self).

Definition __copy__ (js : JSEvaluator) (self : QJSValue) : result pyval :=
  items ← __iter__ js self; Ok (PyList items).
End JSArray.

Module JSObject.
Definition NotFound := KeyError.

Definition _get (js : JSEvaluator) (self : QJSValue) (key : string) : result pyval :=
  toPy js (property (js_heap js) self key) (Some self).

Definition __getitem__ (js : JSEvaluator) (self : QJSValue) (key : string)
  : result pyval :=
  if hasProperty (js_heap js) self key then _get js self key
  else Raise (new_exc NotFound (ArgStr key)).

Definition __delitem__ (js : JSEvaluator) (self : QJSValue) (key : string)
  : result unit * JSEvaluator :=
  if negb (hasOwnProperty (js_heap js) self key)
  then (Raise (new_exc NotFound (ArgStr key)), js)
  else (Ok tt, with_heap js (deleteProperty (js_heap js) self key)).

(** [__iter__]: a [QJSValueIterator] yields the names of the value's own
    properties. *)
Definition __iter__ (js : JSEvaluator) (self : QJSValue) : list string :=
  match self with
  | QObject r =>
      match js_heap js !! r with
      | Some o => fst <$> o_own o
      | None => []
      end
  | _ => []
  end.

(** [iteritems()]: [(key, self[key])] for each key. *)
Definition iteritems (js : JSEvaluator) (self : QJSValue)
  : result (list (string * pyval)) :=
  mapM (fun key => v ← __getitem__ js self key; Ok (key, v)) (__iter__ js self).

Definition __copy__ (js : JSEvaluator) (self : QJSValue) : result pyval :=
  items ← iteritems js self; Ok (JSObjectCopy items).
End JSObject.

(** [copy.deepcopy(x, memo)].  A proxy answers with its [__deepcopy__]: a
    list of the deep copies of [self]'s items for [JSArray], a
    [JSObjectCopy] of [(key, deepcopy(value))] for [JSObject].  [fuel] is the
    host's recursion limit; running into it is the host's [RuntimeError]. *)
Fixpoint deepcopy (fuel : nat) (js : JSEvaluator) (x : pyval) : result pyval :=
  match fuel with
  | O => Raise (new_exc RuntimeError (ArgStr "maximum recursion depth exceeded"))
  | S fuel' =>
      match x with
      | PyProxy ProxyArray self _ =>
          items ← mapM (fun i => item ← JSArray.__getitem__ js self i;
                                 deepcopy fuel' js item)
                       (JSArray.indices js self);
          Ok (PyList items)
      | PyProxy ProxyObject self _ =>
          items ← mapM (fun key => value ← JSObject.__getitem__ js self key;
                                   value' ← deepcopy fuel' js value;
                                   Ok (key, value'))
                       (JSObject.__iter__ js self);
          Ok (JSObjectCopy items)
      | PyPattern _ _ =>
          Raise (new_exc TypeError (ArgStr "cannot deepcopy this pattern object"))
      | PyInst ty call seq map date =>
          seq' ← match seq with
                 | Some l => l' ← mapM (deepcopy fuel' js) l; Ok (Some l')
                 | None => Ok None
                 end;
          map' ← match map with
                 | Some kvs =>
                     kvs' ← mapM (fun kv => v' ← deepcopy fuel' js (snd kv);
                                            Ok (fst kv, v')) kvs;
                     Ok (Some kvs')
                 | None => Ok None
                 end;
          Ok (PyInst ty call seq' map' date)
      | _ => Ok x
      end
  end.

(** ** Value converter, host to script, and the evaluator's methods *)

Inductive SpecialValue := NullValue | UndefinedValue.

(** [QtQml.QJSValue(value)]: defined on the special values, booleans,
    numbers and strings; [None] stands for the [TypeError] any other argument
    gets.  An integer becomes the script number nearest to it. *)
Definition QJSValue_new (value : SpecialValue + pyval) : option QJSValue :=
  match value with
  | inl NullValue => Some QNull
  | inl UndefinedValue => Some QUndefined
  | inr (PyBool b) => Some (QBool b)
  | inr (PyInt n) => Some (QNumber (float_of_int n))
  | inr (PyFloat d) => Some (QNumber d)
  | inr (PyStr s) => Some (QString s)
  | inr _ => None
  end.

Definition is_JSValue (value : pyval) : bool :=
  match value with PyProxy _ _ _ => true | _ => false end.
Definition is_None (value : pyval) : bool :=
  match value with PyNone => true | _ => false end.
(** [callable(value)]. *)
Definition callable (value : pyval) : bool :=
  match value with
  | PyInst _ (Some _) _ _ _ => true
  | PyProxy ProxyObject _ _ => true
  | _ => false
  end.
(** [isinstance(value, collections.Sequence)]. *)
Definition is_Sequence (value : pyval) : bool :=
  match value with
  | PyInst _ _ (Some _) _ _ => true
  | PyProxy ProxyArray _ _ => true
  | PyStr _ => true
  | _ => false
  end.
(** [isinstance(value, collections.Mapping)]. *)
Definition is_Mapping (value : pyval) : bool :=
  match value with
  | PyInst _ _ _ (Some _) _ => true
  | PyProxy ProxyObject _ _ => true
  | _ => false
  end.
(** [isinstance(value, datetime.datetime)]. *)
Definition is_datetime (value : pyval) : bool :=
  match value with
  | PyInst _ _ _ _ (Some _) => true
  | _ => false
  end.

(** [id(value)]. *)
Definition py_id (value : pyval) : Z :=
  match value with PyInst _ (Some id) _ _ _ => id | _ => 0 end.

(** The rendering of [type(value)]. *)
Definition type_of (value : pyval) : string :=
  match value with
  | PyNone => "<type 'NoneType'>"
  | PyBool _ => "<type 'bool'>"
  | PyInt _ => "<type 'int'>"
  | PyFloat _ => "<type 'float'>"
  | PyStr _ => "<type 'str'>"
  | PyPattern _ _ => "<type '_sre.SRE_Pattern'>"
  | PyException e => "<type 'exceptions." +:+ class_name (exc_class e) +:+ "'>"
  | PyProxy ProxyArray _ _ => "<class 'pyproxies.JSArray'>"
  | PyProxy ProxyObject _ _ => "<class 'pyproxies.JSObject'>"
  | PyInst ty _ _ _ _ => ty
  end.

(** [value.val]. *)
Definition val_of (value : pyval) : result QJSValue :=
  match value with
  | PyProxy _ val _ => Ok val
  | _ => Raise (new_exc AttributeError (ArgStr "object has no attribute 'val'"))
  end.

Definition dquote : string := String (Ascii.ascii_of_nat 34) EmptyString.

(** [engine.newArray()] and [engine.newObject()]. *)
Definition newArray (js : JSEvaluator) : QJSValue * JSEvaluator :=
  alloc js (JsObj (CArray []) [] None).
Definition newObject (js : JSEvaluator) : QJSValue * JSEvaluator :=
  alloc js (JsObj CPlain [] None).

(** The bootstrap script's [newWrapper(id)] and [buildJSWrapper(id)]: the
    factory makes a function for an id it has not seen and hands out the
    cached one otherwise.  The ids the host passes are decimal numerals, so
    none of them names a property the [cache] object inherits. *)
Definition newWrapper (id : string) : jsobj := JsObj (CFunction (Some id)) [] None.

Definition buildJSWrapper (id : string) (js : JSEvaluator) : QJSValue * JSEvaluator :=
  match js_cache js !! id with
  | Some r => (QObject r, js)
  | None =>
      let r := fresh (dom (js_heap js)) in
      let js := with_heap js (<[r := newWrapper id]> (js_heap js)) in
      (QObject r, with_cache js (<[id := r]> (js_cache js)))
  end.

(** The engine's identity comparison, [strictlyEquals], between two
    references. *)
Definition strictlyEquals_ref (a b : QJSValue) : bool :=
  match a, b with
  | QObject r1, QObject r2 => bool_decide (r1 = r2)
  | _, _ => false
  end.

Section Bridge.
(** [engine.evaluate(program, fileName, lineNumber)]: what running a
    program does to the evaluator, and the value (an error value when the
    program threw) it ends with. *)
Variable evaluate : string -> string -> Z -> JSEvaluator -> QJSValue * JSEvaluator.

(** ['<JS string %s>' % next(self.counter)]. *)
Definition synthetic_label (n : nat) : string :=
  "<JS string " +:+ pretty n +:+ ">".

(** The part of [eval] that runs before the engine: choose the label and
    record the source text under it. *)
Definition eval_prepare (code : string) (path : option string)
  (js : JSEvaluator) : string * JSEvaluator :=
  let '(path, js) :=
    match path with
    | Some p =>
        if bool_decide (p = "")
        then (synthetic_label (js_counter js), with_counter js (S (js_counter js)))
        else (p, js)
    | None => (synthetic_label (js_counter js), with_counter js (S (js_counter js)))
    end in
  (path, with_codeStore js (<[path := code]> (js_codeStore js))).

(** [eval(code, path=None, line=1)]. *)
Definition eval (code : string) (path : option string) (line : Z)
  (js : JSEvaluator) : result pyval * JSEvaluator :=
  let '(path, js) := eval_prepare code path js in
  let '(result, js) := evaluate code path line js in
  (v ← toPy js result None; throwIfNecessary v, js).

Definition wrapper_program (identifier : string) : string :=
  "_callback.buildJSWrapper('" +:+ identifier +:+ "')".

(** [wrapFunction]. *)
Definition wrapFunction (func : pyval) (js : JSEvaluator)
  : result QJSValue * JSEvaluator :=
  let identifier := pretty (py_id func) in
  let js := with_funcs js (<[identifier := func]> (js_funcs js)) in
  let '(r, js) := eval (wrapper_program identifier) None 1 js in
  (v ← r; val_of v, js).

Section Writers.
Variable toJS : pyval -> JSEvaluator -> result QJSValue * JSEvaluator.

(** [JSArray.insert(idx, value)]. *)
Definition insert (js : JSEvaluator) (self : QJSValue) (idx : Z) (value : pyval)
  : result unit * JSEvaluator :=
  match toJS value js with
  | (Ok q, js) => (Ok tt, JSArray._splice js self idx 0 [q])
  | (Raise e, js) => (Raise e, js)
  end.

(** [extend(values)]: [append(v)], that is [insert(len(self), v)], for
    each value. *)
Fixpoint extend (js : JSEvaluator) (self : QJSValue) (values : list pyval)
  : result unit * JSEvaluator :=
  match values with
  | [] => (Ok tt, js)
  | v :: values' =>
      match insert js self (JSArray.__len__ js self) v with
      | (Ok _, js) => extend js self values'
      | (Raise e, js) => (Raise e, js)
      end
  end.

(** [JSValue.__setitem__(key, value)]. *)
Definition __setitem__ (js : JSEvaluator) (self : QJSValue) (key : string)
  (value : pyval) : result unit * JSEvaluator :=
  match toJS value js with
  | (Ok q, js) => (Ok tt, with_heap js (setProperty (js_heap js) self key q))
  | (Raise e, js) => (Raise e, js)
  end.

(** [update(mapping)]: [self[key] = mapping[key]] for each key. *)
Fixpoint update (js : JSEvaluator) (self : QJSValue)
  (entries : list (string * pyval)) : result unit * JSEvaluator :=
  match entries with
  | [] => (Ok tt, js)
  | (key, v) :: entries' =>
      match __setitem__ js self key v with
      | (Ok _, js) => update js self entries'
      | (Raise e, js) => (Raise e, js)
      end
  end.
End Writers.

(** [toJS]. *)
Fixpoint toJS (value : pyval) (js : JSEvaluator) {struct value}
  : result QJSValue * JSEvaluator :=
  if is_JSValue value then
    (match value with PyProxy _ val _ => Ok val | _ => Ok QUndefined end, js)
  else
    match QJSValue_new (if is_None value then inl NullValue else inr value) with
    | Some q => (Ok q, js)
    | None =>
        if callable value then wrapFunction value js
        else if is_Sequence value then
          let '(val, js) := newArray js in
          match
            match value with
            | PyInst _ _ (Some items) _ _ => extend toJS js val items
            | _ => (Ok tt, js)
            end
          with
          | (Ok _, js) => (Ok val, js)
          | (Raise e, js) => (Raise e, js)
          end
        else if is_Mapping value then
          let '(val, js) := newObject js in
          match
            match value with
            | PyInst _ _ _ (Some entries) _ => update toJS js val entries
            | _ => (Ok tt, js)
            end
          with
          | (Ok _, js) => (Ok val, js)
          | (Raise e, js) => (Raise e, js)
          end
        else if is_datetime value then
          let iso := match value with
                     | PyInst _ _ _ _ (Some iso) => iso
                     | _ => ""
                     end in
          let '(r, js) :=
            evaluate ("new Date(" +:+ dquote +:+ iso +:+ dquote +:+ ")") "" 1 js in
          (Ok r, js)
        else
          (Raise (new_exc ValueError
                    (ArgStr ("Cannot convert object of type '" +:+ type_of value
                             +:+ "' to a JS value"))), js)
    end.
End Bridge.

(** ** Callback dispatcher and the script-side wrapper *)

(** How a call of a host callable ends: with a value, or with an exception
    and the traceback entries from the callable's own frame down to the
    place of the [raise] (none when the call failed before the callable's
    body ran). *)
Inductive outcome :=
| Returned (v : pyval)
| Raised (e : pyexc) (tb : list frame).

(** How a script function call ends. *)
Inductive completion :=
| Return (v : QJSValue)
| Throw (err : QJSValue).

(** [x.iteritems()]: proxies of script objects and host mappings have it. *)
Definition iteritems (js : JSEvaluator) (x : pyval) : result (list (string * pyval)) :=
  match x with
  | PyProxy ProxyObject self _ => JSObject.iteritems js self
  | PyInst _ _ _ (Some entries) _ => Ok entries
  | _ => Raise (new_exc AttributeError (ArgStr "object has no attribute 'iteritems'"))
  end.

(** The script engine's rendering of a message as text. *)
Definition message_text (m : excarg) : string :=
  match m with ArgStr s => s | ArgInt n => pretty n end.

Section Dispatcher.
Variable evaluate : string -> string -> Z -> JSEvaluator -> QJSValue * JSEvaluator.
(** The directory of the [jseval] package. *)
Variable jseval_dir : string.
(** What calling a host callable with positional and keyword arguments
    does. *)
Variable py_call :
  pyval -> list pyval -> list (string * pyval) -> JSEvaluator -> outcome * JSEvaluator.

Definition JSEVAL_MASKED_FILES : list string :=
  [jseval_dir +:+ "/__init__.py"; jseval_dir +:+ "/pyproxies.py"].

(** [filteredTb], on the entries [traceback.extract_tb] gives. *)
Definition filteredTb (newTb : list frame) : list frame :=
  filter (fun item => f_path item ∉ JSEVAL_MASKED_FILES) newTb.

(** The traceback entry of [callback] itself, where it calls
    [func( *args)]. *)
Definition callback_entry : frame :=
  Frame (jseval_dir +:+ "/__init__.py") 109 "callback" ("result = func(" +:+ "*args)").

(** [self.callbackData.result = {'type': 'result', 'value': result}]; the
    exception, if converting [result] raises one. *)
Definition write_result (result : pyval) (js : JSEvaluator)
  : option pyexc * JSEvaluator :=
  match toJS evaluate result js with
  | (Ok q, js) => (None, with_result js (Some (SlotResult q)))
  | (Raise e, js) => (Some e, js)
  end.

(** [func( *args[:-1], **dict(args[-1].iteritems()))]. *)
Definition call_with_kwargs (func : pyval) (args : list pyval) (js : JSEvaluator)
  : outcome * JSEvaluator :=
  match last args with
  | None => (Raised (new_exc IndexError (ArgStr "list index out of range")) [], js)
  | Some a =>
      match iteritems js a with
      | Raise e => (Raised e [], js)
      | Ok kwargs => py_call func (removelast args) kwargs js
      end
  end.

(** [Callback.callback(identifier)]: the exception that leaves the method,
    if one does, and the state it leaves. *)
Definition callback (identifier : string) (js : JSEvaluator)
  : option pyexc * JSEvaluator :=
  match js_funcs js !! identifier with
  | None => (Some (new_exc KeyError (ArgStr identifier)), js)
  | Some func =>
      match cb_args js with
      | None => (Some (new_exc KeyError (ArgStr "args")), js)
      | Some arr =>
          let js := with_args js None in
          match JSArray.__iter__ js arr with
          | Raise e => (Some e, js)
          | Ok args =>
              match call_with_kwargs func args js with
              | (Returned result, js) => write_result result js
              | (Raised e _, js) =>
                  if isinstance e AttributeError || isinstance e TypeError
                     || isinstance e IndexError
                  then
                    match py_call func args [] js with
                    | (Returned result, js) => write_result result js
                    | (Raised e tb, js) =>
                        let js :=
                          if negb (isinstance e JSError)
                          then with_exceptionStore js
                                 (<[class_name (exc_class e) := exc_class e]>
                                    (pythonExceptionStore js))
                          else js in
                        let newTb := filteredTb (callback_entry :: tb) in
                        let oldTb := default [] (exc_oldTraceback e) in
                        (None,
                         with_result js
                           (Some (SlotException (exc_message e)
                                    (default (class_name (exc_class e)) (exc_name e))
                                    (newTb ++ oldTb))))
                    end
                  else (Some e, js)
              end
          end
      end
  end.

(** The function [newWrapper(id)] returns, called with [arguments];
    [stack] is the text the engine puts in the [stack] property of an error
    created at this point of the run. *)
Definition wrapper (id : string) (arguments : list QJSValue) (stack : string)
  (js : JSEvaluator) : completion * JSEvaluator :=
  let '(args, js) := alloc js (JsObj (CArray arguments) [] None) in
  let js := with_args js (Some args) in
  let '(_, js) := callback id js in
  let result := cb_result js in
  let js := with_result js None in
  match result with
  | Some (SlotResult value) => (Return value, js)
  | Some (SlotException message name oldTraceback) =>
      let '(err, js) :=
        alloc js (JsObj (CError name (message_text message) stack oldTraceback)
                    [] None) in
      (Throw err, js)
  | None =>
      let '(err, js) :=
        alloc js (JsObj (CError "TypeError"
                           "Cannot read property 'type' of undefined" stack [])
                    [] None) in
      (Throw err, js)
  end.
End Dispatcher.

(* ================================================================== *)
(** * Part II: vocabulary of the properties, and example states *)
(* ================================================================== *)

(** ** Array proxies: index normalization *)

(** An evaluator whose engine holds the array [1, 2, 3, 4] under
    reference 0. *)
Definition js_1234 : JSEvaluator :=
  Evaluator
    {[ 0%nat := JsObj (CArray [QNumber (float_of_int 1); QNumber (float_of_int 2);
                               QNumber (float_of_int 3); QNumber (float_of_int 4)])
                  [] None ]}
    ∅ None None ∅ 1 ∅ ∅.

(** ** Object proxies: reading follows the prototype chain, deleting does
    not *)

(** An evaluator whose engine holds an object (reference 1) with the own
    property [a] and, through its prototype (reference 0), the property
    [b]. *)
Definition js_inherit : JSEvaluator :=
  Evaluator
    {[ 0%nat := JsObj CPlain [("b", QString "base")] None;
       1%nat := JsObj CPlain [("a", QBool true)] (Some 0%nat) ]}
    ∅ None None ∅ 1 ∅ ∅.

(** ** Wrapping a host callable *)

(** The engine runs the program [wrapFunction] evaluates for [id] as the
    bootstrap script defines it (user code has not shadowed [_callback]). *)
Definition runs_bootstrap
  (evaluate : string -> string -> Z -> JSEvaluator -> QJSValue * JSEvaluator)
  (id : string) : Prop :=
  forall path line js, evaluate (wrapper_program id) path line js = buildJSWrapper id js.

(** Every entry of the bootstrap script's cache is a function of the
    engine. *)
Definition cache_functions (js : JSEvaluator) : Prop :=
  forall id r, js_cache js !! id = Some r ->
    exists o, js_heap js !! r = Some o /\ o_class o = CFunction (Some id).

(** An engine that knows the program of callable 42 only. *)
Definition evaluate_42 (code path : string) (line : Z) (js : JSEvaluator)
  : QJSValue * JSEvaluator :=
  if bool_decide (code = wrapper_program "42") then buildJSWrapper "42" js
  else (QUndefined, js).

(** A freshly constructed evaluator: nothing cached or registered, the
    counter at 1, no source recorded. *)
Definition JSEvaluator_init (store : gmap string pyclass) : JSEvaluator :=
  Evaluator ∅ ∅ None None ∅ 1 ∅ store.

(** ** Labels and the source store *)

(** The unlabelled [eval] calls of a process: each call names, by its
    position in [p], the evaluator it runs on and gives the program; the
    result lists, call by call, the evaluator and the label [eval] chose. *)
Fixpoint process_labels
  (evaluate : string -> string -> Z -> JSEvaluator -> QJSValue * JSEvaluator)
  (calls : list (nat * string)) (p : list JSEvaluator) : list (nat * string) :=
  match calls with
  | [] => []
  | (i, code) :: calls' =>
      match p !! i with
      | Some js =>
          (i, fst (eval_prepare code None js))
          :: process_labels evaluate calls'
               (<[i := snd (eval evaluate code None 1 js)]> p)
      | None => process_labels evaluate calls' p
      end
  end.

(** Whatever a program does, it only ever draws further numbers from the
    counter. *)
Definition counter_monotone
  (evaluate : string -> string -> Z -> JSEvaluator -> QJSValue * JSEvaluator) : Prop :=
  forall code path line js,
    (js_counter js <= js_counter (snd (evaluate code path line js)))%nat.

(** ** The order of the host-to-script conversions *)

(** Neither a proxy, nor null, nor a value [QJSValue] can be built from. *)
Definition not_primitive (v : pyval) : Prop :=
  is_JSValue v = false /\ is_None v = false /\ QJSValue_new (inr v) = None.

(** The values [toJS] converts without touching the evaluator, and what they
    become. *)
Definition plain (x : pyval) : option QJSValue :=
  match x with
  | PyProxy _ val _ => Some val
  | PyNone => Some QNull
  | _ => QJSValue_new (inr x)
  end.

Definition plain_entry (kv : string * pyval) : option (string * QJSValue) :=
  q ← plain (snd kv); Some (fst kv, q).

(** ** Round trip of the primitives *)

(** Encode, then decode what the engine got. *)
Definition roundtrip
  (evaluate : string -> string -> Z -> JSEvaluator -> QJSValue * JSEvaluator)
  (js : JSEvaluator) (v : pyval) : result pyval :=
  match toJS evaluate v js with
  | (Ok q, js') => toPy js' q None
  | (Raise e, _) => Raise e
  end.

(** The floating value [d] is exactly the integer [n]: with [d] the number
    m * 2^e (signed), m * 2^e = n, written without fractions. *)
Definition float_is_int (d : float) (n : Z) : Prop :=
  match d with
  | S754_zero _ => n = 0
  | S754_finite s m e =>
      cond_Zopp s (Zpos m) * 2 ^ Z.max e 0 = n * 2 ^ Z.max (- e) 0
  | _ => False
  end.

(** The host's [==] on null, booleans, numbers and strings: numbers compare
    by value across integer and floating types, and NaN equals nothing. *)
Definition py_eq (a b : pyval) : bool :=
  match a, b with
  | PyNone, PyNone => true
  | PyStr s, PyStr t => bool_decide (s = t)
  | PyBool x, PyBool y => bool_decide (x = y)
  | PyBool x, PyInt n | PyInt n, PyBool x => (if x then 1 else 0) =? n
  | PyBool x, PyFloat d | PyFloat d, PyBool x => float_eq_int d (if x then 1 else 0)
  | PyInt n, PyInt m => n =? m
  | PyInt n, PyFloat d | PyFloat d, PyInt n => float_eq_int d n
  | PyFloat d, PyFloat d' => SFeqb d d'
  | _, _ => false
  end.

(** 3.0 and 3.5 as binary64 data. *)
Definition float_3_0 : float := S754_finite false 6755399441055744 (-51).
Definition float_3_5 : float := S754_finite false 7881299347898368 (-51).

Ltac z_ops :=
  change IntDef.Z.max with Z.max in *;
  change IntDef.Z.sub with Z.sub in *;
  change IntDef.Z.add with Z.add in *;
  change IntDef.Z.leb with Z.leb in *.

(** ** Snapshots *)

(** Engine side of [val.setProperty(idx, value)] for an array index: the
    element is replaced, or the array grows (with holes) to hold it; a
    negative index names an ordinary property. *)
Definition setProperty_at (h : gmap nat jsobj) (v : QJSValue) (idx : Z) (x : QJSValue)
  : gmap nat jsobj :=
  if idx <? 0 then setProperty h v (pretty idx) x
  else
    let l := elements h v in
    let i := Z.to_nat idx in
    if (i <? length l)%nat then set_elements h v (<[i := x]> l)
    else set_elements h v (l ++ replicate (i - length l) QUndefined ++ [x]).

(** A subscript: an index or a name. *)
Inductive pykey :=
| KIndex (i : Z)
| KName (s : string).

Definition key_error (k : pykey) : pyexc :=
  match k with
  | KIndex i => new_exc TypeError (ArgInt i)
  | KName s => new_exc KeyError (ArgStr s)
  end.

(** [v[k]] on a proxy or on a host list or dictionary. *)
Definition py_getitem (js : JSEvaluator) (v : pyval) (k : pykey) : result pyval :=
  match v, k with
  | PyProxy ProxyArray self _, KIndex i => JSArray.__getitem__ js self i
  | PyProxy ProxyObject self _, KName s => JSObject.__getitem__ js self s
  | PyInst _ _ (Some l) _ _, KIndex i => py_index l i
  | PyInst _ _ _ (Some entries) _, KName s =>
      match assoc s entries with
      | Some x => Ok x
      | None => Raise (key_error k)
      end
  | _, _ => Raise (key_error k)
  end.

(** [v[k] = x]: the container as it is afterwards, and the evaluator.  On a
    proxy the write goes to the engine ([JSValue.__setitem__]); on a host
    list or dictionary it changes the host object only. *)
Definition py_setitem
  (evaluate : string -> string -> Z -> JSEvaluator -> QJSValue * JSEvaluator)
  (js : JSEvaluator) (v : pyval) (k : pykey) (x : pyval)
  : result pyval * JSEvaluator :=
  match v, k with
  | PyProxy ProxyArray self _, KIndex i =>
      match toJS evaluate x js with
      | (Ok q, js) => (Ok v, with_heap js (setProperty_at (js_heap js) self i q))
      | (Raise e, js) => (Raise e, js)
      end
  | PyProxy ProxyObject self _, KName s =>
      match __setitem__ (toJS evaluate) js self s x with
      | (Ok _, js) => (Ok v, js)
      | (Raise e, js) => (Raise e, js)
      end
  | PyInst ty call (Some l) map date, KIndex i =>
      match py_index l i with
      | Ok _ =>
          let j := Z.to_nat (if i <? 0 then i + Z.of_nat (length l) else i) in
          (Ok (PyInst ty call (Some (<[j := x]> l)) map date), js)
      | Raise e => (Raise e, js)
      end
  | PyInst ty call seq (Some entries) date, KName s =>
      (Ok (PyInst ty call seq (Some (assoc_set s x entries)) date), js)
  | _, _ => (Raise (key_error k), js)
  end.

(** The container [v] once its item [k] has become [child]: a host container
    holds the new item, a proxy is the same view as before. *)
Definition replace_child (v : pyval) (k : pykey) (child : pyval) : pyval :=
  match v, k with
  | PyInst ty call (Some l) map date, KIndex i =>
      let j := Z.to_nat (if i <? 0 then i + Z.of_nat (length l) else i) in
      PyInst ty call (Some (<[j := child]> l)) map date
  | PyInst ty call seq (Some entries) date, KName s =>
      PyInst ty call seq (Some (assoc_set s child entries)) date
  | _, _ => v
  end.

(** [v[k1]...[kn][last] = x]. *)
Fixpoint py_assign
  (evaluate : string -> string -> Z -> JSEvaluator -> QJSValue * JSEvaluator)
  (js : JSEvaluator) (v : pyval) (path : list pykey) (last : pykey) (x : pyval)
  : result pyval * JSEvaluator :=
  match path with
  | [] => py_setitem evaluate js v last x
  | k :: path' =>
      match py_getitem js v k with
      | Raise e => (Raise e, js)
      | Ok child =>
          match py_assign evaluate js child path' last x with
          | (Ok child', js') => (Ok (replace_child v k child'), js')
          | (Raise e, js') => (Raise e, js')
          end
      end
  end.

(** [v[k1]...[kn]]. *)
Fixpoint py_read (js : JSEvaluator) (v : pyval) (path : list pykey) : result pyval :=
  match path with
  | [] => Ok v
  | k :: path' => child ← py_getitem js v k; py_read js child path'
  end.

(** A host value in which no proxy occurs. *)
Fixpoint host_owned (v : pyval) : bool :=
  match v with
  | PyProxy _ _ _ => false
  | PyInst _ _ seq map _ =>
      match seq with
      | Some l => forallb host_owned l
      | None => true
      end &&
      match map with
      | Some entries => forallb (fun kv => host_owned (snd kv)) entries
      | None => true
      end
  | _ => true
  end.

(** The script values an engine object refers to: the elements of an array
    and the values of the own properties. *)
Definition children (o : jsobj) : list QJSValue :=
  match o_class o with CArray l => l | _ => [] end ++ (snd <$> o_own o).

(** No object of the heap reaches itself: every reference an object holds
    has a smaller rank. *)
Definition heap_acyclic (h : gmap nat jsobj) (rank : nat -> nat) : Prop :=
  forall r o r', h !! r = Some o -> QObject r' ∈ children o -> (rank r' < rank r)%nat.

(** The heap holds no regular expression and no error object. *)
Definition heap_copyable (h : gmap nat jsobj) : Prop :=
  forall r o, h !! r = Some o ->
    match o_class o with
    | CRegExp _ _ | CError _ _ _ _ => False
    | _ => True
    end.

(** What [toPy] gives on a heap without regular expressions and error
    objects: null, a boolean, a number, a string, a date, or a proxy. *)
Definition decoded (v : pyval) : Prop :=
  match v with
  | PyPattern _ _ | PyException _ => False
  | PyInst _ _ (Some _) _ _ | PyInst _ _ _ (Some _) _ => False
  | _ => True
  end.

(** How many levels of recursion copying [v] needs beyond the first, given
    the ranks of the heap's objects. *)
Definition depth_of (rank : nat -> nat) (v : pyval) : nat :=
  match v with
  | PyProxy _ (QObject r) _ => S (rank r)
  | _ => 0%nat
  end.

(** An evaluator whose engine holds the array [[{key: 1}]]: the array under
    reference 0, the object under reference 1. *)
Definition js_nested : JSEvaluator :=
  Evaluator
    {[ 0%nat := JsObj (CArray [QObject 1%nat]) [] None;
       1%nat := JsObj CPlain [("key", QNumber (float_of_int 1))] None ]}
    ∅ None None ∅ 1 ∅ ∅.

(** ** The dispatcher's two binding strategies *)

(** The kinds of failure after which the dispatcher tries the second
    strategy. *)
Definition binding_style (e : pyexc) : bool :=
  isinstance e AttributeError || isinstance e TypeError || isinstance e IndexError.

(** The record the dispatcher writes for an exception [e] raised with the
    traceback entries [tb] below [callback]. *)
Definition exception_record (jseval_dir : string) (e : pyexc) (tb : list frame)
  : slot_record :=
  SlotException (exc_message e)
    (default (class_name (exc_class e)) (exc_name e))
    (filteredTb jseval_dir (callback_entry jseval_dir :: tb)
     ++ default [] (exc_oldTraceback e)).

(** A host callable that pops its first positional argument: called without
    positional arguments its body raises [IndexError]. *)
Definition py_call_pops (func : pyval) (args : list pyval)
  (kwargs : list (string * pyval)) (js : JSEvaluator) : outcome * JSEvaluator :=
  match args with
  | [] =>
      (Raised (new_exc IndexError (ArgStr "pop from empty list"))
         [Frame "handlers.py" 3 "first" "return list(items).pop()"], js)
  | _ :: _ => (Returned (PyInt 7), js)
  end.

(** An evaluator in the middle of a script call [first({})]: the callable
    is registered under "1", the empty object is reference 0, and the
    wrapper has put the argument array (reference 1) on the slot. *)
Definition js_call_with_object : JSEvaluator :=
  Evaluator
    {[ 0%nat := JsObj CPlain [] None;
       1%nat := JsObj (CArray [QObject 0%nat]) [] None ]}
    ∅ (Some (QObject 1%nat)) None {[ "1" := PyFunction 1 ]} 1 ∅ ∅.

(** ** Exceptions of host callables, seen from the script and back *)

(** The state in which the dispatcher calls the callable when the script
    passed no arguments: the (empty) argument array allocated and popped. *)
Definition dispatch_state (js : JSEvaluator) : JSEvaluator :=
  with_args
    (with_heap js (<[fresh (dom (js_heap js)) := JsObj (CArray []) [] None]> (js_heap js)))
    None.

(** The state the wrapper leaves when the callable raised [e] with
    traceback [tb] and left the evaluator as [js]: the kind recorded, the
    error object created under a fresh reference. *)
Definition thrown_state (jseval_dir stack : string) (e : pyexc) (tb : list frame)
  (js : JSEvaluator) : JSEvaluator :=
  let js' :=
    if negb (isinstance e JSError)
    then with_exceptionStore js
           (<[class_name (exc_class e) := exc_class e]> (pythonExceptionStore js))
    else js in
  with_heap (with_result js' None)
    (<[fresh (dom (js_heap js)) :=
         JsObj (CError (default (class_name (exc_class e)) (exc_name e))
                  (message_text (exc_message e)) stack
                  (filteredTb jseval_dir (callback_entry jseval_dir :: tb)
                   ++ default [] (exc_oldTraceback e)))
           [] None]> (js_heap js)).

(** A host-defined kind, and a callable that raises it whatever it is called
    with. *)
Definition DomainError := PyClass "DomainError" Exception.

Definition py_call_domain_error (func : pyval) (args : list pyval)
  (kwargs : list (string * pyval)) (js : JSEvaluator) : outcome * JSEvaluator :=
  (Raised (new_exc DomainError (ArgStr "x"))
     [Frame "rules.py" 12 "check" "raise DomainError('x')"], js).

(** An evaluator about to run the one-line program [check({})]: the
    callable registered under "1", the empty object under reference 0, the
    program text recorded, the built-in kinds known. *)
Definition js_checked : JSEvaluator :=
  Evaluator {[ 0%nat := JsObj CPlain [] None ]} ∅ None None
    {[ "1" := PyFunction 1 ]} 2
    {[ "<JS string 1>" := "check({})" ]}
    (list_to_map builtin_exceptions).

(** The stack of an error created in the wrapper that the program's only
    statement called. *)
Definition stack_in_wrapper : string :=
  "@_js_eval_init.js:24" +:+ String newline "%entry@<JS string 1>:1".

(** ** The script frames of an error, as the engine renders them *)

(** A script frame as the engine reports it: function, path and line. *)
Record sframe := SFrame {
  sf_func : string;
  sf_path : string;
  sf_line : N
}.

(** The line of the [stack] text for a frame: [func@path:line]. *)
Definition render (f : sframe) : string :=
  sf_func f +:+ "@" +:+ sf_path f +:+ ":" +:+ pretty (sf_line f).

(** The lines of a [stack] text, joined. *)
Fixpoint join (lines : list string) : string :=
  match lines with
  | [] => ""
  | [l] => l
  | l :: lines' => l +:+ String newline (join lines')
  end.

Fixpoint has_char (c : ascii) (s : string) : bool :=
  match s with
  | EmptyString => false
  | String a s' => Ascii.eqb a c || has_char c s'
  end.

(** The traceback entry for a script frame: the marker of the global scope
    relabelled, the text of the line taken from the source store. *)
Definition user_frame (codeStore : gmap string string) (f : sframe) : frame :=
  Frame (sf_path f) (Z.of_N (sf_line f))
    (if bool_decide (sf_func f = "%entry") then "<global scope>" else sf_func f)
    (default ""
       (text ← codeStore !! sf_path f;
        split newline text !! (N.to_nat (sf_line f) - 1)%nat)).

(** A frame of user code whose source is on record: no '@' in the function
    name, no ':' in the path, nothing that names the bootstrap script, no
    line break, and a line number inside the recorded text. *)
Definition sframe_ok (codeStore : gmap string string) (f : sframe) : bool :=
  negb (has_char "@" (sf_func f)) && negb (has_char ":" (sf_path f))
  && negb (contains INIT_SCRIPT_NAME (render f))
  && negb (has_char newline (render f))
  && match codeStore !! sf_path f with
     | Some text =>
         (0 <? sf_line f)%N
         && (N.to_nat (sf_line f) <=? length (split newline text))%nat
     | None => false
     end.

(** The line of the [stack] text for the wrapper function of the bootstrap
    script. *)
Definition wrapper_line : string := "@_js_eval_init.js:24".

(** What lies below a script segment on the engine's stack: nothing, or the
    wrapper through which the segment's host caller was called and the
    frames below it. *)
Definition outer_ok (outer : list string) : Prop :=
  Forall (fun l => has_char newline l = false) outer /\
  match outer with
  | [] => True
  | w :: _ => contains INIT_SCRIPT_NAME w = true
  end.

(** ** Call chains that alternate between host and script *)

(** A failing run, seen from the engine's stack: a script segment (its
    frames, innermost first) either throws or calls a wrapped host callable;
    a host callable (its traceback entries, from its own frame down) either
    raises or calls a script function through a proxy. *)
Inductive host_chain :=
| HRaise (tb : list frame) (e : pyexc)
| HCall (tb : list frame) (callee : script_chain)
with script_chain :=
| SThrow (frames : list sframe) (name message : string)
| SCall (frames : list sframe) (id : string) (callee : host_chain).

Scheme host_chain_mut := Induction for host_chain Sort Prop
  with script_chain_mut := Induction for script_chain Sort Prop.
Combined Scheme chain_mutind from host_chain_mut, script_chain_mut.

(** The traceback entries of the bridge between a host callable and the
    script function it calls: [JSObject.__call__], [_handleCall] and
    [throwIfNecessary]. *)
Definition proxy_call_entries (jseval_dir : string) : list frame :=
  [Frame (jseval_dir +:+ "/pyproxies.py") 167 "__call__"
     "return self._handleCall(callFunc, args, kwargs)";
   Frame (jseval_dir +:+ "/pyproxies.py") 159 "_handleCall"
     "return self.js.throwIfNecessary(self.js.toPy(callFunc(moddedArgs)))";
   Frame (jseval_dir +:+ "/__init__.py") 220 "throwIfNecessary" "raise value"].

Section Chain.
Variable evaluate : string -> string -> Z -> JSEvaluator -> QJSValue * JSEvaluator.
Variable jseval_dir : string.

(** What the engine hands back when a script segment fails, [outer] being
    the lines of the stack below the segment; and how a host callable called
    from a script ends.  Script code calls wrapped callables without
    arguments and catches nothing. *)
Fixpoint script_unwind (outer : list string) (sc : script_chain) (js : JSEvaluator)
  {struct sc} : QJSValue * JSEvaluator :=
  match sc with
  | SThrow frames name message =>
      alloc js (JsObj (CError name message (join ((render <$> frames) ++ outer)) [])
                  [] None)
  | SCall frames id callee =>
      let lines := wrapper_line :: (render <$> frames) ++ outer in
      match wrapper evaluate jseval_dir
              (fun _ _ _ js' => host_unwind lines callee js') id [] (join lines) js
      with
      | (Throw err, js') => (err, js')
      | (Return v, js') => (v, js')
      end
  end
with host_unwind (outer : list string) (hc : host_chain) (js : JSEvaluator)
  {struct hc} : outcome * JSEvaluator :=
  match hc with
  | HRaise tb e => (Raised e tb, js)
  | HCall tb callee =>
      let '(v, js') := script_unwind outer callee js in
      match x ← toPy js' v None; throwIfNecessary x with
      | Ok x => (Returned x, js')
      | Raise e => (Raised e (tb ++ proxy_call_entries jseval_dir), js')
      end
  end.

Variable codeStore : gmap string string.
Variable funcs : gmap string pyval.

(** The frames of the whole chain, outermost first: what the trace of the
    error should be. *)
Fixpoint trace_script (sc : script_chain) : list frame :=
  match sc with
  | SThrow frames _ _ => rev (user_frame codeStore <$> frames)
  | SCall frames _ callee => rev (user_frame codeStore <$> frames) ++ trace_host callee
  end
with trace_host (hc : host_chain) : list frame :=
  match hc with
  | HRaise tb e => tb ++ default [] (exc_oldTraceback e)
  | HCall tb callee => tb ++ trace_script callee
  end.

(** Entries of user code: none lies in a file of the bridge. *)
Definition tb_ok (tb : list frame) : bool :=
  forallb (fun item => bool_decide (f_path item ∉ JSEVAL_MASKED_FILES jseval_dir)) tb.

Definition frames_ok (frames : list sframe) : bool :=
  negb (bool_decide (frames = [])) && forallb (sframe_ok codeStore) frames.

(** A chain of user code: every script segment has frames, all on record;
    every callable is registered; every host entry is user code. *)
Fixpoint script_ok (sc : script_chain) : bool :=
  match sc with
  | SThrow frames _ _ => frames_ok frames
  | SCall frames id callee =>
      frames_ok frames && bool_decide (is_Some (funcs !! id)) && host_ok callee
  end
with host_ok (hc : host_chain) : bool :=
  match hc with
  | HRaise tb _ => tb_ok tb
  | HCall tb callee => tb_ok tb && script_ok callee
  end.

End Chain.

(** ** The trace of a decoded script error *)

Definition in_bootstrap (line : string) : bool := contains INIT_SCRIPT_NAME line.

(** The construction in the words of the specification: drop a leading
    frame inside the bootstrap script, keep the frames up to the first
    remaining bootstrap frame, convert each kept frame (relabelling the
    global-scope marker, taking the line's text from the source store by path
    and line), reverse into outermost-first order, and put the result in
    front of the frames the error already carries. *)
Definition trace_by_spec (codeStore : gmap string string) (stack : string)
  (carried : list frame) : result (list frame) :=
  let lines := split newline stack in
  let lines := if default false (in_bootstrap <$> head lines) then tail lines else lines in
  let kept := takewhile (fun line => negb (in_bootstrap line)) lines in
  converted ← mapM (stack_item codeStore) kept;
  Ok (rev converted ++ carried).

(** The program of the traceback test and the chain it runs: the global
    scope calls [jsFunc], which calls the host's [pyFunc], which calls
    [jsFunc2], which calls the host's [pyFunc2], which calls [pyFunc3], which
    raises. *)
Definition traceback_program : string :=
  join [""; "function jsFunc2() {"; "  pyFunc2();"; "}";
        "function jsFunc() {"; "  pyFunc();"; "}"; "jsFunc();"].

Definition traceback_chain : script_chain :=
  SCall [SFrame "jsFunc" "<JS string 1>" 6; SFrame "%entry" "<JS string 1>" 8] "1"
    (HCall [Frame "tests.py" 101 "pyFunc" "self._js.global_.jsFunc2()"]
       (SCall [SFrame "jsFunc2" "<JS string 1>" 3] "2"
          (HRaise [Frame "tests.py" 98 "pyFunc2" "pyFunc3()";
                   Frame "tests.py" 95 "pyFunc3" "raise ValueError('Hello World!')"]
             (new_exc ValueError (ArgStr "Hello World!"))))).

Definition js_traceback : JSEvaluator :=
  Evaluator ∅ ∅ None None {[ "1" := PyFunction 1; "2" := PyFunction 2 ]} 1 ∅
    (list_to_map builtin_exceptions).

(* ================================================================== *)
(** * Part III: the rest of the code, and the vocabulary of its properties *)
(* ================================================================== *)

(** ** Keys as attributes ([pyproxies.KeysAsAttributesMixin]) *)

(** How a method of the mixin ends: with a value, with an exception that
    passes through it unchanged, or with the [AttributeError(e)] it raises
    for the [KeyError] [e] it caught. *)
Inductive attr_result (A : Type) :=
| AttrOk (a : A)
| AttrRaise (e : pyexc)
| AttrError (e : pyexc).
Arguments AttrOk {A} a.
Arguments AttrRaise {A} e.
Arguments AttrError {A} e.

(** [except KeyError, e: raise AttributeError(e)] around a computation. *)
Definition KeyError_as_AttributeError {A} (r : result A) : attr_result A :=
  match r with
  | Ok a => AttrOk a
  | Raise e => if isinstance e KeyError then AttrError e else AttrRaise e
  end.

(** [del v[k]] on an object proxy or on a host dictionary: the container as
    it is afterwards, and the evaluator. *)
Definition py_delitem (js : JSEvaluator) (v : pyval) (k : string)
  : result pyval * JSEvaluator :=
  match v with
  | PyProxy ProxyObject self _ =>
      match JSObject.__delitem__ js self k with
      | (Ok _, js) => (Ok v, js)
      | (Raise e, js) => (Raise e, js)
      end
  | PyInst ty call seq (Some entries) date =>
      match assoc k entries with
      | Some _ => (Ok (PyInst ty call seq (Some (assoc_del k entries)) date), js)
      | None => (Raise (new_exc KeyError (ArgStr k)), js)
      end
  | _ => (Raise (new_exc AttributeError (ArgStr "__delitem__")), js)
  end.

(** The methods of the mixin, for its two users: [JSObject] (a proxy) and
    [JSObjectCopy] (a host dictionary).  No class after the mixin in either
    method resolution order has a [__getattr__], so the [super] call of
    [__getattr__] always raises [AttributeError] and the item access
    follows. *)
Module KeysAsAttributesMixin.
Definition __getattr__ (js : JSEvaluator) (self : pyval) (attr : string)
  : attr_result pyval :=
  KeyError_as_AttributeError (py_getitem js self (KName attr)).

Definition __setattr__
  (evaluate : string -> string -> Z -> JSEvaluator -> QJSValue * JSEvaluator)
  (js : JSEvaluator) (self : pyval) (attr : string) (value : pyval)
  : result pyval * JSEvaluator :=
  py_setitem evaluate js self (KName attr) value.

Definition __delattr__ (js : JSEvaluator) (self : pyval) (attr : string)
  : attr_result pyval * JSEvaluator :=
  let '(r, js) := py_delitem js self attr in
  (KeyError_as_AttributeError r, js).
End KeysAsAttributesMixin.

(** ** Host data sent to the engine and read back *)

(** What a number reads as once it has been a script number. *)
Definition decode_number (d : float) : pyval :=
  match buildNumber d with Ok v => v | Raise _ => PyFloat d end.

(** Host data: null, booleans, numbers, strings, and sequences and
    mappings of host data that are not callable; a mapping has each key
    once. *)
Fixpoint host_data (v : pyval) : bool :=
  match v with
  | PyNone | PyBool _ | PyInt _ | PyFloat _ | PyStr _ => true
  | PyInst _ None (Some items) _ _ => forallb host_data items
  | PyInst _ None None (Some entries) _ =>
      bool_decide (NoDup (fst <$> entries))
      && forallb (fun kv => host_data (snd kv)) entries
  | _ => false
  end.

(** The snapshot host data reads back as: every number as the decoder
    renders it, every sequence as a list, every mapping as a
    [JSObjectCopy]. *)
Fixpoint snapshot_of (v : pyval) : pyval :=
  match v with
  | PyInt n => decode_number (float_of_int n)
  | PyFloat d => decode_number d
  | PyInst _ _ (Some items) _ _ => PyList (snapshot_of <$> items)
  | PyInst _ _ None (Some entries) _ =>
      JSObjectCopy ((fun kv => (fst kv, snapshot_of (snd kv))) <$> entries)
  | _ => v
  end.

(** How deep the containers of a value nest. *)
Fixpoint nesting (v : pyval) : nat :=
  match v with
  | PyInst _ _ seq map _ =>
      S (Nat.max
           (match seq with
            | Some items => foldr (fun x acc => Nat.max (nesting x) acc) 0%nat items
            | None => 0%nat
            end)
           (match map with
            | Some entries =>
                foldr (fun kv acc => Nat.max (nesting (snd kv)) acc) 0%nat entries
            | None => 0%nat
            end))
  | _ => 0%nat
  end.

(** The second evaluator differs from the first in its engine objects at
    most, and has every object the first has. *)
Definition grows (js js' : JSEvaluator) : Prop :=
  with_heap js' (js_heap js) = js /\
  forall r o, js_heap js !! r = Some o -> js_heap js' !! r = Some o.

(** In the evaluator [js], the script value [q] reads as the data [v]: it
    decodes, and the deep copy of the decoding is the snapshot of [v]. *)
Definition reads (js : JSEvaluator) (q : QJSValue) (v : pyval) : Prop :=
  forall inst, exists p,
    toPy js q inst = Ok p /\
    forall fuel, (nesting v < fuel)%nat -> deepcopy fuel js p = Ok (snapshot_of v).

(** [q] reads as [v] in every evaluator that has the objects [js'] has
    beyond those of [js0] (all but the object [r], when one is excepted). *)
Definition reads_back (js0 js' : JSEvaluator) (except : option nat) (q : QJSValue)
  (v : pyval) : Prop :=
  forall js'',
    (forall x o, Some x <> except -> js_heap js' !! x = Some o -> js_heap js0 !! x = None ->
                 js_heap js'' !! x = Some o) ->
    reads js'' q v.

(** The conversion of [v] succeeds from any evaluator, changes no object the
    engine had, and leaves a value that reads as [v]. *)
Definition converts
  (evaluate : string -> string -> Z -> JSEvaluator -> QJSValue * JSEvaluator)
  (v : pyval) : Prop :=
  forall js, exists q js',
    toJS evaluate v js = (Ok q, js') /\ grows js js' /\ reads_back js js' None q v.

(** Data that is already in the shape of a snapshot: null, booleans,
    strings, integers of magnitude at most 2^53, lists and [JSObjectCopy]s of
    such data. *)
Fixpoint snapshot_shaped (v : pyval) : bool :=
  match v with
  | PyNone | PyBool _ | PyStr _ => true
  | PyInt n => (- 2 ^ 53 <=? n) && (n <=? 2 ^ 53)
  | PyInst ty None (Some items) None None =>
      bool_decide (ty = "<type 'list'>") && forallb snapshot_shaped items
  | PyInst ty None None (Some entries) None =>
      bool_decide (ty = "<class 'pyproxies.JSObjectCopy'>")
      && forallb (fun kv => snapshot_shaped (snd kv)) entries
  | _ => false
  end.

(** ** Calling a script function from the host ([JSObject.__call__], [new]) *)

Definition AssertionError := PyClass "AssertionError" StandardError.

Definition isCallable (h : heap) (v : QJSValue) : bool :=
  match class_of h v with Some (CFunction _) => true | _ => false end.

Section Calls.
Variable evaluate : string -> string -> Z -> JSEvaluator -> QJSValue * JSEvaluator.
(** [func.callWithInstance(this, args)] and [func.callAsConstructor(args)]:
    what running the function does to the evaluator, and the value (an error
    value when the function threw) the call ends with. *)
Variable callWithInstance :
  QJSValue -> QJSValue -> list QJSValue -> JSEvaluator -> QJSValue * JSEvaluator.
Variable callAsConstructor :
  QJSValue -> list QJSValue -> JSEvaluator -> QJSValue * JSEvaluator.
(** [self.js.global_.val], the global object. *)
Variable global_ : QJSValue.

(** [[self.js.toJS(a) for a in args]]. *)
Fixpoint toJS_each (args : list pyval) (js : JSEvaluator)
  : result (list QJSValue) * JSEvaluator :=
  match args with
  | [] => (Ok [], js)
  | a :: args' =>
      match toJS evaluate a js with
      | (Ok q, js) =>
          match toJS_each args' js with
          | (Ok qs, js) => (Ok (q :: qs), js)
          | (Raise e, js) => (Raise e, js)
          end
      | (Raise e, js) => (Raise e, js)
      end
  end.

(** [_handleCall(callFunc, args, kwargs)]. *)
Definition _handleCall (self : QJSValue)
  (callFunc : list QJSValue -> JSEvaluator -> QJSValue * JSEvaluator)
  (args : list pyval) (kwargs : list (string * pyval)) (js : JSEvaluator)
  : result pyval * JSEvaluator :=
  if negb (isCallable (js_heap js) self)
  then (Raise (new_exc AssertionError (ArgStr "")), js)
  else
    match toJS_each args js with
    | (Raise e, js) => (Raise e, js)
    | (Ok moddedArgs, js) =>
        match
          match kwargs with
          | [] => (Ok moddedArgs, js)
          | _ :: _ =>
              match toJS evaluate (PyDict kwargs) js with
              | (Ok q, js) => (Ok (moddedArgs ++ [q]), js)
              | (Raise e, js) => (Raise e, js)
              end
          end
        with
        | (Raise e, js) => (Raise e, js)
        | (Ok moddedArgs, js) =>
            let '(r, js) := callFunc moddedArgs js in
            (x ← toPy js r None; throwIfNecessary x, js)
        end
    end.

(** [new( *args, **kwargs)]. *)
Definition new (self : QJSValue) (args : list pyval) (kwargs : list (string * pyval))
  (js : JSEvaluator) : result pyval * JSEvaluator :=
  _handleCall self (callAsConstructor self) args kwargs js.

(** [__call__( *args, **kwargs)]: the function runs with [this] bound to
    the object the proxy was read from, or to the global object. *)
Definition __call__ (self : QJSValue) (instance : option QJSValue)
  (args : list pyval) (kwargs : list (string * pyval)) (js : JSEvaluator)
  : result pyval * JSEvaluator :=
  let thisValue := default global_ instance in
  _handleCall self (callWithInstance self thisValue) args kwargs js.
End Calls.

(** The engine runs a function made by the bootstrap script's
    [newWrapper(id)] as the script defines it. *)
Definition runs_wrappers
  (evaluate : string -> string -> Z -> JSEvaluator -> QJSValue * JSEvaluator)
  (jseval_dir : string)
  (py_call : pyval -> list pyval -> list (string * pyval) -> JSEvaluator
             -> outcome * JSEvaluator)
  (callWithInstance :
     QJSValue -> QJSValue -> list QJSValue -> JSEvaluator -> QJSValue * JSEvaluator)
  : Prop :=
  forall func this args js id,
    class_of (js_heap js) func = Some (CFunction (Some id)) ->
    exists stack,
      callWithInstance func this args js
      = match wrapper evaluate jseval_dir py_call id args stack js with
        | (Return v, js') => (v, js')
        | (Throw err, js') => (err, js')
        end.

(** An engine that runs wrapper functions and nothing else; called from the
    host, the wrapper's own frame is the whole stack. *)
Definition call_wrappers
  (evaluate : string -> string -> Z -> JSEvaluator -> QJSValue * JSEvaluator)
  (jseval_dir : string)
  (py_call : pyval -> list pyval -> list (string * pyval) -> JSEvaluator
             -> outcome * JSEvaluator)
  (func this : QJSValue) (args : list QJSValue) (js : JSEvaluator)
  : QJSValue * JSEvaluator :=
  match class_of (js_heap js) func with
  | Some (CFunction (Some id)) =>
      match wrapper evaluate jseval_dir py_call id args wrapper_line js with
      | (Return v, js') => (v, js')
      | (Throw err, js') => (err, js')
      end
  | _ => (QUndefined, js)
  end.

(** Null, booleans, numbers and strings. *)
Definition primitive (a : pyval) : bool :=
  match a with
  | PyNone | PyBool _ | PyInt _ | PyFloat _ | PyStr _ => true
  | _ => false
  end.

(** What the converter makes of a primitive. *)
Definition encode_primitive (a : pyval) : QJSValue := default QNull (plain a).

(** The state in which the dispatcher calls the callable when the script
    passed the arguments [qs]: the argument array allocated and popped. *)
Definition dispatch_state_with (js : JSEvaluator) (qs : list QJSValue) : JSEvaluator :=
  with_args
    (with_heap js (<[fresh (dom (js_heap js)) := JsObj (CArray qs) [] None]> (js_heap js)))
    None.

(** A host callable that adds its two arguments. *)
Definition py_call_add (func : pyval) (args : list pyval)
  (kwargs : list (string * pyval)) (js : JSEvaluator) : outcome * JSEvaluator :=
  match args, kwargs with
  | [PyInt a; PyInt b], [] => (Returned (PyInt (a + b)), js)
  | _, _ => (Raised (new_exc TypeError (ArgStr "add() takes exactly 2 arguments")) [], js)
  end.

(** ** References between engine objects *)

(** The object [r] holds a reference to the object [r'] where a deep copy
    follows it: as an element when [r] is an array, as the value of an own
    property when [r] is a plain object or a function. *)
Inductive refers (h : heap) : nat -> nat -> Prop :=
| refers_element (r : nat) (o : jsobj) (l : list QJSValue) (r' : nat) :
    h !! r = Some o -> o_class o = CArray l -> QObject r' ∈ l -> refers h r r'
| refers_property (r : nat) (o : jsobj) (k : string) (r' : nat) :
    h !! r = Some o ->
    (o_class o = CPlain \/ exists w, o_class o = CFunction w) ->
    assoc k (o_own o) = Some (QObject r') -> refers h r r'.

(** An array that is its own first element, as [a = []; a.push(a)] leaves
    it. *)
Definition js_cyclic : JSEvaluator :=
  Evaluator {[ 0%nat := JsObj (CArray [QObject 0%nat]) [] None ]} ∅ None None ∅ 1 ∅ ∅.

(** ** A failing callable behind a proxy *)

(** The exception that reaches the host caller when the script side threw
    the error the dispatcher recorded for [e]: the kind is looked up under
    the name the record carries, in the store as the dispatcher left it. *)
Definition bridged_exception (store : gmap string pyclass) (e : pyexc)
  (trace : list frame) : pyexc :=
  let label := default (class_name (exc_class e)) (exc_name e) in
  let store' :=
    if negb (isinstance e JSError)
    then <[class_name (exc_class e) := exc_class e]> store else store in
  match store' !! label with
  | Some k => PyExc k (ArgStr (message_text (exc_message e))) None (Some trace)
  | None => PyExc JSError (ArgStr (message_text (exc_message e))) (Some label) (Some trace)
  end.

(** A host callable that raises [ValueError("Hi!")]. *)
Definition py_call_value_error (func : pyval) (args : list pyval)
  (kwargs : list (string * pyval)) (js : JSEvaluator) : outcome * JSEvaluator :=
  (Raised (new_exc ValueError (ArgStr "Hi!"))
     [Frame "tests.py" 37 "exc" "raise ValueError('Hi!')"], js).

(** ** Comparing proxies ([JSArray.__eq__], [JSObject.__eq__]) *)

(** [len(x)]: strings, proxies, sequences and mappings have a length, any
    other value raises [TypeError].  The length of an object proxy is the
    number of keys it iterates over ([JSObject.__len__]). *)
Definition py_len (js : JSEvaluator) (x : pyval) : result Z :=
  match x with
  | PyStr s => Ok (Z.of_nat (String.length s))
  | PyProxy ProxyArray self _ => Ok (JSArray.__len__ js self)
  | PyProxy ProxyObject self _ => Ok (Z.of_nat (length (JSObject.__iter__ js self)))
  | PyInst _ _ (Some items) _ _ => Ok (Z.of_nat (length items))
  | PyInst _ _ None (Some entries) _ => Ok (Z.of_nat (length entries))
  | _ => Raise (new_exc TypeError (ArgStr "object has no len()"))
  end.

(** [x[k]] for a text key [k].  A host list, tuple or string takes integer
    indices only; an array proxy finds the text out of range. *)
Definition py_getitem_key (js : JSEvaluator) (x : pyval) (k : string) : result pyval :=
  match x with
  | PyProxy ProxyObject self _ => JSObject.__getitem__ js self k
  | PyProxy ProxyArray self _ => Raise (new_exc IndexError (ArgStr k))
  | PyInst _ _ None (Some entries) _ =>
      match assoc k entries with
      | Some v => Ok v
      | None => Raise (new_exc KeyError (ArgStr k))
      end
  | PyInst _ _ (Some _) _ _ | PyStr _ =>
      Raise (new_exc TypeError (ArgStr "indices must be integers, not str"))
  | _ => Raise (new_exc TypeError (ArgStr "object has no attribute '__getitem__'"))
  end.

Fixpoint chars (s : string) : list pyval :=
  match s with
  | EmptyString => []
  | String a s' => PyStr (String a EmptyString) :: chars s'
  end.

(** The items [iter(x)] yields, each as the computation that produces
    it. *)
Definition py_iter (js : JSEvaluator) (x : pyval) : list (result pyval) :=
  match x with
  | PyStr s => (fun c => Ok c) <$> chars s
  | PyProxy ProxyArray self _ => JSArray.__getitem__ js self <$> JSArray.indices js self
  | PyProxy ProxyObject self _ => (fun k => Ok (PyStr k)) <$> JSObject.__iter__ js self
  | PyInst _ _ (Some items) _ _ => (fun item => Ok item) <$> items
  | PyInst _ _ None (Some entries) _ => (fun kv => Ok (PyStr (fst kv))) <$> entries
  | _ => []
  end.

(** [zip(xs, ys)]: items are taken from the two in turn until one of them
    is exhausted. *)
Fixpoint zip_items (xs ys : list (result pyval)) : result (list (pyval * pyval)) :=
  match xs with
  | [] => Ok []
  | x :: xs' =>
      a ← x;
      match ys with
      | [] => Ok []
      | y :: ys' => b ← y; rest ← zip_items xs' ys'; Ok ((a, b) :: rest)
      end
  end.

Section Equality.
(** The host's [a == b]. *)
Variable host_eq : JSEvaluator -> pyval -> pyval -> result bool.

(** [all(a == b for a, b in pairs)]. *)
Fixpoint all_equal (js : JSEvaluator) (pairs : list (pyval * pyval)) : result bool :=
  match pairs with
  | [] => Ok true
  | (a, b) :: pairs' =>
      t ← host_eq js a b;
      if (t : bool) then all_equal js pairs' else Ok false
  end.

(** [JSArray.__eq__]. *)
Definition JSArray_eq (js : JSEvaluator) (self : QJSValue) (other : pyval)
  : result bool :=
  n ← py_len js other;
  if JSArray.__len__ js self =? n then
    pairs ← zip_items (JSArray.__getitem__ js self <$> JSArray.indices js self)
                      (py_iter js other);
    all_equal js pairs
  else Ok false.

(** [all(v == other[k] for k, v in self.iteritems())]: the items of [self]
    are read one at a time, as the comparison proceeds. *)
Fixpoint all_items_equal (js : JSEvaluator) (self : QJSValue) (other : pyval)
  (keys : list string) : result bool :=
  match keys with
  | [] => Ok true
  | k :: keys' =>
      v ← JSObject.__getitem__ js self k;
      w ← py_getitem_key js other k;
      t ← host_eq js v w;
      if (t : bool) then all_items_equal js self other keys' else Ok false
  end.

(** [JSObject.__eq__]. *)
Definition JSObject_eq (js : JSEvaluator) (self : QJSValue) (other : pyval)
  : result bool :=
  match
    n ← py_len js other;
    if Z.of_nat (length (JSObject.__iter__ js self)) =? n
    then all_items_equal js self other (JSObject.__iter__ js self)
    else Ok false
  with
  | Raise e => if isinstance e TypeError then Ok false else Raise e
  | Ok b => Ok b
  end.
End Equality.

(** A host callable that returns the value of its keyword [b]. *)
Definition py_call_keyword_b (func : pyval) (args : list pyval)
  (kwargs : list (string * pyval)) (js : JSEvaluator) : outcome * JSEvaluator :=
  match assoc "b" kwargs with
  | Some v => (Returned v, js)
  | None => (Raised (new_exc KeyError (ArgStr "b"))
               [Frame "tests.py" 286 "func" "result['kwargs'] = kwargs"], js)
  end.

(* ================================================================== *)
(** * Part IV: the claims of the specification *)
(* ================================================================== *)

(** ** Decoding never fails on a value that is not a script error *)

Lemma buildNumber_ok (num : float) : exists v, buildNumber num = Ok v.
Proof.
  unfold buildNumber. destruct num; simpl; eauto.
Qed.

Lemma toPy_not_error (js : JSEvaluator) (value : QJSValue) (instance : option QJSValue) :
  isError (js_heap js) value = false ->
  exists v, toPy js value instance = Ok v.
Proof.
  intros Herr. unfold toPy.
  destruct (isNull value || isUndefined value); [eauto|].
  destruct (isNumber value); [apply buildNumber_ok|].
  destruct (isBool value || isString value); [eauto|].
  destruct (isDate _ value); [eauto|].
  destruct (isRegExp _ value); [eauto|].
  destruct (isArray _ value); [eauto|].
  unfold isError in Herr.
  destruct (class_of (js_heap js) value) as [[]|]; try discriminate; eauto.
Qed.

(** ** Array proxies: index normalization *)

Lemma JSArray_normalize_spec (js : JSEvaluator) (self : QJSValue) (idx : Z) :
  let n := JSArray.__len__ js self in
  let i := if idx <? 0 then n + idx else idx in
  JSArray._normalize js self idx =
    if (0 <=? i) && (i <? n) then Ok i
    else Raise (new_exc IndexError (ArgInt i)).
Proof.
  simpl. unfold JSArray._normalize, JSArray.NotFound.
  destruct ((0 <=? _) && _); reflexivity.
Qed.

Lemma JSArray_getitem_spec (js : JSEvaluator) (self : QJSValue) (idx : Z) :
  let n := JSArray.__len__ js self in
  let i := if idx <? 0 then n + idx else idx in
  JSArray.__getitem__ js self idx =
    match elements (js_heap js) self !! Z.to_nat i with
    | Some x =>
        if (0 <=? i) && (i <? n) then toPy js x (Some self)
        else Raise (new_exc IndexError (ArgInt i))
    | None => Raise (new_exc IndexError (ArgInt i))
    end.
Proof.
  intros n i.
  unfold JSArray.__getitem__. rewrite JSArray_normalize_spec.
  fold n. fold i.
  destruct ((0 <=? i) && (i <? n)) eqn:Hr.
  - apply andb_true_iff in Hr as [H0 Hn].
    apply Z.leb_le in H0. apply Z.ltb_lt in Hn.
    simpl. unfold JSArray._get, property_at.
    destruct (i <? 0) eqn:Hneg; [apply Z.ltb_lt in Hneg; lia|].
    destruct (elements (js_heap js) self !! Z.to_nat i) eqn:Hl; [reflexivity|].
    apply lookup_ge_None in Hl. unfold n, JSArray.__len__ in Hn. lia.
  - simpl. destruct (elements (js_heap js) self !! Z.to_nat i); reflexivity.
Qed.



(** ** Object proxies: reading follows the prototype chain, deleting does
    not *)



(** ** Wrapping a host callable *)

Lemma toPy_function (js : JSEvaluator) (r : ref) (o : jsobj) (w : option string) :
  js_heap js !! r = Some o -> o_class o = CFunction w ->
  toPy js (QObject r) None = Ok (PyProxy ProxyObject (QObject r) None).
Proof.
  intros Hr Hc. unfold toPy, isDate, isRegExp, isArray, class_of. simpl.
  rewrite Hr. simpl. rewrite Hc. reflexivity.
Qed.

Lemma buildJSWrapper_cached (id : string) (js : JSEvaluator) (r : ref) :
  js_cache js !! id = Some r -> buildJSWrapper id js = (QObject r, js).
Proof. intros H. unfold buildJSWrapper. rewrite H. reflexivity. Qed.

Lemma buildJSWrapper_spec (id : string) (js : JSEvaluator) :
  cache_functions js ->
  exists r js',
    buildJSWrapper id js = (QObject r, js') /\
    js_cache js' !! id = Some r /\
    cache_functions js' /\
    (forall id' r', js_cache js !! id' = Some r' -> js_cache js' !! id' = Some r') /\
    js_counter js' = js_counter js /\ js_codeStore js' = js_codeStore js /\
    js_funcs js' = js_funcs js.
Proof.
  intros Hwf. unfold buildJSWrapper.
  destruct (js_cache js !! id) as [r|] eqn:Hc.
  - exists r, js. repeat split; auto.
  - set (r := fresh (dom (js_heap js))).
    assert (Hfresh : js_heap js !! r = None).
    { apply not_elem_of_dom. apply is_fresh. }
    eexists r, _. split; [reflexivity|]. simpl.
    split; [apply lookup_insert_eq|].
    split; [|split; [|repeat split]].
    + intros id' r' H. simpl in H |- *.
      destruct (decide (id = id')) as [<-|Hne].
      * rewrite lookup_insert_eq in H. injection H as <-.
        eexists. rewrite lookup_insert_eq. split; reflexivity.
      * rewrite lookup_insert_ne in H by assumption.
        destruct (Hwf _ _ H) as (o & Ho & Hcls).
        exists o. split; [|assumption].
        rewrite lookup_insert_ne; [assumption|]. intros <-. congruence.
    + intros id' r' H. rewrite lookup_insert_ne; [assumption|]. congruence.
Qed.

Lemma wrapFunction_spec evaluate (f : pyval) (js : JSEvaluator) :
  runs_bootstrap evaluate (pretty (py_id f)) ->
  cache_functions js ->
  exists r js',
    wrapFunction evaluate f js = (Ok (QObject r), js') /\
    js_cache js' !! pretty (py_id f) = Some r /\
    cache_functions js' /\
    js_funcs js' !! pretty (py_id f) = Some f /\
    (forall id' r', js_cache js !! id' = Some r' -> js_cache js' !! id' = Some r').
Proof.
  intros Hrun Hwf. unfold wrapFunction, eval, eval_prepare. simpl.
  rewrite Hrun.
  match goal with |- context [buildJSWrapper _ ?s] =>
    destruct (buildJSWrapper_spec (pretty (py_id f)) s)
      as (r & js' & Hb & Hc & Hwf' & Hmono & _ & _ & Hf)
  end.
  { exact Hwf. }
  rewrite Hb. exists r, js'.
  destruct (Hwf' _ _ Hc) as (o & Ho & Hcls).
  rewrite (toPy_function js' r o _ Ho Hcls). simpl.
  repeat split; auto.
  rewrite Hf. simpl. apply lookup_insert_eq.
Qed.



(** ** Labels and the source store *)

Lemma length_append (a b : string) :
  String.length (a +:+ b) = (String.length a + String.length b)%nat.
Proof. induction a as [|x a IH]; simpl; [reflexivity|]. rewrite IH. reflexivity. Qed.

Lemma append_cancel_r (a b c : string) : a +:+ c = b +:+ c -> a = b.
Proof.
  revert b. induction a as [|x a IH]; intros [|y b] H; simpl in H.
  - reflexivity.
  - apply (f_equal String.length) in H. simpl in H.
    rewrite !length_append in H. simpl in H. lia.
  - apply (f_equal String.length) in H. simpl in H.
    rewrite !length_append in H. simpl in H. lia.
  - injection H as -> H. f_equal. apply IH, H.
Qed.

Lemma synthetic_label_inj (n m : nat) :
  synthetic_label n = synthetic_label m -> n = m.
Proof.
  unfold synthetic_label. intros H.
  apply (inj (String.app _)) in H.
  apply append_cancel_r in H.
  apply (inj pretty) in H. exact H.
Qed.

Lemma eval_counter evaluate (code : string) (js : JSEvaluator) :
  counter_monotone evaluate ->
  (S (js_counter js) <= js_counter (snd (eval evaluate code None 1 js)))%nat.
Proof.
  intros Hmono. unfold eval, eval_prepare. simpl.
  match goal with |- context [evaluate ?c ?p ?l ?s] =>
    specialize (Hmono c p l s); destruct (evaluate c p l s) as [res js']
  end.
  simpl in *. exact Hmono.
Qed.

Lemma process_labels_numbered evaluate (calls : list (nat * string)) :
  counter_monotone evaluate ->
  forall (p : list JSEvaluator) i l,
    (i, l) ∈ process_labels evaluate calls p ->
    exists js n, p !! i = Some js /\ l = synthetic_label n /\ (js_counter js <= n)%nat.
Proof.
  intros Hmono. induction calls as [|[j code] calls IH]; intros p i l Hin; simpl in Hin.
  - inversion Hin.
  - destruct (p !! j) as [js|] eqn:Hj; [|apply IH, Hin].
    apply elem_of_cons in Hin as [Heq|Hin].
    + injection Heq as -> ->. exists js, (js_counter js). auto.
    + destruct (IH _ _ _ Hin) as (js' & n & Hp & Hl & Hn).
      destruct (decide (i = j)) as [->|Hne].
      * rewrite list_lookup_insert_eq in Hp by (eapply lookup_lt_Some; eauto).
        injection Hp as <-. exists js, n. repeat split; auto.
        pose proof (eval_counter evaluate code js Hmono). lia.
      * rewrite list_lookup_insert_ne in Hp by auto. eauto.
Qed.


(** ** The order of the host-to-script conversions *)

Lemma toJS_plain evaluate (x : pyval) (q : QJSValue) (js : JSEvaluator) :
  plain x = Some q -> toJS evaluate x js = (Ok q, js).
Proof.
  destruct x; simpl; try discriminate; intros [= <-]; reflexivity.
Qed.

Lemma with_heap_heap (js : JSEvaluator) (h : gmap nat jsobj) :
  js_heap (with_heap js h) = h.
Proof. reflexivity. Qed.

Lemma with_heap_twice (js : JSEvaluator) (h1 h2 : gmap nat jsobj) :
  with_heap (with_heap js h1) h2 = with_heap js h2.
Proof. reflexivity. Qed.

Lemma extend_plain evaluate (items : list pyval) :
  forall (qs l : list QJSValue) (js : JSEvaluator) (r : nat) own proto,
    mapM plain items = Some qs ->
    js_heap js !! r = Some (JsObj (CArray l) own proto) ->
    extend (toJS evaluate) js (QObject r) items
      = (Ok tt, with_heap js (<[r := JsObj (CArray (l ++ qs)) own proto]> (js_heap js))).
Proof.
  induction items as [|x items IH]; intros qs l js r own proto Hqs Hr;
    simpl in Hqs |- *.
  - injection Hqs as <-. rewrite app_nil_r.
    rewrite insert_id by exact Hr. destruct js; reflexivity.
  - destruct (plain x) as [q|] eqn:Hx; [|discriminate]. simpl in Hqs.
    destruct (mapM plain items) as [qs'|] eqn:Hqs'; [|discriminate].
    injection Hqs as <-.
    unfold insert. rewrite (toJS_plain _ _ _ _ Hx).
    unfold JSArray._splice, JSArray.__len__, elements, set_elements, class_of.
    rewrite Hr. simpl.
    rewrite Nat2Z.id. unfold splice.
    rewrite firstn_all, Nat.add_0_r.
    change (drop (length l) l) with (skipn (length l) l). rewrite skipn_all.
    rewrite app_nil_r.
    erewrite IH; [|reflexivity|rewrite with_heap_heap; apply lookup_insert_eq].
    rewrite with_heap_twice, with_heap_heap, insert_insert_eq.
    rewrite <- app_assoc. reflexivity.
Qed.

Lemma update_plain evaluate (entries : list (string * pyval)) :
  forall (kqs : list (string * QJSValue)) (js : JSEvaluator) (r : nat) cls own proto,
    mapM plain_entry entries = Some kqs ->
    js_heap js !! r = Some (JsObj cls own proto) ->
    update (toJS evaluate) js (QObject r) entries
      = (Ok tt,
         with_heap js
           (<[r := JsObj cls (foldl (fun acc kq => assoc_set (fst kq) (snd kq) acc) own kqs)
                    proto]> (js_heap js))).
Proof.
  induction entries as [|[k x] entries IH]; intros kqs js r cls own proto Hkqs Hr.
  - injection Hkqs as <-. simpl.
    rewrite insert_id by exact Hr. destruct js; reflexivity.
  - apply mapM_Some in Hkqs.
    inversion Hkqs as [|? [k' q] ? kqs' Hx Hrest]; subst. clear Hkqs.
    apply mapM_Some in Hrest.
    unfold plain_entry in Hx. simpl in Hx.
    destruct (plain x) as [q'|] eqn:Hx'; simpl in Hx; [|discriminate].
    injection Hx as <- <-. simpl.
    unfold __setitem__. rewrite (toJS_plain _ _ _ _ Hx').
    unfold setProperty. rewrite Hr. simpl.
    erewrite IH; [|exact Hrest|rewrite with_heap_heap; apply lookup_insert_eq].
    rewrite with_heap_twice, with_heap_heap, insert_insert_eq. reflexivity.
Qed.



(** ** Round trip of the primitives *)

Lemma digits2_pos_bound p :
  2 ^ (Zpos (digits2_pos p) - 1) <= Zpos p < 2 ^ Zpos (digits2_pos p).
Proof.
  induction p as [p IH|p IH|]; simpl digits2_pos.
  - rewrite Pos2Z.inj_succ.
    replace (Z.succ (Zpos (digits2_pos p)) - 1) with (Z.succ (Zpos (digits2_pos p) - 1)) by lia.
    rewrite !Z.pow_succ_r by lia. lia.
  - rewrite Pos2Z.inj_succ.
    replace (Z.succ (Zpos (digits2_pos p)) - 1) with (Z.succ (Zpos (digits2_pos p) - 1)) by lia.
    rewrite !Z.pow_succ_r by lia. lia.
  - simpl. lia.
Qed.

Lemma digits2_iter_xO k p :
  digits2_pos (Pos.iter xO p k) = (digits2_pos p + k)%positive.
Proof.
  induction k using Pos.peano_ind.
  - simpl. lia.
  - rewrite Pos.iter_succ. simpl. rewrite IHk. lia.
Qed.

Lemma iter_xO_value k p : Zpos (Pos.iter xO p k) = Zpos p * 2 ^ Zpos k.
Proof.
  induction k using Pos.peano_ind.
  - simpl. lia.
  - rewrite Pos.iter_succ, Pos2Z.inj_succ, Z.pow_succ_r by lia.
    rewrite Pos2Z.inj_xO, IHk. lia.
Qed.

Lemma shr_fexp_exact m e :
  Zpos (digits2_pos m) = 53 -> -1074 <= e ->
  shr_fexp 53 1024 (Zpos m) e loc_Exact
    = ({| shr_m := Zpos m; shr_r := false; shr_s := false |}, e).
Proof.
  intros Hd He. unfold shr_fexp, fexp, emin, Zdigits2. z_ops.
  rewrite Hd.
  replace (Z.max (53 + e - 53) (3 - 1024 - 53) - e) with 0 by lia.
  reflexivity.
Qed.

Lemma binary_round_aux_exact s m e :
  Zpos (digits2_pos m) = 53 -> -1074 <= e <= 971 ->
  binary_round_aux 53 1024 s (Zpos m) e loc_Exact = S754_finite s m e.
Proof.
  intros Hd He. unfold binary_round_aux.
  rewrite shr_fexp_exact by lia.
  cbn [shr_m loc_of_shr_record round_nearest_even].
  rewrite shr_fexp_exact by lia.
  cbn [shr_m]. z_ops.
  destruct (e <=? 1024 - 53) eqn:Hle; [reflexivity|]. apply Z.leb_gt in Hle. lia.
Qed.

Lemma float_of_pos_small s p :
  Zpos p < 2 ^ 53 ->
  exists m k, binary_round 53 1024 s p 0 = S754_finite s m (- k) /\ 0 <= k
              /\ Zpos m = Zpos p * 2 ^ k.
Proof.
  intros Hp.
  pose proof (digits2_pos_bound p) as [Hlo Hhi].
  assert (Hd : Zpos (digits2_pos p) <= 53).
  { destruct (Z_le_gt_dec (Zpos (digits2_pos p)) 53) as [|Hgt]; [assumption|].
    assert (2 ^ 53 <= 2 ^ (Zpos (digits2_pos p) - 1)) by (apply Z.pow_le_mono_r; lia).
    lia. }
  unfold binary_round, shl_align, fexp, emin. z_ops.
  rewrite Z.add_0_r.
  replace (Z.max (Zpos (digits2_pos p) - 53) (3 - 1024 - 53)) with (Zpos (digits2_pos p) - 53) by lia.
  rewrite Z.sub_0_r.
  destruct (Zpos (digits2_pos p) - 53) as [|q|q] eqn:Hq; [|lia|].
  - exists p, 0. split; [|lia].
    apply binary_round_aux_exact; lia.
  - exists (Pos.iter xO p q), (Zpos q). split; [|split; [lia|apply iter_xO_value]].
    apply binary_round_aux_exact; [|lia].
    rewrite digits2_iter_xO. lia.
Qed.

Lemma float_of_int_exact (n : Z) :
  - 2 ^ 53 <= n <= 2 ^ 53 ->
  int_of_float (float_of_int n) = Ok n /\ float_eq_int (float_of_int n) n = true.
Proof.
  intros Hn.
  assert (Hcases : n = 2 ^ 53 \/ n = - 2 ^ 53 \/ - 2 ^ 53 < n < 2 ^ 53) by lia.
  destruct Hcases as [->|[->|Hlt]]; [split; reflexivity..|].
  unfold float_of_int, binary_normalize. destruct n as [|p|p].
  - split; reflexivity.
  - destruct (float_of_pos_small false p) as (m & k & -> & Hk & Hm); [lia|].
    cbn [int_of_float float_eq_int cond_Zopp]. split.
    + f_equal. rewrite Z.shiftl_div_pow2 by lia. rewrite Z.opp_involutive.
      rewrite Hm. apply Z.div_mul. apply Z.pow_nonzero; lia.
    + destruct (0 <=? - k) eqn:Hs.
      * apply Z.leb_le in Hs. assert (k = 0) as -> by lia.
        apply Z.eqb_eq. rewrite Z.pow_0_r in *. lia.
      * apply Z.eqb_eq. rewrite Z.opp_involutive. exact Hm.
  - destruct (float_of_pos_small true p) as (m & k & -> & Hk & Hm);
      [change (Zpos p) with (- Zneg p); lia|].
    cbn [int_of_float float_eq_int cond_Zopp]. split.
    + f_equal. rewrite Z.shiftl_div_pow2 by lia. rewrite Z.opp_involutive.
      rewrite Hm. rewrite Z.div_mul by (apply Z.pow_nonzero; lia). reflexivity.
    + destruct (0 <=? - k) eqn:Hs.
      * apply Z.leb_le in Hs. assert (k = 0) as -> by lia.
        apply Z.eqb_eq. rewrite Z.pow_0_r in *.
        change (Z.neg p) with (- Zpos p). lia.
      * apply Z.eqb_eq. rewrite Z.opp_involutive.
        change (Z.neg p) with (- Zpos p). lia.
Qed.

Lemma float_eq_int_spec (d : float) (n : Z) :
  float_eq_int d n = true <-> float_is_int d n.
Proof.
  destruct d as [s|s| |s m e]; cbn [float_eq_int float_is_int];
    try (split; [discriminate|tauto]).
  - apply Z.eqb_eq.
  - destruct (0 <=? e) eqn:He.
    + apply Z.leb_le in He. rewrite Z.eqb_eq.
      rewrite (Z.max_l e 0), (Z.max_r (- e) 0) by lia.
      rewrite Z.pow_0_r. lia.
    + apply Z.leb_gt in He. rewrite Z.eqb_eq.
      rewrite (Z.max_r e 0), (Z.max_l (- e) 0) by lia.
      rewrite Z.pow_0_r. lia.
Qed.

Lemma int_of_float_integral (d : float) (n : Z) :
  float_is_int d n -> int_of_float d = Ok n.
Proof.
  destruct d as [s|s| |s m e]; cbn [int_of_float float_is_int]; try tauto.
  - intros ->. reflexivity.
  - intros H. f_equal.
    destruct (Z_le_gt_dec 0 e) as [He|He].
    + rewrite (Z.max_l e 0), (Z.max_r (- e) 0) in H by lia.
      rewrite Z.shiftl_mul_pow2 by lia. rewrite Z.pow_0_r in H.
      destruct s; cbn [cond_Zopp] in *; lia.
    + rewrite (Z.max_r e 0), (Z.max_l (- e) 0) in H by lia.
      rewrite Z.shiftl_div_pow2 by lia. rewrite Z.pow_0_r in H.
      assert (Hpow : 2 ^ (- e) <> 0) by (apply Z.pow_nonzero; lia).
      destruct s; cbn [cond_Zopp] in *.
      * replace (Zpos m) with ((- n) * 2 ^ (- e)) by lia.
        rewrite Z.div_mul by assumption. lia.
      * replace (Zpos m) with (n * 2 ^ (- e)) by lia.
        apply Z.div_mul. assumption.
Qed.

Lemma buildNumber_integral (d : float) (n : Z) :
  float_is_int d n -> buildNumber d = Ok (PyInt n).
Proof.
  intros H. unfold buildNumber.
  rewrite (int_of_float_integral d n H).
  apply float_eq_int_spec in H. rewrite H. reflexivity.
Qed.

Lemma buildNumber_fractional (d : float) :
  (forall n, ~ float_is_int d n) -> buildNumber d = Ok (PyFloat d).
Proof.
  intros H. unfold buildNumber.
  destruct (int_of_float d) as [asInt|e] eqn:Hi.
  - destruct (float_eq_int d asInt) eqn:Heq; [|reflexivity].
    apply float_eq_int_spec in Heq. destruct (H _ Heq).
  - destruct d; simpl in Hi; try discriminate; injection Hi as <-; reflexivity.
Qed.

Lemma float_eq_refl (d : float) : d <> nan -> SFeqb d d = true.
Proof.
  intros Hd. unfold SFeqb. destruct d as [s|s| |s m e]; simpl.
  - reflexivity.
  - destruct s; reflexivity.
  - destruct Hd. reflexivity.
  - change (IntDef.Z.compare e e) with (e ?= e).
    change (PosDef.Pos.compare_cont Eq m m) with (Pos.compare_cont Eq m m).
    rewrite Z.compare_refl. fold (Pos.compare m m). rewrite Pos.compare_refl.
    destruct s; reflexivity.
Qed.




(** The loss does not depend on how the engine makes a number of an
    integer: no binary64 datum decodes to 2^53 + 1. *)
Lemma buildNumber_never_2_53_plus_1 (d : float) :
  valid_binary 53 1024 d = true ->
  buildNumber d <> Ok (PyInt 9007199254740993).
Proof.
  intros Hvalid Hb.
  assert (Hint : float_is_int d 9007199254740993).
  { apply float_eq_int_spec. unfold buildNumber in Hb.
    destruct (int_of_float d) as [asInt|e].
    - destruct (float_eq_int d asInt) eqn:Heq; [|discriminate].
      injection Hb as <-. exact Heq.
    - destruct (isinstance e ValueError || isinstance e OverflowError); discriminate. }
  destruct d as [s|s| |s m e]; cbn [float_is_int] in Hint; try tauto; [lia|].
  cbn [valid_binary] in Hvalid. unfold bounded, canonical_mantissa, fexp, emin in Hvalid.
  z_ops. apply andb_true_iff in Hvalid as [Hcanon _].
  change IntDef.Z.eqb with Z.eqb in Hcanon. apply Z.eqb_eq in Hcanon.
  pose proof (digits2_pos_bound m) as [Hlo _].
  assert (Hd : Zpos (digits2_pos m) <= 53) by lia.
  assert (Hm : Zpos m < 2 ^ 53).
  { pose proof (digits2_pos_bound m) as [_ Hhi].
    assert (2 ^ Zpos (digits2_pos m) <= 2 ^ 53) by (apply Z.pow_le_mono_r; lia).
    lia. }
  change (2 ^ 53) with 9007199254740992 in Hm.
  destruct (Z_le_gt_dec e 0) as [He|He].
  - rewrite (Z.max_r e 0), (Z.max_l (- e) 0), Z.pow_0_r in Hint by lia.
    assert (1 <= 2 ^ (- e)) by (apply (Z.pow_le_mono_r 2 0 (- e)); lia).
    destruct s; cbn [cond_Zopp] in Hint; nia.
  - rewrite (Z.max_l e 0), (Z.max_r (- e) 0), Z.pow_0_r in Hint by lia.
    replace e with (Z.succ (e - 1)) in Hint by lia.
    rewrite Z.pow_succ_r in Hint by lia.
    destruct s; cbn [cond_Zopp] in Hint; lia.
Qed.

(** ** Snapshots *)

Lemma bind_Ok {A B} (r : result A) (k : A -> result B) (y : B) :
  (r ≫= k) = Ok y -> exists a, r = Ok a /\ k a = Ok y.
Proof. destruct r as [a|e]; simpl; [eauto|discriminate]. Qed.

Lemma mapM_cons {A B} (f : A -> result B) (x : A) (l : list A) :
  mapM f (x :: l) = (y ← f x; ys ← mapM f l; Ok (y :: ys)).
Proof. reflexivity. Qed.

Lemma mapM_Ok {A B} (f : A -> result B) (l : list A) (ys : list B) :
  mapM f l = Ok ys <-> Forall2 (fun x y => f x = Ok y) l ys.
Proof.
  revert ys. induction l as [|x l IH]; intros ys.
  - split.
    + intros [= <-]. constructor.
    + intros H. inversion H. reflexivity.
  - rewrite mapM_cons. split.
    + intros H. apply bind_Ok in H as (y & Hy & H).
      apply bind_Ok in H as (ys' & Hys & H). injection H as <-.
      constructor; [assumption|]. apply IH. assumption.
    + intros H. inversion H as [|? y ? ys' Hy Hys]; subst.
      rewrite Hy. simpl. apply IH in Hys. rewrite Hys. reflexivity.
Qed.

Lemma mapM_Ok_Forall {A B} (f : A -> result B) (P : B -> Prop) (l : list A)
  (ys : list B) :
  mapM f l = Ok ys -> (forall x y, f x = Ok y -> P y) -> Forall P ys.
Proof.
  intros H HP. apply mapM_Ok in H.
  induction H; constructor; eauto.
Qed.

Lemma mapM_total {A B} (f : A -> result B) (l : list A) :
  (forall x, x ∈ l -> exists y, f x = Ok y) -> exists ys, mapM f l = Ok ys.
Proof.
  induction l as [|x l IH]; intros H.
  - exists []. reflexivity.
  - destruct (H x) as [y Hy]; [left|].
    destruct IH as [ys Hys]; [intros; apply H; right; assumption|].
    exists (y :: ys). rewrite mapM_cons, Hy. simpl. rewrite Hys. reflexivity.
Qed.

Lemma forallb_Forall_true {A} (p : A -> bool) (l : list A) :
  Forall (fun x => p x = true) l <-> forallb p l = true.
Proof.
  induction l as [|x l IH]; simpl.
  - split; [reflexivity|constructor].
  - rewrite andb_true_iff, <- IH. split.
    + intros H. inversion H; auto.
    + intros [? ?]. constructor; assumption.
Qed.

Lemma deepcopy_host_owned (fuel : nat) (js : JSEvaluator) :
  forall v b, deepcopy fuel js v = Ok b -> host_owned b = true.
Proof.
  induction fuel as [|fuel IH]; intros v b H; [discriminate|].
  destruct v as [| | | | | | |k self inst|ty call seq map date]; simpl in H;
    try (injection H as <-; reflexivity); try discriminate.
  - destruct k.
    + apply bind_Ok in H as (items & Hitems & H). injection H as <-.
      simpl. rewrite andb_true_r. apply forallb_Forall_true.
      eapply mapM_Ok_Forall; [exact Hitems|].
      intros i y Hy. apply bind_Ok in Hy as (item & _ & Hy). eapply IH; eauto.
    + apply bind_Ok in H as (items & Hitems & H). injection H as <-.
      simpl. apply (forallb_Forall_true (fun kv => host_owned (snd kv))).
      eapply mapM_Ok_Forall; [exact Hitems|].
      intros key kv Hy. apply bind_Ok in Hy as (value & _ & Hy).
      apply bind_Ok in Hy as (value' & Hv & Hy). injection Hy as <-.
      simpl. eapply IH; eauto.
  - apply bind_Ok in H as (seq' & Hseq & H).
    apply bind_Ok in H as (map' & Hmap & H). injection H as <-.
    simpl. apply andb_true_iff. split.
    + destruct seq as [l|]; [|injection Hseq as <-; reflexivity].
      apply bind_Ok in Hseq as (l' & Hl & Hseq). injection Hseq as <-.
      apply forallb_Forall_true.
      eapply mapM_Ok_Forall; [exact Hl|]. intros x y Hy. eapply IH; eauto.
    + destruct map as [entries|]; [|injection Hmap as <-; reflexivity].
      apply bind_Ok in Hmap as (l' & Hl & Hmap). injection Hmap as <-.
      apply (forallb_Forall_true (fun kv => host_owned (snd kv))).
      eapply mapM_Ok_Forall; [exact Hl|].
      intros kv kv' Hy. apply bind_Ok in Hy as (v' & Hv & Hy). injection Hy as <-.
      simpl. eapply IH; eauto.
Qed.

Lemma py_index_elem {A} (l : list A) (i : Z) (a : A) :
  py_index l i = Ok a -> a ∈ l.
Proof.
  unfold py_index. destruct (_ && _); [|discriminate].
  destruct (l !! _) eqn:Hl; [|discriminate].
  intros [= <-]. eapply list_elem_of_lookup_2. exact Hl.
Qed.

Lemma assoc_elem {A} (k : string) (l : list (string * A)) (a : A) :
  assoc k l = Some a -> (k, a) ∈ l.
Proof.
  induction l as [|[k' a'] l IH]; simpl; [discriminate|].
  destruct (bool_decide (k = k')) eqn:Hk.
  - apply bool_decide_eq_true in Hk as ->. intros [= ->]. left.
  - intros H. right. apply IH, H.
Qed.

Lemma host_owned_item (ty : string) (call : option Z) (l : list pyval) map date
  (c : pyval) :
  host_owned (PyInst ty call (Some l) map date) = true -> c ∈ l ->
  host_owned c = true.
Proof.
  simpl. intros H Hc. apply andb_true_iff in H as [H _].
  apply forallb_Forall_true in H. rewrite Forall_forall in H. apply H, Hc.
Qed.

Lemma host_owned_entry (ty : string) (call : option Z) seq entries date
  (k : string) (c : pyval) :
  host_owned (PyInst ty call seq (Some entries) date) = true -> (k, c) ∈ entries ->
  host_owned c = true.
Proof.
  simpl. intros H Hc. apply andb_true_iff in H as [_ H].
  apply (forallb_Forall_true (fun kv => host_owned (snd kv))) in H.
  rewrite Forall_forall in H. apply (H _ Hc).
Qed.

Lemma py_getitem_host (js js' : JSEvaluator) (v : pyval) (k : pykey) :
  host_owned v = true -> py_getitem js' v k = py_getitem js v k.
Proof. destruct v, k; simpl; try reflexivity; discriminate. Qed.

Lemma py_getitem_host_child (js : JSEvaluator) (v : pyval) (k : pykey) (c : pyval) :
  host_owned v = true -> py_getitem js v k = Ok c -> host_owned c = true.
Proof.
  intros Hv Hc.
  destruct v as [| | | | | | |pk self inst|ty call seq map date];
    try (destruct k; discriminate).
  destruct k as [i|s]; simpl in Hc.
  - destruct seq as [l|]; [|destruct map; discriminate].
    eapply host_owned_item; [exact Hv|].
    destruct map; eapply py_index_elem, Hc.
  - destruct seq as [l|].
    + destruct map as [entries|]; [|discriminate].
      destruct (assoc s entries) eqn:Ha; [|discriminate]. injection Hc as <-.
      eapply host_owned_entry; [exact Hv|]. eapply assoc_elem, Ha.
    + destruct map as [entries|]; [|discriminate].
      destruct (assoc s entries) eqn:Ha; [|discriminate]. injection Hc as <-.
      eapply host_owned_entry; [exact Hv|]. eapply assoc_elem, Ha.
Qed.

(** Reading a host-owned value never looks at the engine. *)
Lemma py_read_host (js js' : JSEvaluator) (path : list pykey) :
  forall v, host_owned v = true -> py_read js' v path = py_read js v path.
Proof.
  induction path as [|k path IH]; intros v Hv; simpl; [reflexivity|].
  rewrite (py_getitem_host js js' v k Hv).
  destruct (py_getitem js v k) as [c|e] eqn:Hc; [|reflexivity]. simpl.
  apply IH. eapply py_getitem_host_child; eauto.
Qed.

(** Assigning inside a host-owned value never writes to the engine. *)
Lemma py_assign_host evaluate (js : JSEvaluator) (path : list pykey) (last : pykey)
  (x : pyval) :
  forall v, host_owned v = true -> snd (py_assign evaluate js v path last x) = js.
Proof.
  induction path as [|k path IH]; intros v Hv; simpl.
  - destruct v as [| | | | | | |pk self inst|ty call seq map date];
      try (destruct last; reflexivity); [discriminate|].
    destruct last as [i|s]; simpl.
    + destruct seq as [l|], map; try reflexivity;
        destruct (py_index l i); reflexivity.
    + destruct seq, map; reflexivity.
  - destruct (py_getitem js v k) as [c|e] eqn:Hc; [|reflexivity].
    specialize (IH c (py_getitem_host_child js v k c Hv Hc)).
    destruct (py_assign evaluate js c path last x) as [[c'|e] js'];
      simpl in *; exact IH.
Qed.

Lemma toPy_decoded (js : JSEvaluator) (x : QJSValue) (inst : option QJSValue) :
  heap_copyable (js_heap js) ->
  exists item, toPy js x inst = Ok item /\ decoded item /\
               (forall k v i, item = PyProxy k v i -> v = x).
Proof.
  intros Hcopy. destruct x as [| |b|d|s|r]; try (eexists; split; [reflexivity|];
    split; [exact I|discriminate]).
  - unfold toPy. simpl. unfold buildNumber.
    destruct (int_of_float d) as [n|e] eqn:Hi.
    + eexists. split; [reflexivity|]. destruct (float_eq_int d n); split;
        try exact I; discriminate.
    + destruct d; simpl in Hi; try discriminate; injection Hi as <-; simpl;
        eexists; (split; [reflexivity|]); split; try exact I; discriminate.
  - unfold toPy, isDate, isRegExp, isArray, toDateTime, class_of. simpl.
    destruct (js_heap js !! r) as [o|] eqn:Hr; simpl.
    + specialize (Hcopy r o Hr).
      destruct (o_class o); try contradiction;
        (eexists; split; [reflexivity|]; split; [exact I|]);
        try discriminate; intros ? ? ? [= _ <- _]; reflexivity.
    + eexists; split; [reflexivity|]; split; [exact I|].
      intros ? ? ? [= _ <- _]; reflexivity.
Qed.

Lemma elements_children (h : gmap nat jsobj) (self x : QJSValue) :
  x ∈ elements h self ->
  exists r o, self = QObject r /\ h !! r = Some o /\ x ∈ children o.
Proof.
  unfold elements, class_of. intros H.
  destruct self as [| | | | |r]; try solve [inversion H].
  destruct (h !! r) as [o|] eqn:Hr; simpl in H; [|inversion H].
  destruct (o_class o) eqn:Hc; try solve [inversion H].
  exists r, o. repeat split; auto.
  unfold children. rewrite Hc. apply elem_of_app. left. assumption.
Qed.

Lemma assoc_of_key {A} (key : string) (l : list (string * A)) :
  key ∈ (fst <$> l) -> exists v, assoc key l = Some v /\ v ∈ (snd <$> l).
Proof.
  induction l as [|[k a] l IH]; simpl; intros H; [inversion H|].
  destruct (bool_decide (key = k)) eqn:Hk.
  - exists a. split; [reflexivity|left].
  - apply bool_decide_eq_false in Hk.
    apply elem_of_cons in H as [H|H]; [contradiction|].
    destruct (IH H) as (v & Hv & Hin). exists v. split; [assumption|right; assumption].
Qed.

Lemma JSObject_getitem_own (js : JSEvaluator) (self : QJSValue) (key : string) :
  key ∈ JSObject.__iter__ js self ->
  exists r o x,
    self = QObject r /\ js_heap js !! r = Some o /\ x ∈ children o /\
    JSObject.__getitem__ js self key = toPy js x (Some self).
Proof.
  unfold JSObject.__iter__. intros Hkey.
  destruct self as [| | | | |r]; try solve [inversion Hkey].
  destruct (js_heap js !! r) as [o|] eqn:Hr; [|inversion Hkey].
  destruct (assoc_of_key _ _ Hkey) as (x & Hx & Hin).
  exists r, o, x. repeat split; auto.
  - unfold children. apply elem_of_app. right. assumption.
  - unfold JSObject.__getitem__, JSObject._get, hasProperty, property.
    assert (Hl : lookup_chain (size (js_heap js)) (js_heap js) r key = Some x).
    { destruct (size (js_heap js)); simpl; rewrite Hr, Hx; reflexivity. }
    rewrite Hl. rewrite bool_decide_eq_true_2 by eauto. reflexivity.
Qed.

(** On a heap without cycles, regular expressions and error objects, a
    recursion limit above the depth of the structure is enough for
    [deepcopy] to return. *)
Lemma deepcopy_total (js : JSEvaluator) (rank : nat -> nat) :
  heap_acyclic (js_heap js) rank -> heap_copyable (js_heap js) ->
  forall fuel v, decoded v -> (depth_of rank v < fuel)%nat ->
    exists b, deepcopy fuel js v = Ok b.
Proof.
  intros Hacyc Hcopy. induction fuel as [|fuel IH]; intros v Hdec Hdepth; [lia|].
  assert (Hitem : forall (self x : QJSValue) k inst r o,
            self = QObject r -> js_heap js !! r = Some o -> x ∈ children o ->
            (depth_of rank (PyProxy k self inst) < S fuel)%nat ->
            exists y, (toPy js x (Some self) ≫= deepcopy fuel js) = Ok y).
  { intros self x k inst r o -> Hr Hx Hd. simpl in Hd.
    destruct (toPy_decoded js x (Some (QObject r)) Hcopy) as (item & -> & Hdi & Hval).
    simpl. apply IH; [assumption|].
    destruct item as [| | | | | | |k' v' i'|]; simpl; try lia.
    rewrite (Hval _ _ _ eq_refl).
    destruct x as [| | | | |r']; try lia.
    specialize (Hacyc r o r' Hr Hx). lia. }
  destruct v as [| | | | | | |k self inst|ty call seq map date];
    try (eexists; reflexivity); try contradiction.
  - destruct k; simpl.
    + match goal with |- context [mapM ?f ?l] =>
        destruct (mapM_total f l) as [items Hitems]
      end.
      { intros i Hi. unfold JSArray.indices in Hi.
        apply list_elem_of_fmap in Hi as (n & -> & Hn).
        apply elem_of_seq in Hn. unfold JSArray.__len__ in Hn.
        rewrite Nat2Z.id in Hn.
        rewrite JSArray_getitem_spec.
        assert (Hneg : (Z.of_nat n <? 0) = false) by (apply Z.ltb_ge; lia).
        rewrite Hneg. rewrite Nat2Z.id.
        destruct (elements (js_heap js) self !! n) as [x|] eqn:Hx;
          [|apply lookup_ge_None in Hx; lia].
        unfold JSArray.__len__.
        assert (Hr : (0 <=? Z.of_nat n) && (Z.of_nat n <? Z.of_nat (length (elements (js_heap js) self))) = true).
        { apply andb_true_iff. split; [apply Z.leb_le|apply Z.ltb_lt]; lia. }
        rewrite Hr.
        destruct (elements_children _ _ _ (list_elem_of_lookup_2 _ _ _ Hx))
          as (r & o & Hs & Ho & Hc).
        eapply Hitem; eauto. }
      rewrite Hitems. eexists. reflexivity.
    + match goal with |- context [mapM ?f ?l] =>
        destruct (mapM_total f l) as [items Hitems]
      end.
      { intros key Hkey.
        destruct (JSObject_getitem_own js self key Hkey) as (r & o & x & Hs & Ho & Hc & ->).
        destruct (Hitem self x ProxyObject inst r o Hs Ho Hc Hdepth) as [y Hy].
        apply bind_Ok in Hy as (item & -> & Hy). simpl. rewrite Hy.
        eexists. reflexivity. }
      rewrite Hitems. eexists. reflexivity.
  - simpl in Hdec. destruct seq; [contradiction|]. destruct map; [contradiction|].
    eexists. reflexivity.
Qed.

(** C8.  Snapshot isolation.  When [deepcopy] of a proxy returns, the result
    is a host list or a [JSObjectCopy] in which no proxy occurs, at any
    depth; so no assignment into the copy, at any path, changes the
    evaluator (the underlying script value included), and whatever state the
    evaluator is in later, reading the copy at any path gives what it gave.
    And [deepcopy] does return whenever the heap has no cycles, regular
    expressions or error objects and the recursion limit exceeds the depth of
    the copied structure. *)
Theorem deepcopy_snapshot_isolated evaluate (js : JSEvaluator) (k : proxykind)
  (self : QJSValue) (inst : option QJSValue) :
  (forall fuel b, deepcopy fuel js (PyProxy k self inst) = Ok b ->
     ((exists items, b = PyList items) \/ (exists entries, b = JSObjectCopy entries)) /\
     host_owned b = true /\
     (forall path last x, snd (py_assign evaluate js b path last x) = js) /\
     (forall js' path, py_read js' b path = py_read js b path)) /\
  (forall rank fuel,
     heap_acyclic (js_heap js) rank -> heap_copyable (js_heap js) ->
     (depth_of rank (PyProxy k self inst) < fuel)%nat ->
     exists b, deepcopy fuel js (PyProxy k self inst) = Ok b).
Proof.
  split.
  - intros fuel b Hb.
    pose proof (deepcopy_host_owned fuel js _ _ Hb) as Hown.
    split; [|split; [exact Hown|split]].
    + destruct fuel as [|fuel]; [discriminate|]. simpl in Hb. destruct k.
      * apply bind_Ok in Hb as (items & _ & Hb). injection Hb as <-. eauto.
      * apply bind_Ok in Hb as (items & _ & Hb). injection Hb as <-. eauto.
    + intros path last x. apply py_assign_host. exact Hown.
    + intros js' path. apply py_read_host. exact Hown.
  - intros rank fuel Hacyc Hcopy Hdepth.
    eapply deepcopy_total; eauto. exact I.
Qed.

Lemma js_nested_acyclic : heap_acyclic (js_heap js_nested) (fun r => (1 - r)%nat).
Proof.
  intros r o r' Hr Hin. simpl in Hr.
  apply lookup_insert_Some in Hr as [[<- <-]|[_ Hr]].
  - unfold children in Hin. simpl in Hin.
    apply list_elem_of_singleton in Hin. injection Hin as ->. simpl. lia.
  - apply lookup_singleton_Some in Hr as [<- <-].
    unfold children in Hin. simpl in Hin.
    apply list_elem_of_singleton in Hin. discriminate.
Qed.

Lemma js_nested_copyable : heap_copyable (js_heap js_nested).
Proof.
  intros r o Hr. simpl in Hr.
  apply lookup_insert_Some in Hr as [[<- <-]|[_ Hr]]; [exact I|].
  apply lookup_singleton_Some in Hr as [<- <-]. exact I.
Qed.

Lemma deepcopy_snapshot_witness :
  deepcopy 3 js_nested (PyProxy ProxyArray (QObject 0%nat) None)
    = Ok (PyList [JSObjectCopy [("key", PyInt 1)]]) /\
  py_assign evaluate_42 js_nested (PyList [JSObjectCopy [("key", PyInt 1)]])
    [KIndex 0] (KName "key") (PyInt 2)
    = (Ok (PyList [JSObjectCopy [("key", PyInt 2)]]), js_nested) /\
  JSObject.__getitem__ js_nested (QObject 1%nat) "key" = Ok (PyInt 1).
Proof.
  destruct (deepcopy_snapshot_isolated evaluate_42 js_nested ProxyArray
              (QObject 0%nat) None) as [Hiso Htotal].
  destruct (Htotal (fun r => (1 - r)%nat) 3%nat js_nested_acyclic js_nested_copyable)
    as [b Hb]; [simpl; lia|].
  assert (Hcopy : deepcopy 3 js_nested (PyProxy ProxyArray (QObject 0%nat) None)
                  = Ok (PyList [JSObjectCopy [("key", PyInt 1)]])) by reflexivity.
  destruct (Hiso _ _ Hcopy) as (_ & _ & Hassign & _).
  split; [exact Hcopy|]. split; [|reflexivity].
  specialize (Hassign [KIndex 0] (KName "key") (PyInt 2)).
  destruct (py_assign _ _ _ _ _ _) as [res js'] eqn:Hres. simpl in Hassign. subst js'.
  f_equal. vm_compute in Hres. injection Hres as <-. reflexivity.
Defined.

(** A shallow copy, by contrast, keeps proxies of the nested values: the
    same assignment through it reaches the engine. *)
Lemma copy_not_isolated :
  JSArray.__copy__ js_nested (QObject 0%nat)
    = Ok (PyList [PyProxy ProxyObject (QObject 1%nat) (Some (QObject 0%nat))]) /\
  JSObject.__getitem__
    (snd (py_assign evaluate_42 js_nested
            (PyList [PyProxy ProxyObject (QObject 1%nat) (Some (QObject 0%nat))])
            [KIndex 0] (KName "key") (PyInt 2)))
    (QObject 1%nat) "key" = Ok (PyInt 2).
Proof. split; reflexivity. Qed.

(** ** The dispatcher's two binding strategies *)




(** ** Exceptions of host callables, seen from the script and back *)

Lemma iter_empty_array (js : JSEvaluator) (r : nat) own proto :
  js_heap js !! r = Some (JsObj (CArray []) own proto) ->
  JSArray.__iter__ js (QObject r) = Ok [].
Proof.
  intros H. unfold JSArray.__iter__, JSArray.indices, JSArray.__len__, elements, class_of.
  rewrite H. reflexivity.
Qed.

Lemma wrapper_raises evaluate (jseval_dir : string) py_call (id stack : string)
  (js : JSEvaluator) (func : pyval) (e : pyexc) (tb : list frame) (js' : JSEvaluator) :
  js_funcs js !! id = Some func ->
  py_call func [] [] (dispatch_state js) = (Raised e tb, js') ->
  wrapper evaluate jseval_dir py_call id [] stack js
    = (Throw (QObject (fresh (dom (js_heap js')))), thrown_state jseval_dir stack e tb js').
Proof.
  intros Hfunc Hcall. unfold wrapper, alloc, callback. simpl.
  rewrite Hfunc.
  erewrite iter_empty_array; [|simpl; apply lookup_insert_eq].
  unfold call_with_kwargs. simpl.
  change (with_args (with_args ?x _) None) with (with_args x None).
  fold (dispatch_state js). rewrite Hcall.
  unfold thrown_state. destruct (negb (isinstance e JSError)); reflexivity.
Qed.

Lemma toPy_thrown (jseval_dir stack : string) (e : pyexc) (tb : list frame)
  (js : JSEvaluator) :
  let js' := thrown_state jseval_dir stack e tb js in
  toPy js' (QObject (fresh (dom (js_heap js)))) None =
    (e' ← buildPyError js'
            (default (class_name (exc_class e)) (exc_name e))
            (message_text (exc_message e)) stack
            (filteredTb jseval_dir (callback_entry jseval_dir :: tb)
             ++ default [] (exc_oldTraceback e));
     Ok (PyException e')).
Proof.
  simpl. unfold toPy, isDate, isRegExp, isArray, class_of. simpl.
  unfold thrown_state. simpl. rewrite lookup_insert_eq. reflexivity.
Qed.

(** Kind fidelity on the path the second strategy takes: a callable called
    from a script without arguments raises an exception of a host kind [K]
    (not a bridged error, no [name] attribute of its own) with message [m];
    the wrapper throws, and when that error reaches the host again it is
    raised as a [K] with message [m], its trace being the script frames
    followed by the host frames. *)
Lemma exception_kind_fidelity evaluate (jseval_dir : string) py_call (id stack : string)
  (js : JSEvaluator) (func : pyval) (e : pyexc) (tb : list frame) (js' : JSEvaluator)
  (m : string) (frames : list frame) :
  js_funcs js !! id = Some func ->
  py_call func [] [] (dispatch_state js) = (Raised e tb, js') ->
  isinstance e JSError = false -> exc_name e = None -> exc_message e = ArgStr m ->
  stackInfo_of (js_codeStore js') stack = Ok frames ->
  exists err js'',
    wrapper evaluate jseval_dir py_call id [] stack js = (Throw err, js'') /\
    pythonExceptionStore js'' !! class_name (exc_class e) = Some (exc_class e) /\
    (x ← toPy js'' err None; throwIfNecessary x)
      = Raise (PyExc (exc_class e) (ArgStr m) None
                 (Some (frames ++ filteredTb jseval_dir (callback_entry jseval_dir :: tb)
                        ++ default [] (exc_oldTraceback e)))).
Proof.
  intros Hfunc Hcall Hjs Hname Hmsg Hstack.
  eexists _, _. split; [eapply wrapper_raises; eauto|].
  split.
  - unfold thrown_state. rewrite Hjs. simpl. apply lookup_insert_eq.
  - rewrite toPy_thrown. unfold buildPyError.
    replace (js_codeStore (thrown_state jseval_dir stack e tb js'))
      with (js_codeStore js')
      by (unfold thrown_state; destruct (negb _); reflexivity).
    rewrite Hstack. simpl.
    rewrite Hname, Hmsg. simpl.
    rewrite Hjs. simpl. rewrite lookup_insert_eq. reflexivity.
Qed.

(** C2 fails on this input (a defect of the code).  The script calls the
    registered callable with one argument, an empty object; the first
    strategy binds (no positional argument, no keyword) and the callable
    raises [DomainError("x")].  [callback] lets that exception go: nothing
    is written on the slot and the kind is not recorded.  The wrapper finds
    no result and the script fails with a [TypeError], which is what the host
    catches; called without the argument, the same callable's error comes
    back as [DomainError("x")]. *)
Theorem failure_under_keyword_binding_not_bridged :
  callback evaluate_42 "/opt/jseval" py_call_domain_error "1" js_call_with_object
    = (Some (new_exc DomainError (ArgStr "x")), with_args js_call_with_object None) /\
  (let r := wrapper evaluate_42 "/opt/jseval" py_call_domain_error "1"
              [QObject 0%nat] stack_in_wrapper js_checked in
   fst r = Throw (QObject 2%nat) /\
   pythonExceptionStore (snd r) !! "DomainError" = None /\
   (x ← toPy (snd r) (QObject 2%nat) None; throwIfNecessary x)
     = Raise (PyExc TypeError (ArgStr "Cannot read property 'type' of undefined")
                None
                (Some [Frame "<JS string 1>" 1 "<global scope>" "check({})"]))) /\
  (let r := wrapper evaluate_42 "/opt/jseval" py_call_domain_error "1"
              [] stack_in_wrapper js_checked in
   fst r = Throw (QObject 2%nat) /\
   (x ← toPy (snd r) (QObject 2%nat) None; throwIfNecessary x)
     = Raise (PyExc DomainError (ArgStr "x") None
                (Some [Frame "<JS string 1>" 1 "<global scope>" "check({})";
                       Frame "rules.py" 12 "check" "raise DomainError('x')"]))).
Proof. repeat split; vm_compute; reflexivity. Qed.

(** ** The script frames of an error, as the engine renders them *)

Lemma append_cons (x : ascii) (a b : string) :
  String x a +:+ b = String x (a +:+ b).
Proof. reflexivity. Qed.

Lemma append_nil_l (b : string) : "" +:+ b = b.
Proof. reflexivity. Qed.

Lemma append_assoc (a b c : string) : (a +:+ b) +:+ c = a +:+ (b +:+ c).
Proof.
  induction a as [|x a IH]; rewrite ?append_nil_l, ?append_cons; [reflexivity|].
  f_equal. exact IH.
Qed.

Lemma break_at_append (c : ascii) (a b : string) :
  has_char c a = false -> break_at c (a +:+ String c b) = Some (a, b).
Proof.
  induction a as [|x a IH]; rewrite ?append_nil_l, ?append_cons; simpl; intros H.
  - rewrite Ascii.eqb_refl. reflexivity.
  - apply orb_false_iff in H as [Hx Ha]. rewrite Hx, (IH Ha). reflexivity.
Qed.

Lemma pretty_N_char_digit (d : N) :
  (d < 10)%N ->
  is_digit (pretty_N_char d) = true /\
  Z.of_nat (Ascii.nat_of_ascii (pretty_N_char d)) - 48 = Z.of_N d.
Proof.
  intros Hd.
  assert (d = 0 \/ d = 1 \/ d = 2 \/ d = 3 \/ d = 4 \/ d = 5 \/ d = 6 \/ d = 7
          \/ d = 8 \/ d = 9)%N as Hcases by lia.
  repeat (destruct Hcases as [->|Hcases]; [split; reflexivity|]).
  subst. split; reflexivity.
Qed.

Lemma pretty_N_go_append (x : N) :
  forall s, pretty_N_go x s = pretty_N_go x "" +:+ s.
Proof.
  induction (N.lt_wf_0 x) as [x _ IH]; intros s.
  destruct (N.eq_dec x 0%N) as [->|Hx]; [reflexivity|].
  rewrite (pretty_N_go_step x s), (pretty_N_go_step x "") by lia.
  assert (Hlt : (x `div` 10 < x)%N) by (apply N.div_lt; lia).
  rewrite (IH _ Hlt (String _ s)), (IH _ Hlt (String _ "")).
  rewrite append_assoc. reflexivity.
Qed.

Lemma digits_value_append (a b : string) (acc : Z) :
  digits_value (a +:+ b) acc = digits_value b (digits_value a acc).
Proof.
  revert acc. induction a as [|x a IH]; intros acc;
    rewrite ?append_nil_l, ?append_cons; simpl; [reflexivity|apply IH].
Qed.

Lemma take_digits_append (a b : string) :
  take_digits a = a -> take_digits b = b -> take_digits (a +:+ b) = a +:+ b.
Proof.
  induction a as [|x a IH]; rewrite ?append_nil_l, ?append_cons; simpl;
    intros Ha Hb; [exact Hb|].
  destruct (is_digit x); [|discriminate]. injection Ha as Ha.
  rewrite (IH Ha Hb). reflexivity.
Qed.

Lemma pretty_N_go_digits (x : N) :
  take_digits (pretty_N_go x "") = pretty_N_go x "" /\
  digits_value (pretty_N_go x "") 0 = Z.of_N x.
Proof.
  induction (N.lt_wf_0 x) as [x _ IH].
  destruct (N.eq_dec x 0%N) as [->|Hx]; [split; reflexivity|].
  rewrite (pretty_N_go_step x "") by lia.
  rewrite pretty_N_go_append.
  destruct (IH (x `div` 10)%N) as [Htake Hval]; [apply N.div_lt; lia|].
  destruct (pretty_N_char_digit (x `mod` 10)%N) as [Hdig Hcode];
    [apply N.mod_lt; lia|].
  split.
  - apply take_digits_append; [exact Htake|]. simpl. rewrite Hdig. reflexivity.
  - rewrite digits_value_append, Hval. simpl. rewrite Hcode.
    rewrite (N.div_mod x 10) at 3 by lia. lia.
Qed.

Lemma pretty_N_digits (n : N) :
  take_digits (pretty n) = pretty n /\ int_of_digits (pretty n) = Ok (Z.of_N n).
Proof.
  unfold pretty, pretty_N. destruct (decide (n = 0%N)) as [->|Hn].
  - split; reflexivity.
  - destruct (pretty_N_go_digits n) as [Htake Hval]. split; [exact Htake|].
    unfold int_of_digits. rewrite Hval.
    destruct (pretty_N_go n "") eqn:Hs; [|reflexivity].
    simpl in Hval. lia.
Qed.

Lemma render_shape (f : sframe) :
  render f = sf_func f +:+ String "@" (sf_path f +:+ String ":" (pretty (sf_line f))).
Proof. reflexivity. Qed.

(** A rendered frame of user code is read back as its traceback entry. *)
Lemma stack_item_render (codeStore : gmap string string) (f : sframe) :
  sframe_ok codeStore f = true ->
  stack_item codeStore (render f) = Ok (user_frame codeStore f).
Proof.
  unfold sframe_ok. intros H.
  apply andb_true_iff in H as [H Hsrc]. apply andb_true_iff in H as [H _].
  apply andb_true_iff in H as [H _]. apply andb_true_iff in H as [Hfunc Hpath].
  apply negb_true_iff in Hfunc, Hpath.
  unfold stack_item, JS_STACK_RE_match. rewrite render_shape.
  rewrite (break_at_append _ _ _ Hfunc). simpl.
  rewrite (break_at_append _ _ _ Hpath). simpl.
  destruct (pretty_N_digits (sf_line f)) as [-> ->]. simpl.
  unfold user_frame.
  destruct (codeStore !! sf_path f) as [text|]; [|discriminate]. simpl.
  apply andb_true_iff in Hsrc as [Hpos Hlen].
  apply N.ltb_lt in Hpos. apply Nat.leb_le in Hlen.
  unfold py_index.
  assert (Hneg : (Z.of_N (sf_line f) - 1 <? 0) = false) by (apply Z.ltb_ge; lia).
  rewrite Hneg.
  assert (Hin : (0 <=? Z.of_N (sf_line f) - 1)
                && (Z.of_N (sf_line f) - 1 <? Z.of_nat (length (split newline text)))
                = true).
  { apply andb_true_iff. split; [apply Z.leb_le|apply Z.ltb_lt]; lia. }
  rewrite Hin.
  replace (Z.to_nat (Z.of_N (sf_line f) - 1)) with (N.to_nat (sf_line f) - 1)%nat by lia.
  destruct (split newline text !! (N.to_nat (sf_line f) - 1)%nat) as [code|] eqn:Hc;
    [reflexivity|].
  apply lookup_ge_None in Hc. lia.
Qed.

Lemma split_no_newline (l : string) :
  has_char newline l = false -> split newline l = [l].
Proof.
  induction l as [|x l IH]; simpl; intros H; [reflexivity|].
  apply orb_false_iff in H as [Hx Hl]. rewrite Hx, (IH Hl). reflexivity.
Qed.

Lemma split_line (l rest : string) :
  has_char newline l = false ->
  split newline (l +:+ String newline rest) = l :: split newline rest.
Proof.
  induction l as [|x l IH]; rewrite ?append_nil_l, ?append_cons; simpl; intros H.
  - reflexivity.
  - apply orb_false_iff in H as [Hx Hl]. rewrite Hx, (IH Hl). reflexivity.
Qed.

Lemma split_join (lines : list string) :
  lines <> [] -> Forall (fun l => has_char newline l = false) lines ->
  split newline (join lines) = lines.
Proof.
  induction lines as [|l lines IH]; intros Hne Hall; [contradiction|].
  inversion Hall as [|? ? Hl Hrest]; subst.
  destruct lines as [|l' lines].
  - simpl. apply split_no_newline, Hl.
  - change (join (l :: l' :: lines)) with (l +:+ String newline (join (l' :: lines))).
    rewrite (split_line _ _ Hl). f_equal. apply IH; [discriminate|assumption].
Qed.

Lemma takewhile_prefix {A} (p : A -> bool) (l1 l2 : list A) :
  Forall (fun x => p x = true) l1 ->
  match l2 with [] => True | x :: _ => p x = false end ->
  takewhile p (l1 ++ l2) = l1.
Proof.
  induction l1 as [|x l1 IH]; simpl; intros H1 H2.
  - destruct l2 as [|y l2]; [reflexivity|]. simpl. rewrite H2. reflexivity.
  - inversion H1 as [|? ? Hx Hrest]; subst. rewrite Hx. f_equal. apply IH; assumption.
Qed.

(** The loop of [buildPyError] converts the lines in order and leaves them
    reversed in front of what [stackInfo] held. *)
Lemma stack_loop_mapM (codeStore : gmap string string) (stack : list string) :
  forall stackInfo,
    stack_loop codeStore stack stackInfo =
      (frames ← mapM (stack_item codeStore) stack; Ok (rev frames ++ stackInfo)).
Proof.
  induction stack as [|item stack IH]; intros stackInfo; [reflexivity|].
  rewrite mapM_cons. simpl.
  destruct (stack_item codeStore item) as [fr|e]; simpl; [|reflexivity].
  rewrite IH. destruct (mapM (stack_item codeStore) stack) as [frames|e]; simpl;
    [|reflexivity].
  rewrite <- app_assoc. reflexivity.
Qed.

Lemma mapM_render (codeStore : gmap string string) (frames : list sframe) :
  forallb (sframe_ok codeStore) frames = true ->
  mapM (stack_item codeStore) (render <$> frames) = Ok (user_frame codeStore <$> frames).
Proof.
  induction frames as [|f frames IH]; intros H; [reflexivity|].
  simpl in H. apply andb_true_iff in H as [Hf Hrest].
  rewrite !fmap_cons, mapM_cons, (stack_item_render _ _ Hf). simpl.
  rewrite (IH Hrest). reflexivity.
Qed.

Lemma sframe_ok_line (codeStore : gmap string string) (f : sframe) :
  sframe_ok codeStore f = true ->
  contains INIT_SCRIPT_NAME (render f) = false /\ has_char newline (render f) = false.
Proof.
  unfold sframe_ok. intros H.
  apply andb_true_iff in H as [H _]. apply andb_true_iff in H as [H Hnl].
  apply andb_true_iff in H as [_ Hinit].
  apply negb_true_iff in Hnl, Hinit. auto.
Qed.

(** From a [stack] text to [stackInfo]: of the frames of the innermost
    script segment, a wrapper frame possibly above them and other segments
    below, exactly the segment's frames remain, outermost first. *)
Lemma stackInfo_of_segment (codeStore : gmap string string) (lead : bool)
  (frames : list sframe) (outer : list string) :
  frames <> [] -> forallb (sframe_ok codeStore) frames = true -> outer_ok outer ->
  stackInfo_of codeStore
    (join ((if lead then [wrapper_line] else []) ++ (render <$> frames) ++ outer))
  = Ok (rev (user_frame codeStore <$> frames)).
Proof.
  intros Hne Hok [Hnl Hhead].
  assert (Hall : Forall (fun f => sframe_ok codeStore f = true) frames)
    by (apply forallb_Forall_true; exact Hok).
  assert (Hlines : Forall (fun l => has_char newline l = false) (render <$> frames)).
  { apply Forall_fmap. eapply Forall_impl; [exact Hall|].
    intros f Hf. apply (sframe_ok_line _ _ Hf). }
  assert (Hkeep : Forall (fun l => negb (contains INIT_SCRIPT_NAME l) = true)
                    (render <$> frames)).
  { apply Forall_fmap. eapply Forall_impl; [exact Hall|].
    intros f Hf. simpl. apply negb_true_iff. apply (sframe_ok_line _ _ Hf). }
  assert (Htake : takewhile (fun x => negb (contains INIT_SCRIPT_NAME x))
                    ((render <$> frames) ++ outer) = render <$> frames).
  { apply takewhile_prefix; [exact Hkeep|].
    destruct outer as [|w outer]; [exact I|]. rewrite Hhead. reflexivity. }
  unfold stackInfo_of. rewrite split_join.
  - destruct lead; simpl.
    + rewrite Htake, stack_loop_mapM, (mapM_render _ _ Hok). simpl.
      rewrite app_nil_r. reflexivity.
    + destruct frames as [|f frames]; [contradiction|].
      inversion Hall as [|? ? Hf _]; subst.
      rewrite fmap_cons. simpl ((_ :: _) ++ _).
      destruct (sframe_ok_line _ _ Hf) as [-> _].
      change (render f :: (render <$> frames) ++ outer)
        with ((render <$> f :: frames) ++ outer).
      rewrite Htake, stack_loop_mapM, (mapM_render _ _ Hok). simpl.
      rewrite app_nil_r. reflexivity.
  - destruct lead; simpl; [discriminate|].
    destruct frames; [contradiction|discriminate].
  - apply Forall_app. split.
    + destruct lead; constructor; [reflexivity|constructor].
    + apply Forall_app. split; assumption.
Qed.

(** ** Call chains that alternate between host and script *)

Section ChainFacts.
Variable evaluate : string -> string -> Z -> JSEvaluator -> QJSValue * JSEvaluator.
Variable jseval_dir : string.
Variable codeStore : gmap string string.
Variable funcs : gmap string pyval.

Lemma filteredTb_user (tb : list frame) :
  tb_ok jseval_dir tb = true -> filteredTb jseval_dir tb = tb.
Proof.
  unfold tb_ok, filteredTb. induction tb as [|item tb IH]; simpl; intros H;
    [reflexivity|].
  apply andb_true_iff in H as [Hitem Hrest]. apply bool_decide_eq_true in Hitem.
  rewrite filter_cons_True by exact Hitem. f_equal. apply IH, Hrest.
Qed.

Lemma filteredTb_bridge (tb : list frame) :
  tb_ok jseval_dir tb = true ->
  filteredTb jseval_dir (callback_entry jseval_dir :: tb) = tb /\
  filteredTb jseval_dir
    (callback_entry jseval_dir :: tb ++ proxy_call_entries jseval_dir) = tb.
Proof.
  intros H.
  assert (Hinit : jseval_dir +:+ "/__init__.py" ∈ JSEVAL_MASKED_FILES jseval_dir)
    by (left).
  assert (Hprox : jseval_dir +:+ "/pyproxies.py" ∈ JSEVAL_MASKED_FILES jseval_dir)
    by (right; left).
  unfold filteredTb in *. split.
  - rewrite filter_cons_False by (simpl; intros Hn; exact (Hn Hinit)).
    apply (filteredTb_user _ H).
  - rewrite filter_cons_False by (simpl; intros Hn; exact (Hn Hinit)).
    rewrite filter_app. unfold proxy_call_entries.
    rewrite !filter_cons_False by (simpl; intros Hn; auto).
    rewrite filter_nil, app_nil_r. apply (filteredTb_user _ H).
Qed.

Lemma thrown_state_stores (stack : string) (e : pyexc) (tb : list frame)
  (js : JSEvaluator) :
  js_codeStore (thrown_state jseval_dir stack e tb js) = js_codeStore js /\
  js_funcs (thrown_state jseval_dir stack e tb js) = js_funcs js.
Proof. unfold thrown_state. destruct (negb _); split; reflexivity. Qed.

(** Unwinding a chain of user code: the error a script segment hands to the
    host decodes to an exception whose trace is the frames of the chain from
    that segment inwards, and the exception a callable ends with carries,
    after the dispatcher's filter, the frames from the callable inwards. *)
Lemma unwind_trace :
  (forall hc outer js,
     host_ok jseval_dir codeStore funcs hc = true -> outer_ok outer ->
     js_codeStore js = codeStore -> js_funcs js = funcs ->
     exists e tb' js',
       host_unwind evaluate jseval_dir outer hc js = (Raised e tb', js') /\
       filteredTb jseval_dir (callback_entry jseval_dir :: tb')
         ++ default [] (exc_oldTraceback e) = trace_host codeStore hc /\
       js_codeStore js' = codeStore /\ js_funcs js' = funcs) /\
  (forall sc outer js,
     script_ok jseval_dir codeStore funcs sc = true -> outer_ok outer ->
     js_codeStore js = codeStore -> js_funcs js = funcs ->
     exists v js' e,
       script_unwind evaluate jseval_dir outer sc js = (v, js') /\
       toPy js' v None = Ok (PyException e) /\
       exc_oldTraceback e = Some (trace_script codeStore sc) /\
       js_codeStore js' = codeStore /\ js_funcs js' = funcs).
Proof.
  assert (Hframes : forall frames, frames_ok codeStore frames = true ->
            frames <> [] /\ forallb (sframe_ok codeStore) frames = true).
  { intros frames H. apply andb_true_iff in H as [Hne Hall].
    apply negb_true_iff, bool_decide_eq_false in Hne. auto. }
  apply chain_mutind.
  - (* the callable raises *)
    intros tb e outer js Hok _ Hcs Hf. simpl in Hok.
    exists e, tb, js. simpl. repeat split; auto.
    rewrite (proj1 (filteredTb_bridge tb Hok)). reflexivity.
  - (* the callable calls a script function that fails *)
    intros tb callee IH outer js Hok Houter Hcs Hf. simpl in Hok.
    apply andb_true_iff in Hok as [Htb Hcallee].
    destruct (IH outer js Hcallee Houter Hcs Hf)
      as (v & js' & e & Hun & Hpy & Htrace & Hcs' & Hf').
    exists e, (tb ++ proxy_call_entries jseval_dir), js'.
    simpl. rewrite Hun, Hpy. simpl.
    repeat split; auto.
    rewrite (proj2 (filteredTb_bridge tb Htb)), Htrace. reflexivity.
  - (* the script throws *)
    intros frames name message outer js Hok Houter Hcs Hf. simpl in Hok.
    destruct (Hframes _ Hok) as [Hne Hall].
    eexists _, _, _. simpl. split; [reflexivity|]. unfold alloc.
    split; [|split; [|split; assumption]].
    + unfold toPy, isDate, isRegExp, isArray, class_of. simpl.
      rewrite lookup_insert_eq. simpl.
      unfold buildPyError. simpl. rewrite Hcs.
      pose proof (stackInfo_of_segment codeStore false frames outer Hne Hall Houter)
        as Hstack.
      change (stackInfo_of codeStore (join ((render <$> frames) ++ outer))
              = Ok (rev (user_frame codeStore <$> frames))) in Hstack.
      rewrite Hstack. simpl. reflexivity.
    + simpl. rewrite app_nil_r. reflexivity.
  - (* the script calls a callable that fails *)
    intros frames id callee IH outer js Hok Houter Hcs Hf. simpl in Hok.
    apply andb_true_iff in Hok as [Hok Hcallee].
    apply andb_true_iff in Hok as [Hfr Hid].
    destruct (Hframes _ Hfr) as [Hne Hall].
    apply bool_decide_eq_true in Hid as [func Hfunc].
    assert (Houter' : outer_ok (wrapper_line :: (render <$> frames) ++ outer)).
    { destruct Houter as [Hnl _]. split; [|reflexivity].
      constructor; [reflexivity|]. apply Forall_app. split; [|exact Hnl].
      apply Forall_fmap. apply forallb_Forall_true in Hall.
      eapply Forall_impl; [exact Hall|]. intros f Hok. apply (sframe_ok_line _ _ Hok). }
    destruct (IH (wrapper_line :: (render <$> frames) ++ outer) (dispatch_state js)
                Hcallee Houter' Hcs Hf)
      as (e & tb' & js' & Hun & Htrace & Hcs' & Hf').
    cbn [script_unwind].
    erewrite wrapper_raises; [|rewrite Hf; exact Hfunc|exact Hun].
    eexists _, _, _. split; [reflexivity|].
    destruct (thrown_state_stores
                (join (wrapper_line :: (render <$> frames) ++ outer)) e tb' js')
      as [Hcs'' Hf''].
    split; [|split; [|split; congruence]].
    + rewrite toPy_thrown. unfold buildPyError. rewrite Hcs'', Hcs'.
      pose proof (stackInfo_of_segment codeStore true frames outer Hne Hall Houter)
        as Hstack.
      change (stackInfo_of codeStore
                (join (wrapper_line :: (render <$> frames) ++ outer))
              = Ok (rev (user_frame codeStore <$> frames))) in Hstack.
      rewrite Hstack. simpl. reflexivity.
    + simpl. rewrite Htrace. reflexivity.
Qed.
End ChainFacts.

(** ** The trace of a decoded script error *)



(** ** Labels, the source store and the line of a failure *)



(* ================================================================== *)
(** * Part V: properties of the rest of the code *)
(* ================================================================== *)

(** ** Array proxies: iteration, deletion, insertion and assignment *)

Lemma mapM_seq_lookup {A B} (f : Z -> result B) (g : A -> result B) (l : list A) :
  forall k : nat,
    (forall i x, l !! i = Some x -> f (Z.of_nat (k + i)) = g x) ->
    mapM f (Z.of_nat <$> seq k (length l)) = mapM g l.
Proof.
  induction l as [|a l IH]; intros k Hfg; [reflexivity|].
  simpl length. simpl seq. rewrite fmap_cons, !mapM_cons.
  rewrite <- (Hfg 0%nat a eq_refl), Nat.add_0_r.
  rewrite (IH (S k)); [reflexivity|].
  intros i x Hx. rewrite <- (Hfg (S i) x Hx). f_equal. lia.
Qed.

Lemma mapM_length {A B} (f : A -> result B) (l : list A) (ys : list B) :
  mapM f l = Ok ys -> length ys = length l.
Proof.
  intros H. apply mapM_Ok in H. symmetry. eapply Forall2_length; eauto.
Qed.

Lemma mapM_Raise {A B} (f : A -> result B) (l : list A) (e : pyexc) :
  mapM f l = Raise e -> exists x, x ∈ l /\ f x = Raise e.
Proof.
  induction l as [|x l IH]; intros H; [discriminate H|].
  rewrite mapM_cons in H.
  destruct (f x) as [v|e'] eqn:Hx; simpl in H.
  - destruct (mapM f l) as [vs|e''] eqn:Hl; [discriminate H|].
    simpl in H. injection H as <-.
    destruct (IH eq_refl) as (y & Hy & Hraise).
    exists y. split; [right; exact Hy|exact Hraise].
  - injection H as <-. exists x. split; [left|exact Hx].
Qed.

Lemma JSArray_getitem_at (js : JSEvaluator) (self : QJSValue) (i : nat) (x : QJSValue) :
  elements (js_heap js) self !! i = Some x ->
  JSArray.__getitem__ js self (Z.of_nat i) = toPy js x (Some self).
Proof.
  intros Hx. rewrite JSArray_getitem_spec.
  pose proof (lookup_lt_Some _ _ _ Hx) as Hlt.
  destruct (Z.of_nat i <? 0) eqn:Hneg; [apply Z.ltb_lt in Hneg; lia|].
  rewrite Nat2Z.id, Hx.
  replace ((0 <=? Z.of_nat i) && (Z.of_nat i <? JSArray.__len__ js self)) with true;
    [reflexivity|].
  symmetry. apply andb_true_iff. unfold JSArray.__len__.
  split; [apply Z.leb_le|apply Z.ltb_lt]; lia.
Qed.

Lemma JSArray_getitem_at_Z (js : JSEvaluator) (self : QJSValue) (j : Z) (x : QJSValue) :
  0 <= j -> elements (js_heap js) self !! Z.to_nat j = Some x ->
  JSArray.__getitem__ js self j = toPy js x (Some self).
Proof.
  intros Hj Hx. rewrite <- (Z2Nat.id j) at 1 by lia.
  apply JSArray_getitem_at. exact Hx.
Qed.

Lemma JSArray_iter_elements (js : JSEvaluator) (self : QJSValue) :
  JSArray.__iter__ js self
  = mapM (fun x => toPy js x (Some self)) (elements (js_heap js) self).
Proof.
  unfold JSArray.__iter__, JSArray.indices, JSArray.__len__.
  rewrite Nat2Z.id. apply mapM_seq_lookup.
  intros i x Hx. simpl. apply JSArray_getitem_at. exact Hx.
Qed.



(** Decoding looks at the class of a value only, and for an array not even
    at its elements. *)
Lemma toPy_ext (js js' : JSEvaluator) :
  js_codeStore js' = js_codeStore js ->
  pythonExceptionStore js' = pythonExceptionStore js ->
  (forall x, class_of (js_heap js') x = class_of (js_heap js) x \/
             (isArray (js_heap js) x = true /\ isArray (js_heap js') x = true)) ->
  forall x inst, toPy js' x inst = toPy js x inst.
Proof.
  intros Hcs Hst Hcls x inst. unfold toPy.
  destruct (isNull x || isUndefined x); [reflexivity|].
  destruct (isNumber x); [reflexivity|].
  destruct (isBool x || isString x); [reflexivity|].
  destruct (Hcls x) as [Heq|[Ha Ha']].
  - unfold isDate, isRegExp, isArray, toDateTime, buildRegExp, buildPyError.
    rewrite Heq, Hcs, Hst. reflexivity.
  - rewrite Ha, Ha'. unfold isArray in Ha, Ha'. unfold isDate, isRegExp.
    destruct (class_of (js_heap js) x) as [[]|]; try discriminate.
    destruct (class_of (js_heap js') x) as [[]|]; try discriminate.
    reflexivity.
Qed.

Lemma elements_set_elements (h : gmap nat jsobj) (self : QJSValue) (l : list QJSValue) :
  isArray h self = true ->
  elements (set_elements h self l) self = l /\
  (forall x, class_of (set_elements h self l) x = class_of h x \/
             (isArray h x = true /\ isArray (set_elements h self l) x = true)) /\
  (forall r, QObject r <> self -> set_elements h self l !! r = h !! r).
Proof.
  intros Ha. unfold isArray, class_of in Ha.
  destruct self as [| | | | |r]; try discriminate.
  destruct (h !! r) as [o|] eqn:Hr; [|discriminate]. simpl in Ha.
  unfold set_elements. rewrite Hr. split; [|split].
  - unfold elements, class_of. rewrite lookup_insert_eq. reflexivity.
  - intros x. destruct x as [| | | | |r']; try (left; reflexivity).
    destruct (decide (r' = r)) as [->|Hne].
    + right. unfold isArray, class_of. rewrite lookup_insert_eq, Hr. simpl.
      split; [exact Ha|reflexivity].
    + left. unfold class_of. rewrite lookup_insert_ne by congruence. reflexivity.
  - intros r' Hne. rewrite lookup_insert_ne by congruence. reflexivity.
Qed.

Lemma toPy_splice (js : JSEvaluator) (self : QJSValue) (start count : Z)
  (items : list QJSValue) :
  isArray (js_heap js) self = true ->
  forall x inst, toPy (JSArray._splice js self start count items) x inst = toPy js x inst.
Proof.
  intros Ha. apply toPy_ext; try reflexivity.
  intros x. unfold JSArray._splice. rewrite with_heap_heap.
  apply (elements_set_elements _ _ _ Ha).
Qed.

Lemma elements_nonempty_isArray (h : gmap nat jsobj) (self : QJSValue) :
  elements h self <> [] -> isArray h self = true.
Proof.
  unfold elements, isArray. destruct (class_of h self) as [[]|]; congruence.
Qed.

(** X2.  [del proxy[idx]] on an array proxy: with [i] the normalized index,
    when [0 <= i < len] exactly element [i] leaves the underlying array (the
    elements before it keep their index, those after it move down by one,
    the length drops by one, no other object of the engine changes);
    otherwise [IndexError] is raised and nothing changes. *)
Theorem JSArray_delitem_removes (js : JSEvaluator) (self : QJSValue) (idx : Z) :
  let n := JSArray.__len__ js self in
  let i := if idx <? 0 then n + idx else idx in
  (0 <= i < n ->
     exists js',
       JSArray.__delitem__ js self idx = (Ok tt, js') /\
       elements (js_heap js') self = delete (Z.to_nat i) (elements (js_heap js) self) /\
       JSArray.__len__ js' self = n - 1 /\
       (forall r, QObject r <> self -> js_heap js' !! r = js_heap js !! r) /\
       (forall j, 0 <= j < i ->
          JSArray.__getitem__ js' self j = JSArray.__getitem__ js self j) /\
       (forall j, i <= j < n - 1 ->
          JSArray.__getitem__ js' self j = JSArray.__getitem__ js self (j + 1)) /\
       JSArray.__getitem__ js' self (n - 1) = Raise (new_exc IndexError (ArgInt (n - 1)))) /\
  (~ 0 <= i < n ->
     JSArray.__delitem__ js self idx = (Raise (new_exc IndexError (ArgInt i)), js)).
Proof.
  intros n i. unfold JSArray.__delitem__. rewrite JSArray_normalize_spec.
  fold n. fold i. split.
  - intros Hi.
    replace ((0 <=? i) && (i <? n)) with true
      by (symmetry; apply andb_true_iff; split; [apply Z.leb_le|apply Z.ltb_lt]; lia).
    assert (Ha : isArray (js_heap js) self = true).
    { apply elements_nonempty_isArray. unfold n, JSArray.__len__ in Hi.
      destruct (elements (js_heap js) self); simpl in Hi; [lia|discriminate]. }
    set (l := elements (js_heap js) self) in *.
    assert (Hl : n = Z.of_nat (length l)) by reflexivity.
    eexists. split; [reflexivity|].
    destruct (elements_set_elements (js_heap js) self
                (splice l (Z.to_nat i) (Z.to_nat 1) []) Ha) as (Hel & _ & Hother).
    assert (Hel' : elements (js_heap (JSArray._splice js self i 1 [])) self
                   = delete (Z.to_nat i) l).
    { unfold JSArray._splice. rewrite with_heap_heap. fold l. rewrite Hel.
      unfold splice. simpl app. rewrite delete_take_drop. f_equal. f_equal. lia. }
    assert (Hlen : JSArray.__len__ (JSArray._splice js self i 1 []) self = n - 1).
    { unfold JSArray.__len__. rewrite Hel', length_delete; [lia|].
      apply lookup_lt_is_Some. lia. }
    split; [exact Hel'|]. split; [exact Hlen|]. split; [|split; [|split]].
    + intros r Hr. unfold JSArray._splice. rewrite with_heap_heap. fold l.
      apply Hother. exact Hr.
    + intros j Hj. rewrite !JSArray_getitem_spec. rewrite Hlen. fold n.
      destruct (j <? 0) eqn:Hneg; [apply Z.ltb_lt in Hneg; lia|].
      rewrite Hel'. fold l. rewrite list_lookup_delete_lt by lia.
      replace ((0 <=? j) && (j <? n - 1)) with true
        by (symmetry; apply andb_true_iff; split; [apply Z.leb_le|apply Z.ltb_lt]; lia).
      replace ((0 <=? j) && (j <? n)) with true
        by (symmetry; apply andb_true_iff; split; [apply Z.leb_le|apply Z.ltb_lt]; lia).
      destruct (l !! Z.to_nat j); [|reflexivity].
      apply toPy_splice. exact Ha.
    + intros j Hj. rewrite !JSArray_getitem_spec. rewrite Hlen. fold n.
      destruct (j <? 0) eqn:Hneg; [apply Z.ltb_lt in Hneg; lia|].
      destruct (j + 1 <? 0) eqn:Hneg'; [apply Z.ltb_lt in Hneg'; lia|].
      rewrite Hel'. fold l. rewrite list_lookup_delete_ge by lia.
      replace (S (Z.to_nat j)) with (Z.to_nat (j + 1)) by lia.
      replace ((0 <=? j) && (j <? n - 1)) with true
        by (symmetry; apply andb_true_iff; split; [apply Z.leb_le|apply Z.ltb_lt]; lia).
      replace ((0 <=? j + 1) && (j + 1 <? n)) with true
        by (symmetry; apply andb_true_iff; split; [apply Z.leb_le|apply Z.ltb_lt]; lia).
      destruct (l !! Z.to_nat (j + 1)) eqn:Hx;
        [|apply lookup_ge_None in Hx; lia].
      apply toPy_splice. exact Ha.
    + rewrite JSArray_getitem_spec. rewrite Hlen.
      destruct (n - 1 <? 0) eqn:Hneg; [apply Z.ltb_lt in Hneg; lia|].
      replace (n - 1 <? n - 1) with false by (symmetry; apply Z.ltb_ge; lia).
      rewrite andb_false_r.
      destruct (_ !! _); reflexivity.
  - intros Hi.
    replace ((0 <=? i) && (i <? n)) with false; [reflexivity|].
    symmetry. apply andb_false_iff.
    destruct (Z_lt_ge_dec i 0); [left; apply Z.leb_gt; lia|].
    right. apply Z.ltb_ge. lia.
Qed.

Lemma JSArray_delitem_witness :
  (exists js',
     JSArray.__delitem__ js_1234 (QObject 0%nat) (-1) = (Ok tt, js') /\
     JSArray.__iter__ js' (QObject 0%nat) = Ok [PyInt 1; PyInt 2; PyInt 3]) /\
  JSArray.__delitem__ js_1234 (QObject 0%nat) 4
    = (Raise (new_exc IndexError (ArgInt 4)), js_1234).
Proof.
  split.
  - destruct (JSArray_delitem_removes js_1234 (QObject 0%nat) (-1)) as (Hin & _).
    destruct Hin as (js' & Hdel & Hel & _);
      [vm_compute; split; [discriminate|reflexivity]|].
    exists js'. split; [exact Hdel|].
    injection Hdel as <-. reflexivity.
  - destruct (JSArray_delitem_removes js_1234 (QObject 0%nat) 4) as (_ & Hout).
    apply Hout. vm_compute. intros [_ H]. discriminate H.
Defined.



Lemma toPy_set_elements (js : JSEvaluator) (self : QJSValue) (l : list QJSValue) :
  isArray (js_heap js) self = true ->
  forall x inst,
    toPy (with_heap js (set_elements (js_heap js) self l)) x inst = toPy js x inst.
Proof.
  intros Ha. apply toPy_ext; try reflexivity.
  intros x. rewrite with_heap_heap. apply (elements_set_elements _ _ _ Ha).
Qed.



(** ** Object proxies: writing, reading back and deleting *)

Lemma assoc_set_eq {A} (k : string) (a : A) (l : list (string * A)) :
  assoc k (assoc_set k a l) = Some a.
Proof.
  induction l as [|[k' a'] l IH]; simpl.
  - rewrite bool_decide_eq_true_2; reflexivity.
  - destruct (bool_decide (k = k')) eqn:Hk; simpl.
    + rewrite bool_decide_eq_true_2; reflexivity.
    + rewrite Hk. exact IH.
Qed.

Lemma assoc_set_ne {A} (k k' : string) (a : A) (l : list (string * A)) :
  k' <> k -> assoc k' (assoc_set k a l) = assoc k' l.
Proof.
  intros Hne. induction l as [|[k0 a0] l IH]; simpl.
  - rewrite bool_decide_eq_false_2; [reflexivity|exact Hne].
  - destruct (bool_decide (k = k0)) eqn:Hk; simpl.
    + apply bool_decide_eq_true in Hk. subst k0.
      rewrite !bool_decide_eq_false_2 by exact Hne. reflexivity.
    + destruct (bool_decide (k' = k0)); [reflexivity|exact IH].
Qed.

Lemma assoc_del_eq {A} (k : string) (l : list (string * A)) :
  assoc k (assoc_del k l) = None.
Proof.
  induction l as [|[k' a'] l IH]; simpl; [reflexivity|].
  destruct (bool_decide (k = k')) eqn:Hk; simpl; [exact IH|].
  rewrite Hk. exact IH.
Qed.

Lemma assoc_del_ne {A} (k k' : string) (l : list (string * A)) :
  k' <> k -> assoc k' (assoc_del k l) = assoc k' l.
Proof.
  intros Hne. induction l as [|[k0 a0] l IH]; simpl; [reflexivity|].
  destruct (bool_decide (k = k0)) eqn:Hk; simpl.
  - apply bool_decide_eq_true in Hk. subst k0.
    rewrite bool_decide_eq_false_2 by exact Hne. exact IH.
  - destruct (bool_decide (k' = k0)); [reflexivity|exact IH].
Qed.

Lemma keys_assoc_set {A} (k : string) (a : A) (l : list (string * A)) (k' : string) :
  k' ∈ (fst <$> assoc_set k a l) <-> k' = k \/ k' ∈ (fst <$> l).
Proof.
  induction l as [|[k0 a0] l IH]; simpl.
  - rewrite list_elem_of_singleton. rewrite elem_of_nil. tauto.
  - destruct (bool_decide (k = k0)) eqn:Hk; simpl.
    + apply bool_decide_eq_true in Hk. subst k0.
      rewrite !elem_of_cons. tauto.
    + rewrite !elem_of_cons, IH. tauto.
Qed.

Lemma keys_assoc_del {A} (k : string) (l : list (string * A)) (k' : string) :
  k' ∈ (fst <$> assoc_del k l) <-> k' <> k /\ k' ∈ (fst <$> l).
Proof.
  induction l as [|[k0 a0] l IH]; simpl.
  - rewrite elem_of_nil. tauto.
  - destruct (bool_decide (k = k0)) eqn:Hk; simpl.
    + apply bool_decide_eq_true in Hk. subst k0.
      rewrite elem_of_cons, IH. split; [tauto|].
      intros [Hne [->|Hin]]; [contradiction|tauto].
    + apply bool_decide_eq_false in Hk.
      rewrite !elem_of_cons, IH. split; [|tauto].
      intros [->|[Hne Hin]]; [split; [congruence|tauto]|tauto].
Qed.

(** Replacing the own properties of one object by a list that agrees with
    the old one on [k] changes no lookup of [k], from anywhere. *)
Lemma lookup_chain_update (h : gmap nat jsobj) (r : nat) (o : jsobj)
  (own' : list (string * QJSValue)) (k : string) :
  h !! r = Some o -> assoc k own' = assoc k (o_own o) ->
  forall n x,
    lookup_chain n (<[r := JsObj (o_class o) own' (o_proto o)]> h) x k
    = lookup_chain n h x k.
Proof.
  intros Hr Hk. induction n as [|n IH]; intros x; simpl.
  - destruct (decide (x = r)) as [->|Hne].
    + rewrite lookup_insert_eq, Hr. simpl. rewrite Hk. reflexivity.
    + rewrite lookup_insert_ne by congruence. reflexivity.
  - destruct (decide (x = r)) as [->|Hne].
    + rewrite lookup_insert_eq, Hr. simpl. rewrite Hk.
      destruct (assoc k (o_own o)); [reflexivity|].
      destruct (o_proto o); [apply IH|reflexivity].
    + rewrite lookup_insert_ne by congruence.
      destruct (h !! x) as [ox|]; [|reflexivity].
      destruct (assoc k (o_own ox)); [reflexivity|].
      destruct (o_proto ox); [apply IH|reflexivity].
Qed.

Lemma class_of_update (h : gmap nat jsobj) (r : nat) (o : jsobj)
  (own' : list (string * QJSValue)) :
  h !! r = Some o ->
  forall x, class_of (<[r := JsObj (o_class o) own' (o_proto o)]> h) x = class_of h x.
Proof.
  intros Hr x. destruct x as [| | | | |r']; try reflexivity.
  unfold class_of. destruct (decide (r' = r)) as [->|Hne].
  - rewrite lookup_insert_eq, Hr. reflexivity.
  - rewrite lookup_insert_ne by congruence. reflexivity.
Qed.

Lemma toPy_update (js : JSEvaluator) (r : nat) (o : jsobj)
  (own' : list (string * QJSValue)) :
  js_heap js !! r = Some o ->
  forall x inst,
    toPy (with_heap js (<[r := JsObj (o_class o) own' (o_proto o)]> (js_heap js))) x inst
    = toPy js x inst.
Proof.
  intros Hr. apply toPy_ext; try reflexivity.
  intros x. left. rewrite with_heap_heap. apply class_of_update. exact Hr.
Qed.

Lemma JSObject_getitem_update (js : JSEvaluator) (r : nat) (o : jsobj)
  (own' : list (string * QJSValue)) (k : string) :
  js_heap js !! r = Some o -> assoc k own' = assoc k (o_own o) ->
  forall self,
    JSObject.__getitem__
      (with_heap js (<[r := JsObj (o_class o) own' (o_proto o)]> (js_heap js))) self k
    = JSObject.__getitem__ js self k.
Proof.
  intros Hr Hk self.
  unfold JSObject.__getitem__, JSObject._get, hasProperty, property.
  rewrite with_heap_heap.
  destruct self as [| | | | |x]; try reflexivity.
  rewrite (map_size_insert_Some _ _ _ (mk_is_Some _ _ Hr)).
  rewrite (lookup_chain_update _ _ _ _ _ Hr Hk).
  destruct (bool_decide _); [|reflexivity].
  apply toPy_update. exact Hr.
Qed.

Lemma JSObject_setitem_reads evaluate (js : JSEvaluator) (r : nat) (o : jsobj)
  (key : string) (value : pyval) (q : QJSValue) :
  js_heap js !! r = Some o ->
  plain value = Some q ->
  let js' := with_heap js (setProperty (js_heap js) (QObject r) key q) in
  __setitem__ (toJS evaluate) js (QObject r) key value = (Ok tt, js') /\
  JSObject.__getitem__ js' (QObject r) key = toPy js q (Some (QObject r)).
Proof.
  intros Hr Hq js'. unfold __setitem__.
  rewrite (toJS_plain evaluate value q js Hq). split; [reflexivity|].
  unfold js', setProperty. rewrite Hr.
  unfold JSObject.__getitem__, JSObject._get, hasProperty, property.
  rewrite with_heap_heap.
  rewrite (map_size_insert_Some _ _ _ (mk_is_Some _ _ Hr)).
  assert (Hl : lookup_chain (size (js_heap js))
                 (<[r := JsObj (o_class o) (assoc_set key q (o_own o)) (o_proto o)]>
                    (js_heap js)) r key = Some q).
  { destruct (size (js_heap js)); simpl; rewrite lookup_insert_eq; simpl;
      rewrite assoc_set_eq; reflexivity. }
  rewrite Hl. rewrite bool_decide_eq_true_2 by eauto. simpl.
  apply toPy_update. exact Hr.
Qed.

(** X5.  [proxy[key] = value] on an object proxy, for a value the converter
    turns into [q] without touching the evaluator: afterwards [key] is an own
    property of the underlying object, reading it back gives the decoding of
    [q], every other key reads as before, the keys the proxy iterates over
    are the old ones and [key], and no other object of the engine changes. *)
Theorem JSObject_setitem_getitem evaluate (js : JSEvaluator) (r : nat) (o : jsobj)
  (key : string) (value : pyval) (q : QJSValue) :
  js_heap js !! r = Some o ->
  plain value = Some q ->
  let self := QObject r in
  exists js',
    __setitem__ (toJS evaluate) js self key value = (Ok tt, js') /\
    hasOwnProperty (js_heap js') self key = true /\
    JSObject.__getitem__ js' self key = toPy js q (Some self) /\
    (forall k, k <> key -> JSObject.__getitem__ js' self k = JSObject.__getitem__ js self k) /\
    (forall k, k ∈ JSObject.__iter__ js' self <-> k = key \/ k ∈ JSObject.__iter__ js self) /\
    (forall r', r' <> r -> js_heap js' !! r' = js_heap js !! r').
Proof.
  intros Hr Hq self. subst self.
  destruct (JSObject_setitem_reads evaluate js r o key value q Hr Hq) as [Hset Hget].
  eexists. split; [exact Hset|].
  split; [|split; [exact Hget|]]; unfold setProperty; rewrite Hr.
  - unfold hasOwnProperty. rewrite with_heap_heap, lookup_insert_eq. simpl.
    rewrite assoc_set_eq. apply bool_decide_eq_true. eauto.
  - split; [|split].
    + intros k Hk. apply JSObject_getitem_update; [exact Hr|].
      apply assoc_set_ne. exact Hk.
    + intros k. unfold JSObject.__iter__.
      rewrite with_heap_heap, lookup_insert_eq, Hr. simpl. apply keys_assoc_set.
    + intros r' Hne. rewrite with_heap_heap. apply lookup_insert_ne. congruence.
Qed.

Lemma JSObject_setitem_witness :
  exists js',
    __setitem__ (toJS evaluate_42) js_inherit (QObject 1%nat) "b" (PyInt 3) = (Ok tt, js') /\
    JSObject.__getitem__ js' (QObject 1%nat) "b" = Ok (PyInt 3) /\
    JSObject.__getitem__ js' (QObject 0%nat) "b" = Ok (PyStr "base") /\
    JSObject.__getitem__ js' (QObject 1%nat) "a" = Ok (PyBool true).
Proof.
  destruct (JSObject_setitem_getitem evaluate_42 js_inherit 1%nat
              (JsObj CPlain [("a", QBool true)] (Some 0%nat)) "b" (PyInt 3)
              (QNumber (float_of_int 3)) eq_refl eq_refl)
    as (js' & Hset & _ & Hget & _).
  exists js'. split; [exact Hset|].
  split; [rewrite Hget; reflexivity|].
  injection Hset as <-. split; reflexivity.
Defined.

(** X6.  [del proxy[key]] on an object proxy, for an own property [key]:
    afterwards [key] is no own property any more, so deleting it again raises
    [KeyError]; every other key reads as before and the proxy iterates over
    the old keys but [key]; reading [key] raises [KeyError] when the object
    has no prototype, and gives the prototype's value when the prototype has
    a property of that name: deleting uncovers what the own property
    shadowed. *)
Theorem JSObject_delitem_own (js : JSEvaluator) (r : nat) (o : jsobj) (key : string) :
  js_heap js !! r = Some o ->
  hasOwnProperty (js_heap js) (QObject r) key = true ->
  let self := QObject r in
  exists js',
    JSObject.__delitem__ js self key = (Ok tt, js') /\
    hasOwnProperty (js_heap js') self key = false /\
    JSObject.__delitem__ js' self key = (Raise (new_exc KeyError (ArgStr key)), js') /\
    (forall k, k <> key -> JSObject.__getitem__ js' self k = JSObject.__getitem__ js self k) /\
    (forall k, k ∈ JSObject.__iter__ js' self <-> k <> key /\ k ∈ JSObject.__iter__ js self) /\
    (o_proto o = None ->
       JSObject.__getitem__ js' self key = Raise (new_exc KeyError (ArgStr key))) /\
    (forall p op x,
       o_proto o = Some p -> p <> r -> js_heap js !! p = Some op ->
       assoc key (o_own op) = Some x ->
       JSObject.__getitem__ js' self key = toPy js x (Some self)) /\
    (forall r', r' <> r -> js_heap js' !! r' = js_heap js !! r').
Proof.
  intros Hr Hown self. subst self. unfold JSObject.__delitem__ at 1.
  rewrite Hown. cbn [negb].
  eexists. split; [reflexivity|].
  unfold deleteProperty. rewrite Hr.
  set (h' := <[r := JsObj (o_class o) (assoc_del key (o_own o)) (o_proto o)]> (js_heap js)).
  assert (Hown' : hasOwnProperty h' (QObject r) key = false).
  { unfold hasOwnProperty, h'. rewrite lookup_insert_eq. simpl.
    rewrite assoc_del_eq. apply bool_decide_eq_false. intros [? ?]. discriminate. }
  assert (Hsize : size h' = size (js_heap js))
    by (apply map_size_insert_Some; eauto).
  split; [rewrite with_heap_heap; exact Hown'|].
  split; [unfold JSObject.__delitem__; rewrite with_heap_heap, Hown'; reflexivity|].
  split; [|split; [|split; [|split]]].
  - intros k Hk. apply JSObject_getitem_update; [exact Hr|].
    apply assoc_del_ne. exact Hk.
  - intros k. unfold JSObject.__iter__.
    rewrite with_heap_heap. unfold h'. rewrite lookup_insert_eq, Hr. simpl.
    apply keys_assoc_del.
  - intros Hproto.
    unfold JSObject.__getitem__, hasProperty. rewrite with_heap_heap, Hsize.
    assert (Hl : lookup_chain (size (js_heap js)) h' r key = None).
    { unfold h'. destruct (size (js_heap js)); simpl; rewrite lookup_insert_eq; simpl;
        rewrite assoc_del_eq, ?Hproto; reflexivity. }
    rewrite Hl. rewrite bool_decide_eq_false_2; [reflexivity|].
    intros [? ?]. discriminate.
  - intros p op x Hproto Hne Hp Hx.
    unfold JSObject.__getitem__, JSObject._get, hasProperty, property.
    rewrite with_heap_heap, Hsize.
    assert (Hsz : (2 <= size (js_heap js))%nat).
    { rewrite <- (insert_id _ _ _ Hr), <- (insert_delete_eq (js_heap js)).
      rewrite map_size_insert_None by apply lookup_delete_eq.
      rewrite <- (insert_id (delete r (js_heap js)) p op)
        by (rewrite lookup_delete_ne by congruence; exact Hp).
      rewrite <- (insert_delete_eq (delete r (js_heap js))).
      rewrite map_size_insert_None by apply lookup_delete_eq. lia. }
    assert (Hl : lookup_chain (size (js_heap js)) h' r key = Some x).
    { destruct (size (js_heap js)) as [|n]; [lia|].
      unfold h'. simpl. rewrite lookup_insert_eq. simpl.
      rewrite assoc_del_eq, Hproto.
      destruct n; simpl; rewrite lookup_insert_ne by congruence;
        rewrite Hp, Hx; reflexivity. }
    rewrite Hl. rewrite bool_decide_eq_true_2 by eauto. simpl.
    apply toPy_update. exact Hr.
  - intros r' Hne. rewrite with_heap_heap. apply lookup_insert_ne. congruence.
Qed.

(** An object whose own property [b] shadows the prototype's. *)
Lemma JSObject_delitem_witness :
  let js := with_heap js_inherit
              (setProperty (js_heap js_inherit) (QObject 1%nat) "b" (QString "own")) in
  JSObject.__getitem__ js (QObject 1%nat) "b" = Ok (PyStr "own") /\
  exists js',
    JSObject.__delitem__ js (QObject 1%nat) "b" = (Ok tt, js') /\
    JSObject.__getitem__ js' (QObject 1%nat) "b" = Ok (PyStr "base") /\
    JSObject.__delitem__ js' (QObject 1%nat) "b"
      = (Raise (new_exc KeyError (ArgStr "b")), js').
Proof.
  intros js. split; [reflexivity|].
  destruct (JSObject_delitem_own js 1%nat
              (JsObj CPlain [("a", QBool true); ("b", QString "own")] (Some 0%nat)) "b"
              eq_refl eq_refl)
    as (js' & Hdel & _ & Hagain & _ & _ & _ & Hproto & _).
  exists js'. split; [exact Hdel|]. split; [|exact Hagain].
  rewrite (Hproto 0%nat (JsObj CPlain [("b", QString "base")] None) (QString "base"));
    reflexivity || (intros H; discriminate H).
Defined.

(** ** Keys as attributes *)





(** ** Host data sent to the engine and read back *)

Lemma pyval_nested_ind (P : pyval -> Prop) :
  P PyNone -> (forall b, P (PyBool b)) -> (forall n, P (PyInt n)) ->
  (forall d, P (PyFloat d)) -> (forall s, P (PyStr s)) ->
  (forall p i, P (PyPattern p i)) -> (forall e, P (PyException e)) ->
  (forall k v i, P (PyProxy k v i)) ->
  (forall ty call seq map date,
     (forall items, seq = Some items -> Forall P items) ->
     (forall entries, map = Some entries -> Forall (fun kv => P (snd kv)) entries) ->
     P (PyInst ty call seq map date)) ->
  forall v, P v.
Proof.
  intros HN HB HI HF HS HP HE HX HInst.
  fix IH 1.
  intros [|b|n|d|s|p i|e|k v i|ty call seq map date];
    [exact HN|apply HB|apply HI|apply HF|apply HS|apply HP|apply HE|apply HX|].
  assert (Hseq : match seq with Some items => Forall P items | None => True end).
  { destruct seq as [items|]; [|exact I].
    induction items as [|x items IHl]; constructor; [apply IH|exact IHl]. }
  assert (Hmap : match map with
                 | Some entries => Forall (fun kv => P (snd kv)) entries
                 | None => True
                 end).
  { destruct map as [entries|]; [|exact I].
    induction entries as [|[k x] entries IHl]; constructor; [apply IH|exact IHl]. }
  apply HInst.
  - intros items ->. exact Hseq.
  - intros entries ->. exact Hmap.
Qed.

Lemma mapM_ext_in {A B} (f g : A -> result B) (l : list A) :
  (forall x, x ∈ l -> f x = g x) -> mapM f l = mapM g l.
Proof.
  induction l as [|x l IH]; intros H; [reflexivity|].
  rewrite !mapM_cons, (H x) by left.
  rewrite IH; [reflexivity|]. intros y Hy. apply H. right. exact Hy.
Qed.

Lemma mapM_fmap {A B C} (f : B -> result C) (g : A -> B) (l : list A) :
  mapM f (g <$> l) = mapM (fun x => f (g x)) l.
Proof.
  induction l as [|x l IH]; [reflexivity|].
  rewrite fmap_cons, !mapM_cons, IH. reflexivity.
Qed.

Lemma assoc_NoDup {A} (l : list (string * A)) (k : string) (a : A) :
  NoDup (fst <$> l) -> (k, a) ∈ l -> assoc k l = Some a.
Proof.
  induction l as [|[k' a'] l IH]; intros Hnd Hin.
  - apply elem_of_nil in Hin. contradiction.
  - simpl in Hnd. apply NoDup_cons in Hnd as [Hnot Hnd]. simpl.
    apply elem_of_cons in Hin as [Heq|Hin].
    + injection Heq as <- <-. rewrite bool_decide_eq_true_2; reflexivity.
    + rewrite bool_decide_eq_false_2; [apply IH; assumption|].
      intros ->. apply Hnot. apply list_elem_of_fmap. exists (k', a). split; [reflexivity|exact Hin].
Qed.

(** The deep copy of an array proxy, element by element. *)
Lemma deepcopy_array (fuel : nat) (js : JSEvaluator) (self : QJSValue)
  (inst : option QJSValue) :
  deepcopy (S fuel) js (PyProxy ProxyArray self inst)
  = (items ← mapM (fun x => item ← toPy js x (Some self); deepcopy fuel js item)
                  (elements (js_heap js) self);
     Ok (PyList items)).
Proof.
  simpl. f_equal. unfold JSArray.indices, JSArray.__len__. rewrite Nat2Z.id.
  apply (mapM_seq_lookup
           (fun i => item ← JSArray.__getitem__ js self i; deepcopy fuel js item)).
  intros i x Hx. simpl. rewrite (JSArray_getitem_at js self i x Hx). reflexivity.
Qed.

(** The deep copy of an object proxy, own property by own property. *)
Lemma deepcopy_object (fuel : nat) (js : JSEvaluator) (r : nat) (o : jsobj)
  (inst : option QJSValue) :
  js_heap js !! r = Some o -> NoDup (fst <$> o_own o) ->
  deepcopy (S fuel) js (PyProxy ProxyObject (QObject r) inst)
  = (items ← mapM (fun kq => value ← toPy js (snd kq) (Some (QObject r));
                             value' ← deepcopy fuel js value;
                             Ok (fst kq, value'))
                  (o_own o);
     Ok (JSObjectCopy items)).
Proof.
  intros Hr Hnd. simpl. f_equal. rewrite Hr, mapM_fmap.
  apply mapM_ext_in. intros [k q] Hin. simpl.
  unfold JSObject.__getitem__, JSObject._get, hasProperty, property.
  assert (Hl : lookup_chain (size (js_heap js)) (js_heap js) r k = Some q).
  { destruct (size (js_heap js)); simpl; rewrite Hr, (assoc_NoDup _ _ _ Hnd Hin);
      reflexivity. }
  rewrite Hl. rewrite bool_decide_eq_true_2 by eauto. reflexivity.
Qed.

Lemma with_heap_back (js : JSEvaluator) (h : gmap nat jsobj) :
  with_heap (with_heap js h) (js_heap js) = js.
Proof. destruct js; reflexivity. Qed.

Lemma grows_refl (js : JSEvaluator) : grows js js.
Proof. split; [destruct js; reflexivity|auto]. Qed.

Lemma alloc_spec (js : JSEvaluator) (o : jsobj) :
  let r := fresh (dom (js_heap js)) in
  alloc js o = (QObject r, with_heap js (<[r := o]> (js_heap js))) /\
  js_heap js !! r = None.
Proof.
  split; [reflexivity|]. apply not_elem_of_dom. apply is_fresh.
Qed.

(** One step of [extend]: the value is converted, then appended. *)
Lemma extend_cons evaluate (js : JSEvaluator) (self : QJSValue) (v : pyval)
  (values : list pyval) (q : QJSValue) (js1 : JSEvaluator) :
  toJS evaluate v js = (Ok q, js1) ->
  extend (toJS evaluate) js self (v :: values)
  = extend (toJS evaluate) (JSArray._splice js1 self (JSArray.__len__ js self) 0 [q])
      self values.
Proof.
  intros Hq. simpl. unfold insert. rewrite Hq. reflexivity.
Qed.

Lemma extend_host_data evaluate (items : list pyval) :
  Forall (fun v => host_data v = true -> converts evaluate v) items ->
  forallb host_data items = true ->
  forall js r l own proto,
    js_heap js !! r = Some (JsObj (CArray l) own proto) ->
    exists js2 qs,
      extend (toJS evaluate) js (QObject r) items = (Ok tt, js2) /\
      js_heap js2 !! r = Some (JsObj (CArray (l ++ qs)) own proto) /\
      with_heap js2 (js_heap js) = js /\
      (forall x o, x <> r -> js_heap js !! x = Some o -> js_heap js2 !! x = Some o) /\
      Forall2 (reads_back js js2 (Some r)) qs items.
Proof.
  induction items as [|v items IH]; intros Hall Hdata js r l own proto Hr.
  - exists js, []. rewrite app_nil_r.
    split; [reflexivity|]. split; [exact Hr|].
    split; [destruct js; reflexivity|]. split; [auto|constructor].
  - apply Forall_cons in Hall as [Hv Hall].
    simpl in Hdata. apply andb_true_iff in Hdata as [Hdv Hdata].
    destruct (Hv Hdv js) as (q & js1 & Hq & [Hfields Hkeep] & Hread).
    rewrite (extend_cons _ _ _ _ _ _ _ Hq).
    pose proof (Hkeep _ _ Hr) as Hr1.
    set (js1' := JSArray._splice js1 (QObject r) (JSArray.__len__ js (QObject r)) 0 [q]).
    assert (Hr1' : js_heap js1' !! r = Some (JsObj (CArray (l ++ [q])) own proto)).
    { unfold js1', JSArray._splice, JSArray.__len__, elements, set_elements, class_of.
      rewrite with_heap_heap, Hr, Hr1. simpl. rewrite lookup_insert_eq.
      rewrite Nat2Z.id. unfold splice.
      rewrite take_ge, drop_ge by lia. rewrite app_nil_r. reflexivity. }
    assert (Hother : forall x, x <> r -> js_heap js1' !! x = js_heap js1 !! x).
    { intros x Hx. unfold js1', JSArray._splice, set_elements.
      rewrite with_heap_heap, Hr1. apply lookup_insert_ne. congruence. }
    destruct (IH Hall Hdata js1' r (l ++ [q]) own proto Hr1')
      as (js2 & qs & Hext & Hr2 & Hfields2 & Hkeep2 & Hreads).
    exists js2, (q :: qs).
    split; [exact Hext|].
    split; [rewrite Hr2, <- app_assoc; reflexivity|].
    split.
    { transitivity (with_heap js1' (js_heap js)).
      - exact (f_equal (fun j => with_heap j (js_heap js)) Hfields2).
      - exact Hfields. }
    assert (Hkeep02 : forall x o, x <> r -> js_heap js !! x = Some o ->
                                  js_heap js2 !! x = Some o).
    { intros x o Hx Ho. apply Hkeep2; [exact Hx|].
      rewrite Hother by exact Hx. apply Hkeep. exact Ho. }
    split; [exact Hkeep02|].
    constructor.
    + intros js'' Hagree. apply Hread.
      intros x o _ Ho Hnew.
      assert (Hx : x <> r) by (intros ->; rewrite Hr in Hnew; discriminate).
      apply Hagree; [congruence| |exact Hnew].
      apply Hkeep2; [exact Hx|]. rewrite Hother by exact Hx. exact Ho.
    + eapply Forall2_impl; [exact Hreads|].
      intros q' v' Hrb js'' Hagree. apply Hrb.
      intros x o Hx Ho Hnew. apply Hagree; [exact Hx|exact Ho|].
      destruct (js_heap js !! x) as [o'|] eqn:Hjs; [|reflexivity].
      assert (Hx' : x <> r) by congruence.
      rewrite Hother in Hnew by exact Hx'.
      rewrite (Hkeep _ _ Hjs) in Hnew. discriminate.
Qed.

Lemma assoc_set_fresh {A} (k : string) (a : A) (l : list (string * A)) :
  k ∉ (fst <$> l) -> assoc_set k a l = l ++ [(k, a)].
Proof.
  induction l as [|[k' a'] l IH]; intros Hk; [reflexivity|].
  simpl in Hk. apply not_elem_of_cons in Hk as [Hne Hk]. simpl.
  rewrite bool_decide_eq_false_2 by exact Hne. rewrite IH by exact Hk. reflexivity.
Qed.

Lemma update_cons evaluate (js : JSEvaluator) (self : QJSValue) (key : string)
  (v : pyval) (entries : list (string * pyval)) (q : QJSValue) (js1 : JSEvaluator) :
  toJS evaluate v js = (Ok q, js1) ->
  update (toJS evaluate) js self ((key, v) :: entries)
  = update (toJS evaluate) (with_heap js1 (setProperty (js_heap js1) self key q))
      self entries.
Proof.
  intros Hq. simpl. unfold __setitem__. rewrite Hq. reflexivity.
Qed.

Lemma update_host_data evaluate (entries : list (string * pyval)) :
  Forall (fun kv => host_data (snd kv) = true -> converts evaluate (snd kv)) entries ->
  forallb (fun kv => host_data (snd kv)) entries = true ->
  NoDup (fst <$> entries) ->
  forall js r cls own proto,
    js_heap js !! r = Some (JsObj cls own proto) ->
    (forall k, k ∈ (fst <$> entries) -> k ∉ (fst <$> own)) ->
    exists js2 kqs,
      update (toJS evaluate) js (QObject r) entries = (Ok tt, js2) /\
      js_heap js2 !! r = Some (JsObj cls (own ++ kqs) proto) /\
      with_heap js2 (js_heap js) = js /\
      (forall x o, x <> r -> js_heap js !! x = Some o -> js_heap js2 !! x = Some o) /\
      Forall2 (fun kq kv => fst kq = fst kv /\
                            reads_back js js2 (Some r) (snd kq) (snd kv)) kqs entries.
Proof.
  induction entries as [|[key v] entries IH];
    intros Hall Hdata Hnd js r cls own proto Hr Hfresh.
  - exists js, []. rewrite app_nil_r.
    split; [reflexivity|]. split; [exact Hr|].
    split; [destruct js; reflexivity|]. split; [auto|constructor].
  - apply Forall_cons in Hall as [Hv Hall].
    simpl in Hdata. apply andb_true_iff in Hdata as [Hdv Hdata].
    simpl in Hnd. apply NoDup_cons in Hnd as [Hnot Hnd].
    destruct (Hv Hdv js) as (q & js1 & Hq & [Hfields Hkeep] & Hread).
    rewrite (update_cons _ _ _ _ _ _ _ _ Hq).
    pose proof (Hkeep _ _ Hr) as Hr1.
    set (js1' := with_heap js1 (setProperty (js_heap js1) (QObject r) key q)).
    assert (Hr1' : js_heap js1' !! r = Some (JsObj cls (own ++ [(key, q)]) proto)).
    { unfold js1', setProperty. rewrite with_heap_heap, Hr1. simpl.
      rewrite lookup_insert_eq. rewrite assoc_set_fresh; [reflexivity|].
      apply Hfresh. left. }
    assert (Hother : forall x, x <> r -> js_heap js1' !! x = js_heap js1 !! x).
    { intros x Hx. unfold js1', setProperty.
      rewrite with_heap_heap, Hr1. apply lookup_insert_ne. congruence. }
    destruct (IH Hall Hdata Hnd js1' r cls (own ++ [(key, q)]) proto Hr1')
      as (js2 & kqs & Hext & Hr2 & Hfields2 & Hkeep2 & Hreads).
    { intros k Hk. rewrite fmap_app. simpl. intros Hin.
      apply elem_of_app in Hin as [Hin|Hin].
      - apply (Hfresh k); [right; exact Hk|exact Hin].
      - apply list_elem_of_singleton in Hin. subst k. contradiction. }
    exists js2, ((key, q) :: kqs).
    split; [exact Hext|].
    split; [rewrite Hr2, <- app_assoc; reflexivity|].
    split.
    { transitivity (with_heap js1' (js_heap js)).
      - exact (f_equal (fun j => with_heap j (js_heap js)) Hfields2).
      - exact Hfields. }
    assert (Hkeep02 : forall x o, x <> r -> js_heap js !! x = Some o ->
                                  js_heap js2 !! x = Some o).
    { intros x o Hx Ho. apply Hkeep2; [exact Hx|].
      rewrite Hother by exact Hx. apply Hkeep. exact Ho. }
    split; [exact Hkeep02|].
    constructor.
    + split; [reflexivity|]. simpl.
      intros js'' Hagree. apply Hread.
      intros x o _ Ho Hnew.
      assert (Hx : x <> r) by (intros ->; rewrite Hr in Hnew; discriminate).
      apply Hagree; [congruence| |exact Hnew].
      apply Hkeep2; [exact Hx|]. rewrite Hother by exact Hx. exact Ho.
    + eapply Forall2_impl; [exact Hreads|].
      intros kq kv [Hk Hrb]. split; [exact Hk|].
      intros js'' Hagree. apply Hrb.
      intros x o Hx Ho Hnew. apply Hagree; [exact Hx|exact Ho|].
      destruct (js_heap js !! x) as [o'|] eqn:Hjs; [|reflexivity].
      assert (Hx' : x <> r) by congruence.
      rewrite Hother in Hnew by exact Hx'.
      rewrite (Hkeep _ _ Hjs) in Hnew. discriminate.
Qed.

Lemma toJS_sequence evaluate (ty : string) (items : list pyval) map date
  (js : JSEvaluator) :
  toJS evaluate (PyInst ty None (Some items) map date) js
  = (let '(val, js1) := newArray js in
     match extend (toJS evaluate) js1 val items with
     | (Ok _, js2) => (Ok val, js2)
     | (Raise e, js2) => (Raise e, js2)
     end).
Proof. simpl. destruct (extend _ _ _ items) as [[]]; reflexivity. Qed.

Lemma toJS_mapping evaluate (ty : string) (entries : list (string * pyval)) date
  (js : JSEvaluator) :
  toJS evaluate (PyInst ty None None (Some entries) date) js
  = (let '(val, js1) := newObject js in
     match update (toJS evaluate) js1 val entries with
     | (Ok _, js2) => (Ok val, js2)
     | (Raise e, js2) => (Raise e, js2)
     end).
Proof. simpl. destruct (update _ _ _ entries) as [[]]; reflexivity. Qed.

Lemma toPy_array (js : JSEvaluator) (r : nat) (o : jsobj) (l : list QJSValue)
  (inst : option QJSValue) :
  js_heap js !! r = Some o -> o_class o = CArray l ->
  toPy js (QObject r) inst = Ok (PyProxy ProxyArray (QObject r) None).
Proof.
  intros Hr Hc. unfold toPy, isDate, isRegExp, isArray, class_of.
  rewrite Hr. simpl. rewrite Hc. reflexivity.
Qed.

Lemma toPy_plain_object (js : JSEvaluator) (r : nat) (o : jsobj)
  (inst : option QJSValue) :
  js_heap js !! r = Some o -> o_class o = CPlain ->
  toPy js (QObject r) inst = Ok (PyProxy ProxyObject (QObject r) inst).
Proof.
  intros Hr Hc. unfold toPy, isDate, isRegExp, isArray, class_of.
  rewrite Hr. simpl. rewrite Hc. reflexivity.
Qed.

Lemma decode_number_spec (d : float) :
  buildNumber d = Ok (decode_number d) /\
  ((exists n, decode_number d = PyInt n) \/ decode_number d = PyFloat d).
Proof.
  unfold decode_number. destruct (buildNumber_ok d) as [v Hv]. rewrite Hv.
  split; [reflexivity|].
  unfold buildNumber in Hv.
  destruct (int_of_float d) as [n|e].
  - injection Hv as <-. destruct (float_eq_int d n); eauto.
  - destruct (isinstance e ValueError || isinstance e OverflowError);
      [injection Hv as <-; auto|discriminate].
Qed.

Lemma reads_number (js : JSEvaluator) (d : float) (v : pyval) :
  nesting v = 0%nat -> snapshot_of v = decode_number d -> reads js (QNumber d) v.
Proof.
  intros Hn Hs inst. exists (decode_number d).
  destruct (decode_number_spec d) as [Hb Hcases].
  split; [exact Hb|].
  intros [|fuel] Hf; [lia|]. rewrite Hs.
  destruct Hcases as [[n ->]| ->]; reflexivity.
Qed.

Lemma nesting_items (items : list pyval) :
  Forall (fun v => (nesting v <= foldr (fun x acc => Nat.max (nesting x) acc) 0 items)%nat)
    items.
Proof.
  induction items as [|x items IH]; constructor; simpl; [lia|].
  eapply Forall_impl; [exact IH|]. simpl. intros v Hv. lia.
Qed.

Lemma nesting_entries (entries : list (string * pyval)) :
  Forall (fun kv => (nesting (snd kv)
                     <= foldr (fun kv acc => Nat.max (nesting (snd kv)) acc) 0 entries)%nat)
    entries.
Proof.
  induction entries as [|x entries IH]; constructor; simpl; [lia|].
  eapply Forall_impl; [exact IH|]. simpl. intros v Hv. lia.
Qed.

Lemma mapM_reads (js : JSEvaluator) (self : QJSValue) (fuel : nat)
  (qs : list QJSValue) (items : list pyval) :
  Forall2 (reads js) qs items ->
  Forall (fun v => (nesting v < fuel)%nat) items ->
  mapM (fun x => item ← toPy js x (Some self); deepcopy fuel js item) qs
  = Ok (snapshot_of <$> items).
Proof.
  intros Hreads. induction Hreads as [|q v qs items Hq _ IH]; intros Hfuel;
    [reflexivity|].
  apply Forall_cons in Hfuel as [Hv Hfuel].
  rewrite mapM_cons. destruct (Hq (Some self)) as (p & Hp & Hcopy).
  rewrite Hp. simpl. rewrite (Hcopy _ Hv). simpl.
  rewrite (IH Hfuel). reflexivity.
Qed.

Lemma mapM_reads_entries (js : JSEvaluator) (self : QJSValue) (fuel : nat)
  (kqs : list (string * QJSValue)) (entries : list (string * pyval)) :
  Forall2 (fun kq kv => fst kq = fst kv /\ reads js (snd kq) (snd kv)) kqs entries ->
  Forall (fun kv => (nesting (snd kv) < fuel)%nat) entries ->
  mapM (fun kq => value ← toPy js (snd kq) (Some self);
                  value' ← deepcopy fuel js value;
                  Ok (fst kq, value')) kqs
  = Ok ((fun kv => (fst kv, snapshot_of (snd kv))) <$> entries).
Proof.
  intros Hreads. induction Hreads as [|kq kv kqs entries [Hk Hq] _ IH]; intros Hfuel;
    [reflexivity|].
  apply Forall_cons in Hfuel as [Hv Hfuel].
  rewrite mapM_cons. destruct (Hq (Some self)) as (p & Hp & Hcopy).
  rewrite Hp. simpl. rewrite (Hcopy _ Hv). simpl.
  rewrite (IH Hfuel). simpl. rewrite Hk. reflexivity.
Qed.

Lemma toJS_converts evaluate (v : pyval) : host_data v = true -> converts evaluate v.
Proof.
  induction v as [|b|n|d|s|p i|e|k x i|ty call seq map date IHseq IHmap]
    using pyval_nested_ind; intros Hdata; try discriminate.
  - intros js. exists QNull, js. split; [reflexivity|]. split; [apply grows_refl|].
    intros js'' _ inst. exists PyNone. split; [reflexivity|].
    intros [|fuel] Hf; [simpl in Hf; lia|reflexivity].
  - intros js. exists (QBool b), js. split; [reflexivity|]. split; [apply grows_refl|].
    intros js'' _ inst. exists (PyBool b). split; [reflexivity|].
    intros [|fuel] Hf; [simpl in Hf; lia|reflexivity].
  - intros js. exists (QNumber (float_of_int n)), js.
    split; [reflexivity|]. split; [apply grows_refl|].
    intros js'' _. apply reads_number; reflexivity.
  - intros js. exists (QNumber d), js.
    split; [reflexivity|]. split; [apply grows_refl|].
    intros js'' _. apply reads_number; reflexivity.
  - intros js. exists (QString s), js. split; [reflexivity|]. split; [apply grows_refl|].
    intros js'' _ inst. exists (PyStr s). split; [reflexivity|].
    intros [|fuel] Hf; [simpl in Hf; lia|reflexivity].
  - destruct call; [discriminate|].
    destruct seq as [items|].
    + (* a sequence *)
      simpl in Hdata. specialize (IHseq items eq_refl). clear IHmap.
      intros js. rewrite toJS_sequence. unfold newArray.
      destruct (alloc_spec js (JsObj (CArray []) [] None)) as [-> Hfresh].
      set (r := fresh (dom (js_heap js))) in *.
      set (js0 := with_heap js (<[r := JsObj (CArray []) [] None]> (js_heap js))).
      destruct (extend_host_data evaluate items IHseq Hdata js0 r [] [] None)
        as (js2 & qs & Hext & Hr2 & Hfields & Hkeep & Hreads);
        [apply lookup_insert_eq|].
      rewrite Hext. exists (QObject r), js2. split; [reflexivity|].
      split; [split|].
      * transitivity (with_heap js0 (js_heap js));
          [exact (f_equal (fun j => with_heap j (js_heap js)) Hfields)
          |apply with_heap_back].
      * intros x o Ho. assert (Hx : x <> r) by congruence.
        apply Hkeep; [exact Hx|]. unfold js0. rewrite with_heap_heap.
        rewrite lookup_insert_ne by congruence. exact Ho.
      * intros js'' Hagree inst.
        assert (Hr'' : js_heap js'' !! r = Some (JsObj (CArray qs) [] None))
          by (apply Hagree; [congruence|exact Hr2|exact Hfresh]).
        exists (PyProxy ProxyArray (QObject r) None).
        split; [eapply toPy_array; [exact Hr''|reflexivity]|].
        intros [|fuel] Hf; [lia|]. rewrite deepcopy_array.
        unfold elements, class_of. rewrite Hr''. simpl.
        rewrite (mapM_reads js'' (QObject r) fuel qs items); [reflexivity| |].
        -- eapply Forall2_impl; [exact Hreads|].
           intros q v Hrb. apply Hrb. intros x o Hx Ho Hnew.
           apply Hagree; [congruence|exact Ho|].
           unfold js0 in Hnew. rewrite with_heap_heap in Hnew.
           rewrite lookup_insert_ne in Hnew by congruence. exact Hnew.
        -- eapply Forall_impl; [apply nesting_items|].
           simpl. intros v Hv. simpl in Hf. lia.
    + destruct map as [entries|]; [|discriminate].
      (* a mapping *)
      simpl in Hdata. apply andb_true_iff in Hdata as [Hnd Hdata].
      apply bool_decide_eq_true in Hnd.
      specialize (IHmap entries eq_refl). clear IHseq.
      intros js. rewrite toJS_mapping. unfold newObject.
      destruct (alloc_spec js (JsObj CPlain [] None)) as [-> Hfresh].
      set (r := fresh (dom (js_heap js))) in *.
      set (js0 := with_heap js (<[r := JsObj CPlain [] None]> (js_heap js))).
      destruct (update_host_data evaluate entries IHmap Hdata Hnd js0 r CPlain [] None)
        as (js2 & kqs & Hext & Hr2 & Hfields & Hkeep & Hreads);
        [apply lookup_insert_eq|intros k _; apply not_elem_of_nil|].
      rewrite Hext. exists (QObject r), js2. split; [reflexivity|].
      split; [split|].
      * transitivity (with_heap js0 (js_heap js));
          [exact (f_equal (fun j => with_heap j (js_heap js)) Hfields)
          |apply with_heap_back].
      * intros x o Ho. assert (Hx : x <> r) by congruence.
        apply Hkeep; [exact Hx|]. unfold js0. rewrite with_heap_heap.
        rewrite lookup_insert_ne by congruence. exact Ho.
      * intros js'' Hagree inst.
        assert (Hr'' : js_heap js'' !! r = Some (JsObj CPlain kqs None))
          by (apply Hagree; [congruence|exact Hr2|exact Hfresh]).
        exists (PyProxy ProxyObject (QObject r) inst).
        split; [eapply toPy_plain_object; [exact Hr''|reflexivity]|].
        intros [|fuel] Hf; [lia|].
        assert (Hkeys : fst <$> kqs = fst <$> entries).
        { clear -Hreads. induction Hreads as [|kq kv kqs entries [Hk _] _ IH];
            [reflexivity|]. rewrite !fmap_cons. congruence. }
        assert (Hnd' : NoDup (fst <$> o_own (JsObj CPlain kqs None)))
          by (change (NoDup (fst <$> kqs)); rewrite Hkeys; exact Hnd).
        rewrite (deepcopy_object fuel js'' r _ inst Hr'' Hnd').
        cbn [o_own].
        rewrite (mapM_reads_entries js'' (QObject r) fuel kqs entries); [reflexivity| |].
        -- eapply Forall2_impl; [exact Hreads|].
           intros kq kv [Hk Hrb]. split; [exact Hk|].
           apply Hrb. intros x o Hx Ho Hnew.
           apply Hagree; [congruence|exact Ho|].
           unfold js0 in Hnew. rewrite with_heap_heap in Hnew.
           rewrite lookup_insert_ne in Hnew by congruence. exact Hnew.
        -- eapply Forall_impl; [apply nesting_entries|].
           simpl. intros v Hv. simpl in Hf. lia.
Qed.

Lemma snapshot_of_shaped (v : pyval) : snapshot_shaped v = true -> snapshot_of v = v.
Proof.
  induction v as [|b|n|d|s|p i|e|k x i|ty call seq map date IHseq IHmap]
    using pyval_nested_ind; intros Hs; try discriminate; try reflexivity.
  - simpl in Hs. apply andb_true_iff in Hs as [Hlo Hhi].
    apply Z.leb_le in Hlo. apply Z.leb_le in Hhi.
    destruct (float_of_int_exact n (conj Hlo Hhi)) as [Hint Heq].
    simpl. unfold decode_number, buildNumber. rewrite Hint, Heq. reflexivity.
  - simpl in Hs. destruct call; [discriminate|].
    destruct seq as [items|].
    + destruct map; [discriminate|]. destruct date; [discriminate|].
      apply andb_true_iff in Hs as [Hty Hall].
      apply bool_decide_eq_true in Hty. subst ty.
      specialize (IHseq items eq_refl). simpl. unfold PyList. do 2 f_equal.
      clear IHmap. induction items as [|x items IH]; [reflexivity|].
      simpl in Hall. apply andb_true_iff in Hall as [Hx Hall].
      apply Forall_cons in IHseq as [IHx IHseq].
      rewrite fmap_cons, (IHx Hx), (IH IHseq Hall). reflexivity.
    + destruct map as [entries|]; [|discriminate]. destruct date; [discriminate|].
      apply andb_true_iff in Hs as [Hty Hall].
      apply bool_decide_eq_true in Hty. subst ty.
      specialize (IHmap entries eq_refl). simpl. unfold JSObjectCopy. do 2 f_equal.
      clear IHseq. induction entries as [|[k x] entries IH]; [reflexivity|].
      simpl in Hall. apply andb_true_iff in Hall as [Hx Hall].
      apply Forall_cons in IHmap as [IHx IHmap]. simpl in IHx.
      rewrite fmap_cons. simpl. rewrite (IHx Hx), (IH IHmap Hall). reflexivity.
Qed.



(** ** Script values decoded and sent back *)



(** ** Script errors whose frames cannot be turned into traceback entries *)

Lemma break_at_none (c : ascii) (s : string) :
  has_char c s = false -> break_at c s = None.
Proof.
  induction s as [|a s IH]; simpl; intros H; [reflexivity|].
  apply orb_false_iff in H as [Ha Hs]. rewrite Ha, (IH Hs). reflexivity.
Qed.

Lemma split_nonempty (c : ascii) (s : string) : (0 < length (split c s))%nat.
Proof.
  induction s as [|a s IH]; simpl; [lia|].
  destruct (Ascii.eqb a c); simpl; [lia|].
  destruct (split c s); simpl in *; lia.
Qed.

Lemma stack_item_parsed (codeStore : gmap string string) (f : sframe) :
  has_char "@" (sf_func f) = false -> has_char ":" (sf_path f) = false ->
  stack_item codeStore (render f)
  = match codeStore !! sf_path f with
    | None => Raise (new_exc KeyError (ArgStr (sf_path f)))
    | Some text =>
        code ← py_index (split newline text) (Z.of_N (sf_line f) - 1);
        Ok (Frame (sf_path f) (Z.of_N (sf_line f))
              (if bool_decide (sf_func f = "%entry") then "<global scope>"
               else sf_func f)
              code)
    end.
Proof.
  intros Hfunc Hpath.
  unfold stack_item, JS_STACK_RE_match. rewrite render_shape.
  rewrite (break_at_append _ _ _ Hfunc). simpl.
  rewrite (break_at_append _ _ _ Hpath). simpl.
  destruct (pretty_N_digits (sf_line f)) as [-> ->]. reflexivity.
Qed.

(** X11.  Converting one line of a script error's stack fails, rather than
    skipping the line, whenever the line cannot be resolved: a line without
    '@', or without ':' after the '@', raises [AttributeError] (the pattern
    does not match); a line with no digits after the ':' raises
    [ValueError]; a line that matches raises [KeyError] when no source is
    recorded under its path and [IndexError] when its line number is beyond
    the recorded text; and line number 0 raises nothing: it picks the last
    line of the recorded text. *)
Theorem stack_item_unresolved (codeStore : gmap string string) :
  (forall item, has_char "@" item = false ->
     stack_item codeStore item
     = Raise (new_exc AttributeError (ArgStr "'NoneType' object has no attribute 'group'"))) /\
  (forall func rest, has_char "@" func = false -> has_char ":" rest = false ->
     stack_item codeStore (func +:+ String "@" rest)
     = Raise (new_exc AttributeError (ArgStr "'NoneType' object has no attribute 'group'"))) /\
  (forall func path, has_char "@" func = false -> has_char ":" path = false ->
     stack_item codeStore (func +:+ String "@" (path +:+ ":"))
     = Raise (new_exc ValueError (ArgStr "invalid literal for int() with base 10: ''"))) /\
  (forall f, has_char "@" (sf_func f) = false -> has_char ":" (sf_path f) = false ->
     codeStore !! sf_path f = None ->
     stack_item codeStore (render f) = Raise (new_exc KeyError (ArgStr (sf_path f)))) /\
  (forall f text, has_char "@" (sf_func f) = false -> has_char ":" (sf_path f) = false ->
     codeStore !! sf_path f = Some text ->
     (length (split newline text) < N.to_nat (sf_line f))%nat ->
     stack_item codeStore (render f)
     = Raise (new_exc IndexError (ArgStr "list index out of range"))) /\
  (forall f text, has_char "@" (sf_func f) = false -> has_char ":" (sf_path f) = false ->
     codeStore !! sf_path f = Some text -> sf_line f = 0%N ->
     exists code,
       last (split newline text) = Some code /\
       stack_item codeStore (render f)
       = Ok (Frame (sf_path f) 0
               (if bool_decide (sf_func f = "%entry") then "<global scope>"
                else sf_func f)
               code)).
Proof.
  split; [|split; [|split; [|split; [|split]]]].
  - intros item H. unfold stack_item, JS_STACK_RE_match.
    rewrite (break_at_none _ _ H). reflexivity.
  - intros func rest Hf Hr. unfold stack_item, JS_STACK_RE_match.
    rewrite (break_at_append _ _ _ Hf). simpl.
    rewrite (break_at_none _ _ Hr). reflexivity.
  - intros func path Hf Hp. unfold stack_item, JS_STACK_RE_match.
    rewrite (break_at_append _ _ _ Hf). simpl.
    change (path +:+ ":") with (path +:+ String ":" "").
    rewrite (break_at_append _ _ _ Hp). reflexivity.
  - intros f Hf Hp Hnone. rewrite (stack_item_parsed _ _ Hf Hp), Hnone. reflexivity.
  - intros f text Hf Hp Htext Hlen.
    rewrite (stack_item_parsed _ _ Hf Hp), Htext. unfold py_index.
    assert (Hneg : (Z.of_N (sf_line f) - 1 <? 0) = false) by (apply Z.ltb_ge; lia).
    rewrite Hneg.
    replace (Z.of_N (sf_line f) - 1 <? Z.of_nat (length (split newline text)))
      with false by (symmetry; apply Z.ltb_ge; lia).
    rewrite andb_false_r. reflexivity.
  - intros f text Hf Hp Htext Hline.
    rewrite (stack_item_parsed _ _ Hf Hp), Htext, Hline. unfold py_index.
    pose proof (split_nonempty newline text) as Hpos.
    change (Z.of_N 0 - 1) with (-1). change (-1 <? 0) with true. cbn iota.
    replace ((0 <=? -1 + Z.of_nat (length (split newline text)))
             && (-1 + Z.of_nat (length (split newline text))
                 <? Z.of_nat (length (split newline text)))) with true
      by (symmetry; apply andb_true_iff; split; [apply Z.leb_le|apply Z.ltb_lt]; lia).
    replace (Z.to_nat (-1 + Z.of_nat (length (split newline text))))
      with (pred (length (split newline text))) by lia.
    rewrite <- last_lookup.
    destruct (last (split newline text)) as [code|] eqn:Hlast.
    + exists code. split; reflexivity.
    + apply last_None in Hlast. rewrite Hlast in Hpos. simpl in Hpos. lia.
Qed.

Lemma stack_item_unresolved_witness :
  stack_item {[ "a.js" := "f();" +:+ String newline "g();" ]} "g@b.js:1"
    = Raise (new_exc KeyError (ArgStr "b.js")) /\
  stack_item {[ "a.js" := "f();" +:+ String newline "g();" ]} "g@a.js:3"
    = Raise (new_exc IndexError (ArgStr "list index out of range")) /\
  stack_item {[ "a.js" := "f();" +:+ String newline "g();" ]} "g@a.js:0"
    = Ok (Frame "a.js" 0 "g" "g();").
Proof.
  destruct (stack_item_unresolved {[ "a.js" := "f();" +:+ String newline "g();" ]})
    as (_ & _ & _ & Hkey & Hindex & Hzero).
  split; [exact (Hkey (SFrame "g" "b.js" 1) eq_refl eq_refl eq_refl)|].
  split.
  - apply (Hindex (SFrame "g" "a.js" 3) _ eq_refl eq_refl eq_refl).
    vm_compute. lia.
  - destruct (Hzero (SFrame "g" "a.js" 0) _ eq_refl eq_refl eq_refl eq_refl)
      as (code & Hlast & Hitem).
    vm_compute in Hlast. injection Hlast as <-. exact Hitem.
Defined.

(** ** Calling a wrapped host callable through its proxy *)

Lemma plain_primitive (a : pyval) :
  primitive a = true -> plain a = Some (encode_primitive a).
Proof. destruct a; try discriminate; reflexivity. Qed.

Lemma toPy_primitive (js : JSEvaluator) (a : pyval) (inst : option QJSValue) :
  primitive a = true ->
  toPy js (encode_primitive a) inst = Ok (snapshot_of a) /\
  primitive (snapshot_of a) = true.
Proof.
  destruct a as [|b|n|d|s| | | |]; try discriminate; intros _;
    try (split; reflexivity).
  - destruct (decode_number_spec (float_of_int n)) as [Hb Hc].
    split; [exact Hb|]. simpl. destruct Hc as [[m ->]| ->]; reflexivity.
  - destruct (decode_number_spec d) as [Hb Hc].
    split; [exact Hb|]. simpl. destruct Hc as [[m ->]| ->]; reflexivity.
Qed.

Lemma toJS_each_primitive evaluate (args : list pyval) (js : JSEvaluator) :
  forallb primitive args = true ->
  toJS_each evaluate args js = (Ok (encode_primitive <$> args), js).
Proof.
  induction args as [|a args IH]; intros H; [reflexivity|].
  simpl in H. apply andb_true_iff in H as [Ha H]. simpl.
  rewrite (toJS_plain evaluate a _ js (plain_primitive a Ha)), (IH H). reflexivity.
Qed.

Lemma mapM_toPy_primitive (js : JSEvaluator) (inst : option QJSValue) (args : list pyval) :
  forallb primitive args = true ->
  mapM (fun x => toPy js x inst) (encode_primitive <$> args) = Ok (snapshot_of <$> args).
Proof.
  induction args as [|a args IH]; intros H; [reflexivity|].
  simpl in H. apply andb_true_iff in H as [Ha H].
  rewrite !fmap_cons, mapM_cons, (proj1 (toPy_primitive js a inst Ha)), (IH H).
  reflexivity.
Qed.

Lemma iteritems_primitive (js : JSEvaluator) (a : pyval) :
  primitive a = true ->
  iteritems js a = Raise (new_exc AttributeError (ArgStr "object has no attribute 'iteritems'")).
Proof. destruct a; try discriminate; reflexivity. Qed.

(** With primitive arguments the first binding attempt fails before the
    callable runs, in the way that leads to the second. *)
Lemma call_with_kwargs_primitive py_call (func : pyval) (args : list pyval)
  (js : JSEvaluator) :
  forallb primitive args = true ->
  exists e, call_with_kwargs py_call func args js = (Raised e [], js) /\
            binding_style e = true.
Proof.
  intros H. unfold call_with_kwargs.
  destruct (last args) as [a|] eqn:Hlast.
  - assert (Ha : primitive a = true).
    { apply last_Some in Hlast as [l' ->].
      rewrite forallb_app in H. apply andb_true_iff in H as [_ H].
      simpl in H. apply andb_true_iff in H as [H _]. exact H. }
    rewrite (iteritems_primitive js a Ha). eexists. split; reflexivity.
  - eexists. split; reflexivity.
Qed.

Lemma forallb_primitive_snapshot (args : list pyval) :
  forallb primitive args = true -> forallb primitive (snapshot_of <$> args) = true.
Proof.
  induction args as [|a args IH]; intros H; [reflexivity|].
  simpl in H. apply andb_true_iff in H as [Ha H].
  rewrite fmap_cons. simpl.
  rewrite (proj2 (toPy_primitive (JSEvaluator_init ∅) a None Ha)), (IH H). reflexivity.
Qed.

(** What the dispatcher does for a call with primitive arguments. *)
Lemma callback_primitive evaluate (jseval_dir : string) py_call (id : string)
  (js : JSEvaluator) (func : pyval) (r : nat) (args : list pyval) :
  js_funcs js !! id = Some func ->
  cb_args js = Some (QObject r) ->
  js_heap js !! r = Some (JsObj (CArray (encode_primitive <$> args)) [] None) ->
  forallb primitive args = true ->
  callback evaluate jseval_dir py_call id js
  = match py_call func (snapshot_of <$> args) [] (with_args js None) with
    | (Returned result, js1) => write_result evaluate result js1
    | (Raised e tb, js1) =>
        (None, with_result
                 (if negb (isinstance e JSError)
                  then with_exceptionStore js1
                         (<[class_name (exc_class e) := exc_class e]>
                            (pythonExceptionStore js1))
                  else js1)
                 (Some (exception_record jseval_dir e tb)))
    end.
Proof.
  intros Hf Hargs Hr Hprim. unfold callback. rewrite Hf, Hargs.
  assert (Hiter : JSArray.__iter__ (with_args js None) (QObject r)
                  = Ok (snapshot_of <$> args)).
  { rewrite JSArray_iter_elements.
    unfold elements, class_of. simpl. rewrite Hr. simpl.
    apply mapM_toPy_primitive. exact Hprim. }
  rewrite Hiter.
  destruct (call_with_kwargs_primitive py_call func (snapshot_of <$> args)
              (with_args js None) (forallb_primitive_snapshot args Hprim))
    as (e & -> & Hbs).
  unfold binding_style in Hbs. rewrite Hbs.
  destruct (py_call func (snapshot_of <$> args) [] (with_args js None)) as [[v|e' tb] js1];
    reflexivity.
Qed.

Lemma wrapper_primitive_returns evaluate (jseval_dir : string) py_call
  (id stack : string) (js : JSEvaluator) (func : pyval) (args : list pyval)
  (v : pyval) (js1 : JSEvaluator) (q : QJSValue) (js2 : JSEvaluator) :
  js_funcs js !! id = Some func ->
  forallb primitive args = true ->
  py_call func (snapshot_of <$> args) []
    (dispatch_state_with js (encode_primitive <$> args)) = (Returned v, js1) ->
  toJS evaluate v js1 = (Ok q, js2) ->
  wrapper evaluate jseval_dir py_call id (encode_primitive <$> args) stack js
  = (Return q, with_result js2 None).
Proof.
  intros Hf Hprim Hcall Hq. unfold wrapper, alloc.
  set (r := fresh (dom (js_heap js))).
  erewrite (callback_primitive evaluate jseval_dir py_call id _ func r args);
    [|exact Hf|reflexivity|simpl; apply lookup_insert_eq|exact Hprim].
  change (py_call func (snapshot_of <$> args) [] _)
    with (py_call func (snapshot_of <$> args) []
            (dispatch_state_with js (encode_primitive <$> args))).
  rewrite Hcall. unfold write_result. rewrite Hq. reflexivity.
Qed.

(** X12.  Calling the proxy of a wrapped host callable with primitive
    arguments and no keywords reaches the callable itself: the dispatcher's
    first binding attempt fails before the callable runs (a primitive last
    argument has no [iteritems], an empty argument list has no last item), so
    the callable is called exactly once, with the decoded arguments as
    positional arguments; what it returns is converted, handed to the script
    side, decoded and returned to the caller, and the shared slot is left
    empty.  For a primitive result the caller gets the result as the decoder
    renders it. *)
Theorem call_wrapped_callable evaluate (jseval_dir : string) py_call callWithInstance
  (global_ : QJSValue) (js : JSEvaluator) (id : string) (func : pyval) (w : QJSValue)
  (inst : option QJSValue) (args : list pyval) :
  runs_wrappers evaluate jseval_dir py_call callWithInstance ->
  js_funcs js !! id = Some func ->
  class_of (js_heap js) w = Some (CFunction (Some id)) ->
  forallb primitive args = true ->
  let js0 := dispatch_state_with js (encode_primitive <$> args) in
  (forall v js1 q js2,
     py_call func (snapshot_of <$> args) [] js0 = (Returned v, js1) ->
     toJS evaluate v js1 = (Ok q, js2) ->
     __call__ evaluate callWithInstance global_ w inst args [] js
     = (x ← toPy (with_result js2 None) q None; throwIfNecessary x,
        with_result js2 None)) /\
  (forall v js1,
     py_call func (snapshot_of <$> args) [] js0 = (Returned v, js1) ->
     primitive v = true ->
     __call__ evaluate callWithInstance global_ w inst args [] js
     = (Ok (snapshot_of v), with_result js1 None)).
Proof.
  intros Hruns Hf Hw Hprim js0.
  assert (Hfirst : forall v js1 q js2,
            py_call func (snapshot_of <$> args) [] js0 = (Returned v, js1) ->
            toJS evaluate v js1 = (Ok q, js2) ->
            __call__ evaluate callWithInstance global_ w inst args [] js
            = (x ← toPy (with_result js2 None) q None; throwIfNecessary x,
               with_result js2 None)).
  { intros v js1 q js2 Hcall Hq. unfold __call__, _handleCall, isCallable.
    rewrite Hw. cbn [negb]. rewrite (toJS_each_primitive evaluate args js Hprim).
    destruct (Hruns w (default global_ inst) (encode_primitive <$> args) js id Hw)
      as [stack ->].
    rewrite (wrapper_primitive_returns evaluate jseval_dir py_call id stack js func
               args v js1 q js2 Hf Hprim Hcall Hq).
    reflexivity. }
  split; [exact Hfirst|].
  intros v js1 Hcall Hv.
  rewrite (Hfirst v js1 (encode_primitive v) js1 Hcall
             (toJS_plain evaluate v _ js1 (plain_primitive v Hv))).
  rewrite (proj1 (toPy_primitive (with_result js1 None) v None Hv)). simpl.
  destruct (toPy_primitive js1 v None Hv) as [_ Hp].
  destruct (snapshot_of v); try discriminate; reflexivity.
Qed.

Lemma call_wrapped_callable_witness :
  let js := Evaluator {[ 0%nat := newWrapper "7" ]} {[ "7" := 0%nat ]} None None
              {[ "7" := PyFunction 7 ]} 1 ∅ ∅ in
  exists js',
    __call__ evaluate_42 (call_wrappers evaluate_42 "/opt/jseval" py_call_add) QNull
      (QObject 0%nat) None [PyInt 1; PyInt 2] [] js
    = (Ok (PyInt 3), js') /\
    cb_result js' = None /\ cb_args js' = None.
Proof.
  intros js.
  destruct (call_wrapped_callable evaluate_42 "/opt/jseval" py_call_add
              (call_wrappers evaluate_42 "/opt/jseval" py_call_add) QNull
              js "7" (PyFunction 7) (QObject 0%nat) None [PyInt 1; PyInt 2])
    as (_ & Hcall).
  - intros func this args js1 id Hc. exists wrapper_line. unfold call_wrappers.
    rewrite Hc. reflexivity.
  - reflexivity.
  - reflexivity.
  - reflexivity.
  - eexists. split; [apply (Hcall (PyInt 3)); reflexivity|]. split; reflexivity.
Defined.

(** ** Calling a script function: arguments, keywords and error results *)

Lemma throwIfNecessary_value (r : result pyval) (v : pyval) :
  (x ← r; throwIfNecessary x) = Ok v -> r = Ok v /\ forall e, v <> PyException e.
Proof.
  destruct r as [x|e]; simpl; [|discriminate].
  destruct x; simpl; try discriminate; intros [= <-]; split; try reflexivity;
    intros e' He'; discriminate He'.
Qed.

(** X13.  A call of a script function from the host ([proxy(...)] or
    [proxy.new(...)]): a value that is not a function raises
    [AssertionError] and nothing is converted; the positional arguments are
    converted first, from left to right, and when one of them cannot be
    converted its exception is raised and the function is not called; without
    keywords the function gets the converted arguments and nothing else; with
    keywords (host data) it gets one more, last argument, an object that
    reads as the keywords; and the call never returns an exception object: an
    error value the function ends with is raised.  The same holds for what
    [eval] returns. *)
Theorem handleCall_protocol evaluate (self : QJSValue)
  (callFunc : list QJSValue -> JSEvaluator -> QJSValue * JSEvaluator)
  (args : list pyval) (kwargs : list (string * pyval)) (js : JSEvaluator) :
  (isCallable (js_heap js) self = false ->
     _handleCall evaluate self callFunc args kwargs js
     = (Raise (new_exc AssertionError (ArgStr "")), js)) /\
  (isCallable (js_heap js) self = true ->
     (forall e js' callFunc',
        toJS_each evaluate args js = (Raise e, js') ->
        _handleCall evaluate self callFunc' args kwargs js = (Raise e, js')) /\
     (forall qs js',
        toJS_each evaluate args js = (Ok qs, js') -> kwargs = [] ->
        _handleCall evaluate self callFunc args kwargs js
        = (let '(r, js'') := callFunc qs js' in
           (x ← toPy js'' r None; throwIfNecessary x, js''))) /\
     (forall qs js',
        toJS_each evaluate args js = (Ok qs, js') -> kwargs <> [] ->
        host_data (PyDict kwargs) = true ->
        exists q js1,
          toJS evaluate (PyDict kwargs) js' = (Ok q, js1) /\
          reads js1 q (PyDict kwargs) /\
          _handleCall evaluate self callFunc args kwargs js
          = (let '(r, js'') := callFunc (qs ++ [q]) js1 in
             (x ← toPy js'' r None; throwIfNecessary x, js'')))) /\
  (forall v js',
     _handleCall evaluate self callFunc args kwargs js = (Ok v, js') ->
     forall e, v <> PyException e) /\
  (forall code path line v js',
     eval evaluate code path line js = (Ok v, js') -> forall e, v <> PyException e).
Proof.
  split; [|split; [|split]].
  - intros Hc. unfold _handleCall. rewrite Hc. reflexivity.
  - intros Hc. split; [|split].
    + intros e js' callFunc' He. unfold _handleCall. rewrite Hc, He. reflexivity.
    + intros qs js' Hqs ->. unfold _handleCall. rewrite Hc, Hqs. reflexivity.
    + intros qs js' Hqs Hne Hdata.
      destruct (toJS_converts evaluate (PyDict kwargs) Hdata js')
        as (q & js1 & Hq & _ & Hread).
      exists q, js1. split; [exact Hq|]. split; [apply Hread; auto|].
      unfold _handleCall. rewrite Hc, Hqs. cbn [negb].
      destruct kwargs as [|kv kwargs]; [contradiction|]. rewrite Hq. reflexivity.
  - intros v js' H. unfold _handleCall in H.
    destruct (negb (isCallable (js_heap js) self)); [discriminate|].
    destruct (toJS_each evaluate args js) as [[qs|e0] js0]; [|discriminate].
    destruct (match kwargs with
              | [] => (Ok qs, js0)
              | _ :: _ =>
                  match toJS evaluate (PyDict kwargs) js0 with
                  | (Ok q, js1) => (Ok (qs ++ [q]), js1)
                  | (Raise e1, js1) => (Raise e1, js1)
                  end
              end) as [[qs'|e0] js1]; [|discriminate].
    destruct (callFunc qs' js1) as [r js2].
    injection H as H _. apply (throwIfNecessary_value _ _ H).
  - intros code path line v js' H. unfold eval in H.
    destruct (eval_prepare code path js) as [label js0].
    destruct (evaluate code label line js0) as [r js1].
    injection H as H _. apply (throwIfNecessary_value _ _ H).
Qed.

Lemma handleCall_protocol_witness :
  let js := Evaluator {[ 0%nat := JsObj (CFunction None) [] None;
                         1%nat := JsObj CPlain [] None ]}
              ∅ None None ∅ 1 ∅ ∅ in
  let identity (qs : list QJSValue) (js : JSEvaluator) := (default QUndefined (head qs), js) in
  _handleCall evaluate_42 (QObject 1%nat) identity [PyInt 1] [] js
    = (Raise (new_exc AssertionError (ArgStr "")), js) /\
  _handleCall evaluate_42 (QObject 0%nat) identity [PyInt 1; PyObject_] [] js
    = (Raise (new_exc ValueError
                (ArgStr "Cannot convert object of type '<type 'object'>' to a JS value")),
       js) /\
  _handleCall evaluate_42 (QObject 0%nat) identity [PyInt 1; PyInt 2] [] js
    = (Ok (PyInt 1), js).
Proof.
  intros js identity.
  destruct (handleCall_protocol evaluate_42 (QObject 1%nat) identity [PyInt 1] [] js)
    as (Hassert & _).
  destruct (handleCall_protocol evaluate_42 (QObject 0%nat) identity
              [PyInt 1; PyObject_] [] js) as (_ & Hconv & _).
  destruct (handleCall_protocol evaluate_42 (QObject 0%nat) identity
              [PyInt 1; PyInt 2] [] js) as (_ & Hcall & _).
  split; [exact (Hassert eq_refl)|].
  split; [exact (proj1 (Hconv eq_refl) _ _ identity eq_refl)|].
  rewrite (proj1 (proj2 (Hcall eq_refl)) _ _ eq_refl eq_refl). reflexivity.
Defined.

(** ** Deep copies: cycles, regular expressions, copies of copies *)

Lemma mapM_Ok_elem {A B} (f : A -> result B) (l : list A) (ys : list B) (x : A) :
  mapM f l = Ok ys -> x ∈ l -> exists y, f x = Ok y.
Proof.
  intros H Hx. apply mapM_Ok in H.
  induction H as [|a y l ys Ha _ IH]; [apply elem_of_nil in Hx; contradiction|].
  apply elem_of_cons in Hx as [->|Hx]; [eauto|apply IH; exact Hx].
Qed.

Lemma assoc_key {A} (k : string) (l : list (string * A)) (a : A) :
  assoc k l = Some a -> k ∈ (fst <$> l).
Proof.
  induction l as [|[k' a'] l IH]; simpl; [discriminate|].
  destruct (bool_decide (k = k')) eqn:Hk.
  - apply bool_decide_eq_true in Hk. subst. intros _. left.
  - intros H. right. apply IH. exact H.
Qed.

(** A deep copy that succeeds has succeeded, with less fuel, on every
    object the copied one refers to. *)
Lemma deepcopy_descends (js : JSEvaluator) (r r' : nat) :
  refers (js_heap js) r r' ->
  forall fuel inst p b,
    toPy js (QObject r) inst = Ok p -> deepcopy (S fuel) js p = Ok b ->
    exists inst' p' b',
      toPy js (QObject r') inst' = Ok p' /\ deepcopy fuel js p' = Ok b'.
Proof.
  intros [r0 o l r0' Hr Hc Hin|r0 o k r0' Hr Hc Hk] fuel inst p b Hp Hcopy.
  - rewrite (toPy_array js r0 o l inst Hr Hc) in Hp. injection Hp as <-.
    rewrite deepcopy_array in Hcopy.
    apply bind_Ok in Hcopy as (items & Hitems & _).
    assert (Hel : QObject r0' ∈ elements (js_heap js) (QObject r0)).
    { unfold elements, class_of. rewrite Hr. simpl. rewrite Hc. exact Hin. }
    destruct (mapM_Ok_elem _ _ _ _ Hitems Hel) as [y Hy].
    apply bind_Ok in Hy as (p' & Hp' & Hb'). eauto.
  - assert (Hp0 : p = PyProxy ProxyObject (QObject r0) inst).
    { unfold toPy, isDate, isRegExp, isArray, class_of in Hp. rewrite Hr in Hp.
      simpl in Hp. destruct Hc as [Hc|[w Hc]]; rewrite Hc in Hp;
        injection Hp as <-; reflexivity. }
    subst p. simpl in Hcopy.
    apply bind_Ok in Hcopy as (items & Hitems & _).
    assert (Hkey : k ∈ JSObject.__iter__ js (QObject r0)).
    { unfold JSObject.__iter__. rewrite Hr. eapply assoc_key. exact Hk. }
    destruct (mapM_Ok_elem _ _ _ _ Hitems Hkey) as [y Hy].
    apply bind_Ok in Hy as (p' & Hp' & Hy).
    apply bind_Ok in Hy as (b' & Hb' & _).
    exists (Some (QObject r0)), p', b'. split; [|exact Hb'].
    unfold JSObject.__getitem__, JSObject._get, hasProperty, property in Hp'.
    assert (Hl : lookup_chain (size (js_heap js)) (js_heap js) r0 k = Some (QObject r0')).
    { destruct (size (js_heap js)); simpl; rewrite Hr, Hk; reflexivity. }
    rewrite Hl in Hp'. rewrite bool_decide_eq_true_2 in Hp' by eauto. exact Hp'.
Qed.

Lemma deepcopy_descends_path (js : JSEvaluator) (r r' : nat) :
  tc (refers (js_heap js)) r r' ->
  forall fuel inst p b,
    toPy js (QObject r) inst = Ok p -> deepcopy fuel js p = Ok b ->
    exists fuel' inst' p' b',
      (fuel' < fuel)%nat /\
      toPy js (QObject r') inst' = Ok p' /\ deepcopy fuel' js p' = Ok b'.
Proof.
  induction 1 as [r r' Hstep|r r1 r' Hstep _ IH]; intros fuel inst p b Hp Hcopy.
  - destruct fuel as [|fuel]; [discriminate Hcopy|].
    destruct (deepcopy_descends js r r' Hstep fuel inst p b Hp Hcopy)
      as (inst' & p' & b' & Hp' & Hb').
    exists fuel, inst', p', b'. split; [lia|]. split; assumption.
  - destruct fuel as [|fuel]; [discriminate Hcopy|].
    destruct (deepcopy_descends js r r1 Hstep fuel inst p b Hp Hcopy)
      as (inst1 & p1 & b1 & Hp1 & Hb1).
    destruct (IH fuel inst1 p1 b1 Hp1 Hb1) as (fuel' & inst' & p' & b' & Hlt & Hp' & Hb').
    exists fuel', inst', p', b'. split; [lia|]. split; assumption.
Qed.

Lemma deepcopy_cycle (js : JSEvaluator) (r : nat) :
  tc (refers (js_heap js)) r r ->
  forall fuel inst p b, toPy js (QObject r) inst = Ok p -> deepcopy fuel js p <> Ok b.
Proof.
  intros Hcycle fuel. induction fuel as [fuel IH] using lt_wf_ind.
  intros inst p b Hp Hcopy.
  destruct (deepcopy_descends_path js r r Hcycle fuel inst p b Hp Hcopy)
    as (fuel' & inst' & p' & b' & Hlt & Hp' & Hb').
  exact (IH fuel' Hlt inst' p' b' Hp' Hb').
Qed.

(** X14.  A deep copy never returns for a proxy from which the engine's
    references lead back to where they started, however much recursion the
    host allows; nor for a proxy whose object refers to a regular
    expression.  A self-containing array with the host's recursion limit as
    fuel ends in [RuntimeError]. *)
Theorem deepcopy_never_returns (js : JSEvaluator) (r : nat) (inst : option QJSValue)
  (p : pyval) :
  toPy js (QObject r) inst = Ok p ->
  (tc (refers (js_heap js)) r r ->
     forall fuel, exists e, deepcopy fuel js p = Raise e) /\
  (forall r1 r2 o pattern ci,
     rtc (refers (js_heap js)) r r1 -> refers (js_heap js) r1 r2 ->
     js_heap js !! r2 = Some o -> o_class o = CRegExp pattern ci ->
     forall fuel, exists e, deepcopy fuel js p = Raise e) /\
  (forall fuel,
     deepcopy fuel js_cyclic (PyProxy ProxyArray (QObject 0%nat) None)
     = Raise (new_exc RuntimeError (ArgStr "maximum recursion depth exceeded"))).
Proof.
  intros Hp. split; [|split].
  - intros Hcycle fuel.
    destruct (deepcopy fuel js p) as [b|e] eqn:Hcopy; [|eauto].
    exfalso. exact (deepcopy_cycle js r Hcycle fuel inst p b Hp Hcopy).
  - intros r1 r2 o pattern ci Hpath Hstep Hr2 Hc fuel.
    destruct (deepcopy fuel js p) as [b|e] eqn:Hcopy; [|eauto].
    exfalso.
    assert (Hreach : tc (refers (js_heap js)) r r2)
      by (eapply tc_rtc_l; [exact Hpath|apply tc_once; exact Hstep]).
    destruct (deepcopy_descends_path js r r2 Hreach fuel inst p b Hp Hcopy)
      as (fuel' & inst' & p' & b' & _ & Hp' & Hb').
    unfold toPy, isDate, isRegExp, isArray, buildRegExp, class_of in Hp'.
    rewrite Hr2 in Hp'. simpl in Hp'. rewrite Hc in Hp'. injection Hp' as <-.
    destruct fuel'; discriminate Hb'.
  - induction fuel as [|fuel IH]; [reflexivity|].
    rewrite deepcopy_array.
    change (elements (js_heap js_cyclic) (QObject 0%nat)) with [QObject 0%nat].
    rewrite mapM_cons.
    change (toPy js_cyclic (QObject 0%nat) (Some (QObject 0%nat)))
      with (Ok (A := pyval) (PyProxy ProxyArray (QObject 0%nat) None)).
    simpl mbind at 2. rewrite IH. reflexivity.
Qed.

Lemma deepcopy_never_returns_witness :
  tc (refers (js_heap js_cyclic)) 0%nat 0%nat /\
  (forall fuel, exists e,
     deepcopy fuel js_cyclic (PyProxy ProxyArray (QObject 0%nat) None) = Raise e).
Proof.
  assert (Hloop : tc (refers (js_heap js_cyclic)) 0%nat 0%nat).
  { apply tc_once.
    eapply (refers_element _ 0%nat _ [QObject 0%nat] 0%nat);
      [reflexivity|reflexivity|left]. }
  split; [exact Hloop|].
  destruct (deepcopy_never_returns js_cyclic 0%nat None
              (PyProxy ProxyArray (QObject 0%nat) None) eq_refl) as (Hcycle & _).
  apply Hcycle. exact Hloop.
Defined.

Lemma mapM_fixed {A B} (f : A -> result B) (g : B -> result B) (l : list A) (ys : list B) :
  mapM f l = Ok ys -> (forall x y, f x = Ok y -> g y = Ok y) -> mapM g ys = Ok ys.
Proof.
  intros H Hfg. apply mapM_Ok in H. apply mapM_Ok.
  induction H as [|x y l ys Hx _ IH]; constructor; [eapply Hfg; exact Hx|exact IH].
Qed.

(** X15.  The deep copy of a deep copy is the copy itself, whatever has
    happened to the engine in between and with no more recursion than the
    first copy took: a snapshot holds nothing the second copy could follow
    into the engine. *)
Theorem deepcopy_idempotent (fuel : nat) (js js' : JSEvaluator) :
  forall v b, deepcopy fuel js v = Ok b -> deepcopy fuel js' b = Ok b.
Proof.
  induction fuel as [|fuel IH]; intros v b H; [discriminate H|].
  destruct v as [|x|n|d|s|pt ci|e|k self inst|ty call seq map date];
    try (simpl in H; injection H as <-; reflexivity);
    try (simpl in H; discriminate H).
  - destruct k.
    + rewrite deepcopy_array in H. apply bind_Ok in H as (items & Hitems & Hb).
      injection Hb as <-. simpl.
      rewrite (mapM_fixed _ (deepcopy fuel js') _ _ Hitems); [reflexivity|].
      intros x y Hy. apply bind_Ok in Hy as (item & _ & Hy). eapply IH. exact Hy.
    + simpl in H. apply bind_Ok in H as (items & Hitems & Hb).
      injection Hb as <-. simpl.
      rewrite (mapM_fixed _ (fun kv => v' ← deepcopy fuel js' (snd kv); Ok (fst kv, v'))
                 _ _ Hitems); [reflexivity|].
      intros key [k' y] Hy. apply bind_Ok in Hy as (value & _ & Hy).
      apply bind_Ok in Hy as (value' & Hv' & Hy). injection Hy as <- <-.
      simpl. rewrite (IH _ _ Hv'). reflexivity.
  - simpl in H. apply bind_Ok in H as (seq' & Hseq & H).
    apply bind_Ok in H as (map' & Hmap & H). injection H as <-. simpl.
    assert (Hs : match seq' with
                 | Some l => l' ← mapM (deepcopy fuel js') l; Ok (Some l')
                 | None => Ok None
                 end = Ok seq').
    { destruct seq as [l|]; [|injection Hseq as <-; reflexivity].
      apply bind_Ok in Hseq as (l' & Hl' & Hseq). injection Hseq as <-.
      rewrite (mapM_fixed _ (deepcopy fuel js') _ _ Hl'); [reflexivity|].
      intros x y Hy. eapply IH. exact Hy. }
    assert (Hm : match map' with
                 | Some kvs =>
                     kvs' ← mapM (fun kv => v' ← deepcopy fuel js' (snd kv);
                                            Ok (fst kv, v')) kvs;
                     Ok (Some kvs')
                 | None => Ok None
                 end = Ok map').
    { destruct map as [kvs|]; [|injection Hmap as <-; reflexivity].
      apply bind_Ok in Hmap as (kvs' & Hkvs' & Hmap). injection Hmap as <-.
      rewrite (mapM_fixed _ (fun kv => v' ← deepcopy fuel js' (snd kv); Ok (fst kv, v'))
                 _ _ Hkvs'); [reflexivity|].
      intros kv [k' y] Hy. apply bind_Ok in Hy as (v' & Hv' & Hy).
      injection Hy as <- <-. simpl. rewrite (IH _ _ Hv'). reflexivity. }
    rewrite Hs. simpl. rewrite Hm. reflexivity.
Qed.

Lemma deepcopy_idempotent_witness :
  deepcopy 3 (JSEvaluator_init ∅) (PyList [JSObjectCopy [("key", PyInt 1)]])
    = Ok (PyList [JSObjectCopy [("key", PyInt 1)]]).
Proof.
  apply (deepcopy_idempotent 3 js_nested (JSEvaluator_init ∅)
           (PyProxy ProxyArray (QObject 0%nat) None)).
  reflexivity.
Defined.

(** ** A failing callable behind a proxy *)



(** X17.  A script error is decoded only if the innermost line of its stack
    can be turned into a traceback entry: when converting that line fails,
    decoding the error raises the failure (an [AttributeError], [ValueError],
    [KeyError] or [IndexError] of the host) and [eval] raises it in place of
    the script's error, whose name and message are lost.  An error whose
    stack is the empty text is such a case: decoding it raises
    [AttributeError]. *)
Theorem toPy_error_unresolved (js : JSEvaluator) (r : nat) (o : jsobj)
  (name message stack : string) (old : list frame) (first : string) (rest : list string)
  (e : pyexc) (inst : option QJSValue) :
  js_heap js !! r = Some o ->
  o_class o = CError name message stack old ->
  split newline stack = first :: rest ->
  contains INIT_SCRIPT_NAME first = false ->
  stack_item (js_codeStore js) first = Raise e ->
  toPy js (QObject r) inst = Raise e /\
  (forall evaluate code path line js0,
     evaluate code (fst (eval_prepare code path js0)) line (snd (eval_prepare code path js0))
       = (QObject r, js) ->
     eval evaluate code path line js0 = (Raise e, js)) /\
  (stack = "" ->
   e = new_exc AttributeError (ArgStr "'NoneType' object has no attribute 'group'")).
Proof.
  intros Hr Hc Hsplit Hinit Hitem.
  assert (HtoPy : forall inst', toPy js (QObject r) inst' = Raise e).
  { intros inst'. unfold toPy, isDate, isRegExp, isArray, class_of.
    rewrite Hr. simpl. rewrite Hc.
    unfold buildPyError, stackInfo_of. rewrite Hsplit, Hinit. simpl.
    rewrite Hinit. simpl. rewrite Hitem. reflexivity. }
  split; [apply HtoPy|]. split.
  - intros evaluate code path line js0 Hrun. unfold eval.
    destruct (eval_prepare code path js0) as [label js0']. simpl in Hrun.
    rewrite Hrun, HtoPy. reflexivity.
  - intros ->. simpl in Hsplit. injection Hsplit as <- <-.
    unfold stack_item in Hitem. simpl in Hitem. injection Hitem as <-. reflexivity.
Qed.

Lemma toPy_error_unresolved_witness :
  let js := Evaluator {[ 0%nat := JsObj (CError "Error" "Hi!" "f@lib.js:3" []) [] None ]}
              ∅ None None ∅ 2 {[ "<JS string 1>" := "f()" ]} ∅ in
  toPy js (QObject 0%nat) None = Raise (new_exc KeyError (ArgStr "lib.js")).
Proof.
  intros js.
  apply (toPy_error_unresolved js 0%nat
           (JsObj (CError "Error" "Hi!" "f@lib.js:3" []) [] None)
           "Error" "Hi!" "f@lib.js:3" [] "f@lib.js:3" []);
    reflexivity.
Defined.

(** ** Comparing proxies *)

Lemma py_len_TypeError (js : JSEvaluator) (x : pyval) (e : pyexc) :
  py_len js x = Raise e -> isinstance e TypeError = true.
Proof.
  destruct x as [| | | | | | |[] ? ?|? ? [?|] [?|] ?]; simpl; try discriminate;
    intros [= <-]; reflexivity.
Qed.

Lemma all_items_equal_missing host_eq (js : JSEvaluator) (self : QJSValue)
  ty call (entries : list (string * pyval)) date (keys : list string) :
  Forall (fun k => exists v, JSObject.__getitem__ js self k = Ok v /\
                             forall w, assoc k entries = Some w -> host_eq js v w = Ok true)
    keys ->
  Exists (fun k => assoc k entries = None) keys ->
  exists k, k ∈ keys /\ assoc k entries = None /\
            all_items_equal host_eq js self (PyInst ty call None (Some entries) date) keys
            = Raise (new_exc KeyError (ArgStr k)).
Proof.
  induction keys as [|k keys IH]; intros Hall Hex; [inversion Hex|].
  apply Forall_cons in Hall as [(v & Hv & Heq) Hall].
  simpl. rewrite Hv. simpl.
  destruct (assoc k entries) as [w|] eqn:Hk.
  - simpl. rewrite (Heq w eq_refl). simpl.
    apply Exists_cons in Hex as [Hex|Hex]; [congruence|].
    destruct (IH Hall Hex) as (k' & Hin & Hnone & Hr).
    exists k'. split; [right; exact Hin|]. split; assumption.
  - exists k. split; [left|]. split; [exact Hk|reflexivity].
Qed.

(** X18.  [proxy == other] for an object proxy: it is [False] when [other]
    has no length (the [TypeError] is caught) and when the number of own keys
    differs from [len(other)], and [True] when both are empty, also for an
    empty list or string.  But against a host dictionary of the same size in
    which a key of the proxy is missing, and whose values under the common
    keys are equal, the comparison does not answer [False]: the [KeyError]
    for the missing key escapes.  Against a non-empty list of the same size
    it is [False]: the [TypeError] of indexing a list by a key is caught. *)
Theorem JSObject_eq_edges host_eq (js : JSEvaluator) (self : QJSValue) (other : pyval) :
  let keys := JSObject.__iter__ js self in
  (forall e, py_len js other = Raise e -> JSObject_eq host_eq js self other = Ok false) /\
  (forall n, py_len js other = Ok n -> Z.of_nat (length keys) <> n ->
     JSObject_eq host_eq js self other = Ok false) /\
  (keys = [] -> py_len js other = Ok 0 -> JSObject_eq host_eq js self other = Ok true) /\
  (forall ty call entries date,
     other = PyInst ty call None (Some entries) date ->
     length entries = length keys ->
     Forall (fun k => exists v, JSObject.__getitem__ js self k = Ok v /\
                                forall w, assoc k entries = Some w ->
                                          host_eq js v w = Ok true) keys ->
     Exists (fun k => assoc k entries = None) keys ->
     exists k, k ∈ keys /\ assoc k entries = None /\
               JSObject_eq host_eq js self other = Raise (new_exc KeyError (ArgStr k))) /\
  (forall ty call items m date k keys' v,
     other = PyInst ty call (Some items) m date ->
     length items = length keys -> keys = k :: keys' ->
     JSObject.__getitem__ js self k = Ok v ->
     JSObject_eq host_eq js self other = Ok false).
Proof.
  intros keys. unfold JSObject_eq. fold keys.
  split; [|split; [|split; [|split]]].
  - intros e He. rewrite He. simpl. rewrite (py_len_TypeError js other e He). reflexivity.
  - intros n Hn Hne. rewrite Hn. simpl.
    apply Z.eqb_neq in Hne. rewrite Hne. reflexivity.
  - intros Hk Hn. rewrite Hn, Hk. reflexivity.
  - intros ty call entries date -> Hlen Hall Hex.
    destruct (all_items_equal_missing host_eq js self ty call entries date keys Hall Hex)
      as (k & Hin & Hnone & Hr).
    exists k. split; [exact Hin|]. split; [exact Hnone|].
    simpl. rewrite Hlen, Z.eqb_refl, Hr. reflexivity.
  - intros ty call items m date k keys' v -> Hlen Hkeys Hv.
    simpl. rewrite Hlen, Z.eqb_refl, Hkeys. simpl. rewrite Hv. reflexivity.
Qed.

(** The test of unequal objects, and the dictionary that lacks a key. *)
Lemma JSObject_eq_edges_witness :
  let host_eq (js : JSEvaluator) (a b : pyval) := Ok (py_eq a b) in
  JSObject_eq host_eq js_inherit (QObject 1%nat) PyObject_ = Ok false /\
  JSObject_eq host_eq js_inherit (QObject 1%nat) (PyDict [("z", PyBool true)])
    = Raise (new_exc KeyError (ArgStr "a")) /\
  JSObject_eq host_eq js_inherit (QObject 1%nat) (PyDict [("a", PyBool true)]) = Ok true /\
  JSObject_eq host_eq js_inherit (QObject 1%nat) (PyList [PyBool true]) = Ok false.
Proof.
  intros host_eq.
  destruct (JSObject_eq_edges host_eq js_inherit (QObject 1%nat) PyObject_)
    as (Hlen & _).
  destruct (JSObject_eq_edges host_eq js_inherit (QObject 1%nat)
              (PyDict [("z", PyBool true)])) as (_ & _ & _ & Hmiss & _).
  destruct (JSObject_eq_edges host_eq js_inherit (QObject 1%nat)
              (PyList [PyBool true])) as (_ & _ & _ & _ & Hlist).
  split; [exact (Hlen _ eq_refl)|]. split; [|split; [reflexivity|]].
  - destruct (Hmiss _ _ _ _ eq_refl eq_refl) as (k & Hin & _ & Hr).
    + constructor; [|constructor]. exists (PyBool true). split; [reflexivity|].
      intros w Hw. discriminate Hw.
    + left. reflexivity.
    + apply list_elem_of_singleton in Hin. subst k. exact Hr.
  - exact (Hlist _ _ _ _ _ "a" [] (PyBool true) eq_refl eq_refl eq_refl eq_refl).
Defined.

Lemma zip_items_Ok (f : Z -> result pyval) (idx : list Z) (xs items : list pyval) :
  mapM f idx = Ok xs -> length items = length xs ->
  zip_items (f <$> idx) ((fun item => Ok item) <$> items) = Ok (zip xs items).
Proof.
  intros Hxs. apply mapM_Ok in Hxs. revert items.
  induction Hxs as [|i x idx xs Hi _ IH]; intros items Hlen.
  - destruct items; [reflexivity|discriminate].
  - destruct items as [|item items]; [discriminate|].
    simpl in Hlen. injection Hlen as Hlen.
    rewrite !fmap_cons. simpl. rewrite Hi. simpl. rewrite (IH items Hlen). reflexivity.
Qed.

(** X19.  [proxy == other] for an array proxy: when [other] has no length
    the [TypeError] is not caught, so comparing an array proxy with [None]
    raises; when the lengths differ the answer is [False] and no element is
    decoded; against a host list of the same length the answer is the
    element-wise comparison of the decoded elements with the list's items,
    which stops at the first pair that differs. *)
Theorem JSArray_eq_edges host_eq (js : JSEvaluator) (self : QJSValue) (other : pyval) :
  (forall e, py_len js other = Raise e -> JSArray_eq host_eq js self other = Raise e) /\
  (forall n, py_len js other = Ok n -> JSArray.__len__ js self <> n ->
     JSArray_eq host_eq js self other = Ok false) /\
  (forall ty call items m date xs,
     other = PyInst ty call (Some items) m date ->
     JSArray.__iter__ js self = Ok xs -> length items = length xs ->
     JSArray_eq host_eq js self other = all_equal host_eq js (zip xs items)) /\
  JSArray_eq host_eq js self PyNone
    = Raise (new_exc TypeError (ArgStr "object has no len()")).
Proof.
  unfold JSArray_eq. split; [|split; [|split]].
  - intros e He. rewrite He. reflexivity.
  - intros n Hn Hne. rewrite Hn. simpl. apply Z.eqb_neq in Hne. rewrite Hne. reflexivity.
  - intros ty call items m date xs -> Hxs Hlen. simpl.
    assert (Hn : JSArray.__len__ js self = Z.of_nat (length items)).
    { rewrite Hlen. unfold JSArray.__iter__ in Hxs. apply mapM_length in Hxs.
      rewrite Hxs. unfold JSArray.indices. rewrite length_fmap, length_seq.
      unfold JSArray.__len__. lia. }
    rewrite Hn, Z.eqb_refl.
    rewrite (zip_items_Ok _ _ xs items Hxs Hlen). reflexivity.
  - reflexivity.
Qed.

Lemma JSArray_eq_edges_witness :
  let host_eq (js : JSEvaluator) (a b : pyval) := Ok (py_eq a b) in
  JSArray_eq host_eq js_1234 (QObject 0%nat) (PyList [PyInt 1; PyInt 2; PyInt 3]) = Ok false /\
  JSArray_eq host_eq js_1234 (QObject 0%nat)
    (PyList [PyInt 1; PyInt 2; PyInt 3; PyInt 4]) = Ok true /\
  JSArray_eq host_eq js_1234 (QObject 0%nat)
    (PyTuple [PyInt 1; PyInt 2; PyInt 0; PyInt 4]) = Ok false.
Proof.
  intros host_eq.
  destruct (JSArray_eq_edges host_eq js_1234 (QObject 0%nat)
              (PyList [PyInt 1; PyInt 2; PyInt 3])) as (_ & Hlen & _).
  destruct (JSArray_eq_edges host_eq js_1234 (QObject 0%nat)
              (PyList [PyInt 1; PyInt 2; PyInt 3; PyInt 4])) as (_ & _ & Heq & _).
  destruct (JSArray_eq_edges host_eq js_1234 (QObject 0%nat)
              (PyTuple [PyInt 1; PyInt 2; PyInt 0; PyInt 4])) as (_ & _ & Hne & _).
  split; [apply (Hlen 3); [reflexivity|vm_compute; discriminate]|].
  split.
  - rewrite (Heq _ _ _ _ _ [PyInt 1; PyInt 2; PyInt 3; PyInt 4] eq_refl eq_refl eq_refl).
    reflexivity.
  - rewrite (Hne _ _ _ _ _ [PyInt 1; PyInt 2; PyInt 3; PyInt 4] eq_refl eq_refl eq_refl).
    reflexivity.
Defined.

(** ** Script numbers decoded and sent back *)

Lemma iter_pos_shr_1 (k : positive) :
  forall m : positive,
    SpecFloat.iter_pos shr_1 k {| shr_m := Zpos (Pos.iter xO m k); shr_r := false; shr_s := false |}
    = {| shr_m := Zpos m; shr_r := false; shr_s := false |}.
Proof.
  induction k as [k IH|k IH|]; intros m; simpl.
  - rewrite IH, IH. reflexivity.
  - rewrite IH, IH. reflexivity.
  - reflexivity.
Qed.

Lemma canonical_digits (m : positive) (e : Z) :
  canonical_mantissa 53 1024 m e = true ->
  -1074 <= e /\ (Zpos (digits2_pos m) = 53 \/ (e = -1074 /\ Zpos (digits2_pos m) <= 53)).
Proof.
  unfold canonical_mantissa, fexp, emin. z_ops. intros H.
  apply Z.eqb_eq in H. lia.
Qed.

(** A positive integer that a binary64 datum with a non-negative exponent
    holds exactly is converted to that datum. *)
Lemma binary_round_shifted (s : bool) (m : positive) (e : Z) (p : positive) :
  Zpos (digits2_pos m) = 53 -> 0 <= e <= 971 -> Zpos p = Zpos m * 2 ^ e ->
  binary_round 53 1024 s p 0 = S754_finite s m e.
Proof.
  intros Hd He Hp.
  destruct e as [|k|k]; [| |lia].
  - rewrite Z.pow_0_r, Z.mul_1_r in Hp. injection Hp as ->.
    unfold binary_round, shl_align, fexp, emin. z_ops.
    rewrite Z.add_0_r, Hd.
    replace (Z.max (53 - 53) (3 - 1024 - 53) - 0) with 0 by lia.
    apply binary_round_aux_exact; lia.
  - assert (Hpk : p = Pos.iter xO m k).
    { apply Pos2Z.inj. rewrite Hp. symmetry. apply iter_xO_value. }
    subst p.
    unfold binary_round, shl_align, fexp, emin. z_ops.
    rewrite Z.add_0_r, digits2_iter_xO, Pos2Z.inj_add, Hd.
    replace (Z.max (53 + Zpos k - 53) (3 - 1024 - 53) - 0) with (Zpos k) by lia.
    unfold binary_round_aux, shr_fexp, fexp, emin, Zdigits2. z_ops.
    rewrite Z.add_0_r, digits2_iter_xO, Pos2Z.inj_add, Hd.
    replace (Z.max (53 + Zpos k - 53) (3 - 1024 - 53) - 0) with (Zpos k) by lia.
    cbn [shr shr_record_of_loc]. rewrite iter_pos_shr_1.
    cbn [shr_m loc_of_shr_record round_nearest_even].
    change (0 + Zpos k) with (Zpos k).
    rewrite ?Hd.
    replace (Z.max (53 + Zpos k - 53) (3 - 1024 - 53) - Zpos k) with 0 by lia.
    cbn [shr shr_m shr_record_of_loc].
    destruct (Zpos k <=? 1024 - 53) eqn:Hle; [reflexivity|]. apply Z.leb_gt in Hle. lia.
Qed.

(** A positive integer below 2^53 is converted to the normal datum that
    holds it. *)
Lemma binary_round_small (s : bool) (m : positive) (k : positive) (p : positive) :
  Zpos (digits2_pos m) = 53 -> Zpos k <= 1074 -> Zpos m = Zpos p * 2 ^ Zpos k ->
  binary_round 53 1024 s p 0 = S754_finite s m (Zneg k).
Proof.
  intros Hd Hk Hm.
  assert (Hmk : m = Pos.iter xO p k).
  { apply Pos2Z.inj. rewrite Hm. symmetry. apply iter_xO_value. }
  assert (Hdp : Zpos (digits2_pos p) = 53 - Zpos k).
  { rewrite Hmk, digits2_iter_xO, Pos2Z.inj_add in Hd. lia. }
  unfold binary_round, shl_align, fexp, emin. z_ops.
  rewrite Z.add_0_r, Hdp.
  replace (Z.max (53 - Zpos k - 53) (3 - 1024 - 53) - 0) with (Zneg k) by lia.
  replace (Z.max (53 - Zpos k - 53) (3 - 1024 - 53)) with (Zneg k) by lia.
  change (PosDef.Pos.iter xO p k) with (Pos.iter xO p k). rewrite <- Hmk.
  apply binary_round_aux_exact; lia.
Qed.

Lemma float_of_int_valid (s : bool) (m : positive) (e : Z) (n : Z) :
  valid_binary 53 1024 (S754_finite s m e) = true ->
  float_is_int (S754_finite s m e) n ->
  float_of_int n = S754_finite s m e.
Proof.
  unfold valid_binary, bounded. intros Hv Hn.
  apply andb_true_iff in Hv as [Hc He]. apply Z.leb_le in He.
  destruct (canonical_digits m e Hc) as [Hlo Hd].
  cbn [float_is_int] in Hn.
  assert (Hbound : Zpos m < 2 ^ 53).
  { pose proof (digits2_pos_bound m) as [_ Hhi].
    assert (2 ^ Zpos (digits2_pos m) <= 2 ^ 53) by (apply Z.pow_le_mono_r; lia). lia. }
  destruct (Z_le_gt_dec 0 e) as [Hpos|Hneg].
  - (* the exponent is not negative *)
    rewrite (Z.max_l e 0), (Z.max_r (- e) 0), Z.pow_0_r, Z.mul_1_r in Hn by lia.
    assert (Hd53 : Zpos (digits2_pos m) = 53) by lia.
    assert (H2 : 0 < 2 ^ e) by (apply Z.pow_pos_nonneg; lia).
    unfold float_of_int, binary_normalize.
    destruct s; cbn [cond_Zopp] in Hn.
    + destruct n as [|p|p]; [lia|lia|].
      apply binary_round_shifted; [exact Hd53|lia|].
      change (Zneg p) with (- Zpos p) in Hn. lia.
    + destruct n as [|p|p]; [lia| |lia].
      apply binary_round_shifted; [exact Hd53|lia|lia].
  - (* the exponent is negative *)
    rewrite (Z.max_r e 0), (Z.max_l (- e) 0), Z.pow_0_r, Z.mul_1_r in Hn by lia.
    destruct e as [|k|k]; [lia|lia|].
    change (- Zneg k) with (Zpos k) in Hn.
    assert (H2 : 0 < 2 ^ Zpos k) by (apply Z.pow_pos_nonneg; lia).
    assert (Hd53 : Zpos (digits2_pos m) = 53).
    { destruct Hd as [Hd|[Hk Hd]]; [exact Hd|]. exfalso.
      injection Hk as ->.
      assert (2 ^ 53 <= 2 ^ 1074) by (apply Z.pow_le_mono_r; lia).
      destruct s; cbn [cond_Zopp] in Hn; destruct n as [|p|p]; try lia;
        assert (1 * 2 ^ 1074 <= Zpos p * 2 ^ 1074)
          by (apply Z.mul_le_mono_nonneg_r; lia);
        change (Zneg p) with (- Zpos p) in *; lia. }
    unfold float_of_int, binary_normalize.
    destruct s; cbn [cond_Zopp] in Hn.
    + destruct n as [|p|p]; [lia|lia|].
      apply binary_round_small; [exact Hd53|lia|].
      change (Zneg p) with (- Zpos p) in Hn. lia.
    + destruct n as [|p|p]; [lia| |lia].
      apply binary_round_small; [exact Hd53|lia|lia].
Qed.



(** ** Shallow copies *)

Lemma mapM_pairs_keys {A} (f : string -> result A) (keys : list string)
  (entries : list (string * A)) :
  mapM (fun key => v ← f key; Ok (key, v)) keys = Ok entries ->
  fst <$> entries = keys /\ Forall (fun kv => f (fst kv) = Ok (snd kv)) entries.
Proof.
  intros H. apply mapM_Ok in H.
  induction H as [|k kv keys entries Hk _ [IHk IHf]]; [split; constructor|].
  apply bind_Ok in Hk as (v & Hv & Hkv). injection Hkv as <-.
  split; [rewrite fmap_cons, IHk; reflexivity|constructor; assumption].
Qed.

(** X21.  A shallow copy of a proxy is a host container of what the proxy
    yields: [copy(array proxy)] is the list of the decoded elements and
    [copy(object proxy)] is a [JSObjectCopy] with the proxy's own keys, each
    with the value the proxy reads under it.  Assigning to an item or key of
    the copy changes the copy only and leaves the evaluator as it was; but an
    element that is an object of the engine is held as a proxy of that very
    object, so it is shared with the original. *)
Theorem shallow_copy_shares evaluate (js : JSEvaluator) (self : QJSValue) :
  (forall b, JSArray.__copy__ js self = Ok b ->
     exists items,
       b = PyList items /\
       JSArray.__iter__ js self = Ok items /\
       (forall i x v, elements (js_heap js) self !! i = Some x -> items !! i = Some v ->
                      toPy js x (Some self) = Ok v) /\
       (forall i r o, elements (js_heap js) self !! i = Some (QObject r) ->
                      js_heap js !! r = Some o -> o_class o = CPlain ->
                      items !! i = Some (PyProxy ProxyObject (QObject r) (Some self))) /\
       (forall k v, snd (py_setitem evaluate js b k v) = js)) /\
  (forall b, JSObject.__copy__ js self = Ok b ->
     exists entries,
       b = JSObjectCopy entries /\
       fst <$> entries = JSObject.__iter__ js self /\
       Forall (fun kv => JSObject.__getitem__ js self (fst kv) = Ok (snd kv)) entries /\
       (forall k v, snd (py_setitem evaluate js b k v) = js)).
Proof.
  split.
  - intros b Hb. unfold JSArray.__copy__ in Hb.
    apply bind_Ok in Hb as (items & Hitems & Hb). injection Hb as <-.
    exists items. split; [reflexivity|]. split; [exact Hitems|].
    rewrite JSArray_iter_elements in Hitems. apply mapM_Ok in Hitems.
    split; [|split].
    + intros i x v Hx Hv.
      destruct (Forall2_lookup_l _ _ _ _ _ Hitems Hx) as (v' & Hv' & Hdec).
      rewrite Hv in Hv'. injection Hv' as <-. exact Hdec.
    + intros i r o Hx Hr Hc.
      destruct (Forall2_lookup_l _ _ _ _ _ Hitems Hx) as (v' & Hv' & Hdec).
      rewrite (toPy_plain_object js r o (Some self) Hr Hc) in Hdec.
      injection Hdec as <-. exact Hv'.
    + intros k v. unfold PyList, py_setitem.
      destruct k as [i|s]; [|reflexivity].
      destruct (py_index items i); reflexivity.
  - intros b Hb. unfold JSObject.__copy__ in Hb.
    apply bind_Ok in Hb as (entries & Hentries & Hb). injection Hb as <-.
    exists entries. split; [reflexivity|].
    destruct (mapM_pairs_keys _ _ _ Hentries) as [Hkeys Hvals].
    split; [exact Hkeys|]. split; [exact Hvals|].
    intros k v. unfold JSObjectCopy, py_setitem. destruct k; reflexivity.
Qed.

(** The shallow copy of [[{key: 1}]]: assigning through the copy's first
    item reaches the engine. *)
Lemma shallow_copy_shares_witness :
  exists items js',
    JSArray.__copy__ js_nested (QObject 0%nat) = Ok (PyList items) /\
    items !! 0%nat = Some (PyProxy ProxyObject (QObject 1%nat) (Some (QObject 0%nat))) /\
    py_assign evaluate_42 js_nested (PyList items) [KIndex 0] (KName "key") (PyInt 2)
      = (Ok (PyList items), js') /\
    JSObject.__getitem__ js' (QObject 1%nat) "key" = Ok (PyInt 2).
Proof.
  destruct (shallow_copy_shares evaluate_42 js_nested (QObject 0%nat)) as (Harr & _).
  destruct (Harr _ eq_refl) as (items & Hb & _ & _ & Hshare & _).
  injection Hb as <-.
  eexists _, _. split; [reflexivity|].
  split; [apply (Hshare 0%nat 1%nat _ eq_refl eq_refl eq_refl)|].
  split; reflexivity.
Defined.

(** ** Writing and deleting again *)

Lemma assoc_del_set_fresh {A} (k : string) (a : A) (l : list (string * A)) :
  k ∉ (fst <$> l) -> assoc_del k (assoc_set k a l) = l.
Proof.
  intros Hk. rewrite (assoc_set_fresh k a l Hk).
  induction l as [|[k' a'] l IH]; simpl.
  - rewrite bool_decide_eq_true_2; reflexivity.
  - simpl in Hk. apply not_elem_of_cons in Hk as [Hne Hk].
    rewrite bool_decide_eq_false_2 by exact Hne. rewrite (IH Hk). reflexivity.
Qed.

(** X22.  Writes through a proxy are undone by the matching deletion: after
    [proxy.insert(idx, value)] (with [0 <= idx <= len]) and [del proxy[idx]]
    on an array proxy, and after [proxy[key] = value] and [del proxy[key]] on
    an object proxy that had no own property [key], the evaluator is exactly
    as it was before, for every value the converter turns into a script value
    without touching the evaluator. *)
Theorem write_then_delete_restores evaluate (js : JSEvaluator) (r : nat) (o : jsobj)
  (value : pyval) (q : QJSValue) :
  js_heap js !! r = Some o ->
  plain value = Some q ->
  (forall l idx,
     o_class o = CArray l -> 0 <= idx <= Z.of_nat (length l) ->
     exists js1,
       insert (toJS evaluate) js (QObject r) idx value = (Ok tt, js1) /\
       JSArray.__delitem__ js1 (QObject r) idx = (Ok tt, js)) /\
  (forall key,
     hasOwnProperty (js_heap js) (QObject r) key = false ->
     exists js1,
       __setitem__ (toJS evaluate) js (QObject r) key value = (Ok tt, js1) /\
       JSObject.__delitem__ js1 (QObject r) key = (Ok tt, js)).
Proof.
  intros Hr Hq. split.
  - intros l idx Hc Hidx. unfold insert. rewrite (toJS_plain evaluate value q js Hq).
    eexists. split; [reflexivity|].
    assert (Hel : elements (js_heap js) (QObject r) = l)
      by (unfold elements, class_of; rewrite Hr; simpl; rewrite Hc; reflexivity).
    set (l1 := splice l (Z.to_nat idx) (Z.to_nat 0) [q]).
    assert (Hh1 : js_heap (JSArray._splice js (QObject r) idx 0 [q])
                  = <[r := JsObj (CArray l1) (o_own o) (o_proto o)]> (js_heap js)).
    { unfold JSArray._splice, set_elements. rewrite with_heap_heap, Hr, Hel. reflexivity. }
    assert (Hl1 : l1 = take (Z.to_nat idx) l ++ q :: drop (Z.to_nat idx) l).
    { unfold l1, splice. simpl. rewrite Nat.add_0_r. reflexivity. }
    assert (Hlen1 : length l1 = S (length l)).
    { rewrite Hl1, length_app, length_take. simpl. rewrite length_drop. lia. }
    unfold JSArray.__delitem__. rewrite JSArray_normalize_spec.
    assert (Hel1 : elements (js_heap (JSArray._splice js (QObject r) idx 0 [q])) (QObject r)
                   = l1).
    { unfold elements, class_of. rewrite Hh1, lookup_insert_eq. reflexivity. }
    unfold JSArray.__len__. rewrite Hel1, Hlen1.
    destruct (idx <? 0) eqn:Hneg; [apply Z.ltb_lt in Hneg; lia|].
    replace ((0 <=? idx) && (idx <? Z.of_nat (S (length l)))) with true
      by (symmetry; apply andb_true_iff; split; [apply Z.leb_le|apply Z.ltb_lt]; lia).
    f_equal. unfold JSArray._splice at 1. rewrite Hel1.
    unfold set_elements. rewrite Hh1, lookup_insert_eq. cbn [o_own o_proto].
    rewrite insert_insert_eq.
    assert (Hback : splice l1 (Z.to_nat idx) (Z.to_nat 1) [] = l).
    { unfold splice. simpl app.
      replace (Z.to_nat idx + Z.to_nat 1)%nat with (S (Z.to_nat idx)) by lia.
      rewrite <- delete_take_drop, Hl1.
      replace (Z.to_nat idx) with (length (take (Z.to_nat idx) l)) at 1
        by (rewrite length_take; lia).
      rewrite delete_middle. apply take_drop. }
    rewrite Hback.
    unfold JSArray._splice. rewrite with_heap_twice.
    replace (JsObj (CArray l) (o_own o) (o_proto o)) with o
      by (destruct o as [c own proto]; simpl in Hc; subst c; reflexivity).
    rewrite insert_id by exact Hr. destruct js; reflexivity.
  - intros key Hown. unfold __setitem__. rewrite (toJS_plain evaluate value q js Hq).
    eexists. split; [reflexivity|].
    unfold setProperty. rewrite Hr.
    unfold JSObject.__delitem__, hasOwnProperty, deleteProperty.
    rewrite !with_heap_heap, !lookup_insert_eq. cbn [o_own o_class o_proto].
    rewrite assoc_set_eq. rewrite bool_decide_eq_true_2 by eauto. cbn [negb].
    f_equal. rewrite with_heap_twice, insert_insert_eq.
    assert (Hfresh : key ∉ (fst <$> o_own o)).
    { intros Hin. unfold hasOwnProperty in Hown. rewrite Hr in Hown.
      apply bool_decide_eq_false in Hown. apply Hown.
      destruct (assoc_of_key key (o_own o) Hin) as (v & Hv & _). eauto. }
    rewrite (assoc_del_set_fresh key q (o_own o) Hfresh).
    replace (JsObj (o_class o) (o_own o) (o_proto o)) with o by (destruct o; reflexivity).
    rewrite insert_id by exact Hr. destruct js; reflexivity.
Qed.

Lemma write_then_delete_restores_witness :
  (exists js1,
     insert (toJS evaluate_42) js_1234 (QObject 0%nat) 2 (PyStr "x") = (Ok tt, js1) /\
     JSArray.__delitem__ js1 (QObject 0%nat) 2 = (Ok tt, js_1234)) /\
  (exists js1,
     __setitem__ (toJS evaluate_42) js_inherit (QObject 1%nat) "b" (PyInt 3) = (Ok tt, js1) /\
     JSObject.__delitem__ js1 (QObject 1%nat) "b" = (Ok tt, js_inherit)).
Proof.
  split.
  - destruct (write_then_delete_restores evaluate_42 js_1234 0%nat _ (PyStr "x")
                (QString "x") eq_refl eq_refl) as (Harr & _).
    apply (Harr _ 2 eq_refl). simpl. lia.
  - destruct (write_then_delete_restores evaluate_42 js_inherit 1%nat _ (PyInt 3)
                (QNumber (float_of_int 3)) eq_refl eq_refl) as (_ & Hobj).
    apply (Hobj "b"). reflexivity.
Defined.

(** ** A script call whose last argument is an object *)

Lemma mapM_app_Ok {A B} (f : A -> result B) (l1 l2 : list A) (ys1 ys2 : list B) :
  mapM f l1 = Ok ys1 -> mapM f l2 = Ok ys2 -> mapM f (l1 ++ l2) = Ok (ys1 ++ ys2).
Proof.
  intros H1 H2. apply mapM_Ok. apply Forall2_app; apply mapM_Ok; assumption.
Qed.

(** X23.  When a script calls a wrapped host callable and the last argument
    is a plain object of the engine, the dispatcher's first strategy binds:
    the callable is called once, with the decodings of the other arguments as
    positional arguments and with one keyword for each own property of the
    object (properties the object only inherits are not passed); what the
    callable returns is converted and becomes the value of the script call,
    and the shared slot is left empty. *)
Theorem wrapper_passes_keywords evaluate (jseval_dir : string) py_call
  (id stack : string) (js : JSEvaluator) (func : pyval) (qs : list QJSValue)
  (ro : nat) (o : jsobj) (args : list pyval) (entries : list (string * pyval))
  (v : pyval) (js1 : JSEvaluator) (q : QJSValue) (js2 : JSEvaluator) :
  js_funcs js !! id = Some func ->
  js_heap js !! ro = Some o -> o_class o = CPlain ->
  let arguments := qs ++ [QObject ro] in
  let arr := QObject (fresh (dom (js_heap js))) in
  let js0 := dispatch_state_with js arguments in
  mapM (fun x => toPy js0 x (Some arr)) qs = Ok args ->
  JSObject.iteritems js0 (QObject ro) = Ok entries ->
  py_call func args entries js0 = (Returned v, js1) ->
  toJS evaluate v js1 = (Ok q, js2) ->
  wrapper evaluate jseval_dir py_call id arguments stack js
    = (Return q, with_result js2 None) /\
  fst <$> entries = fst <$> o_own o /\
  cb_result (with_result js2 None) = None.
Proof.
  intros Hf Hro Hc arguments arr js0 Hargs Hkw Hcall Hq.
  assert (Hfresh : js_heap js !! fresh (dom (js_heap js)) = None)
    by (apply not_elem_of_dom, is_fresh).
  assert (Hne : ro <> fresh (dom (js_heap js))) by congruence.
  assert (Hro0 : js_heap js0 !! ro = Some o).
  { unfold js0, dispatch_state_with. simpl. rewrite lookup_insert_ne by congruence.
    exact Hro. }
  split; [|split; [|reflexivity]].
  - unfold wrapper, alloc, callback.
    cbn [js_funcs with_args with_heap cb_args]. rewrite Hf.
    change (with_args (with_args ?x _) None) with (with_args x None).
    fold arguments. fold (dispatch_state_with js arguments). fold js0. fold arr.
    assert (Hiter : JSArray.__iter__ js0 arr
                    = Ok (args ++ [PyProxy ProxyObject (QObject ro) (Some arr)])).
    { rewrite JSArray_iter_elements.
      replace (elements (js_heap js0) arr) with (qs ++ [QObject ro])
        by (unfold elements, class_of, js0, dispatch_state_with, arr; simpl;
            rewrite lookup_insert_eq; reflexivity).
      apply mapM_app_Ok; [exact Hargs|].
      rewrite mapM_cons, (toPy_plain_object js0 ro o (Some arr) Hro0 Hc). reflexivity. }
    rewrite Hiter. unfold call_with_kwargs.
    rewrite last_snoc, removelast_last. cbn [iteritems].
    rewrite Hkw, Hcall. unfold write_result. rewrite Hq. reflexivity.
  - unfold JSObject.iteritems in Hkw.
    destruct (mapM_pairs_keys _ _ _ Hkw) as [Hkeys _].
    rewrite Hkeys. unfold JSObject.__iter__. rewrite Hro0. reflexivity.
Qed.

(** The call [func(1, 2, {test: 1, b: 2})] of the keyword test, for a
    callable that returns its keyword [b]. *)
Lemma wrapper_passes_keywords_witness :
  let js := Evaluator {[ 0%nat := JsObj CPlain [("test", QNumber (float_of_int 1));
                                                ("b", QNumber (float_of_int 2))] None ]}
              ∅ None None {[ "7" := PyFunction 7 ]} 1 ∅ ∅ in
  exists js',
    wrapper evaluate_42 "/opt/jseval" py_call_keyword_b "7"
      [QNumber (float_of_int 1); QNumber (float_of_int 2); QObject 0%nat] wrapper_line js
    = (Return (QNumber (float_of_int 2)), js').
Proof.
  intros js.
  destruct (wrapper_passes_keywords evaluate_42 "/opt/jseval" py_call_keyword_b "7"
              wrapper_line js (PyFunction 7)
              [QNumber (float_of_int 1); QNumber (float_of_int 2)] 0%nat
              (JsObj CPlain [("test", QNumber (float_of_int 1));
                             ("b", QNumber (float_of_int 2))] None)
              [PyInt 1; PyInt 2] [("test", PyInt 1); ("b", PyInt 2)] (PyInt 2)
              (dispatch_state_with js
                 [QNumber (float_of_int 1); QNumber (float_of_int 2); QObject 0%nat])
              (QNumber (float_of_int 2))
              (dispatch_state_with js
                 [QNumber (float_of_int 1); QNumber (float_of_int 2); QObject 0%nat]))
    as (Hw & _); try reflexivity.
  eexists. exact Hw.
Defined.
